(** * Layer primitives of network/layer.py: a shallow embedding

    The repository implements neural-network layers on top of numpy.  A
    numpy array is modelled the way numpy stores a C-contiguous array: a
    shape (list of dimension lengths) and the flat row-major list of its
    elements.  Array operations that numpy can refuse return a [res]ult
    carrying the Python exception; layer methods, which read and assign
    instance attributes, are state transformers over a record of the
    attributes and keep the state reached when an exception is raised.

    Array elements are kept abstract ([Scalar]): the layer code only adds,
    subtracts, multiplies, divides and compares them.  The development
    is instantiated at [Q] (exact rationals) to run the code on concrete
    arrays. *)

From Stdlib Require Import ZArith QArith Lia.
From stdpp Require Import base option list gmap.

Close Scope Q_scope.
Open Scope nat_scope.

(** ** Python exceptions and results *)

Inductive exn : Type :=
  | ValueError          (* shapes that cannot be reshaped, broadcast or unpacked *)
  | TypeError           (* arithmetic on None *)
  | IndexError          (* index out of range, non-integer index array *)
  | AttributeError      (* attribute read on None, attribute never assigned *)
  | AxisError           (* reduction over an axis the array does not have *)
  | ZeroDivisionError   (* Python-level division by zero *)
  | NotModelled.        (* numpy behaviour outside the fragment embedded here *)

Inductive res (A : Type) : Type :=
  | Ok (a : A)
  | Raise (e : exn).
Arguments Ok {A} a.
Arguments Raise {A} e.

Definition rbind {A B} (r : res A) (k : A -> res B) : res B :=
  match r with
  | Ok a => k a
  | Raise e => Raise e
  end.

Definition rmap {A B} (f : A -> B) (r : res A) : res B :=
  rbind r (fun a => Ok (f a)).

(** [from_attr e o]: reading an attribute that may still hold [None]. *)
Definition from_attr {A} (e : exn) (o : option A) : res A :=
  match o with
  | Some a => Ok a
  | None => Raise e
  end.

Declare Scope res_scope.
Delimit Scope res_scope with res.
Notation "'let*' x := c 'in' k" := (rbind c (fun x => k))
  (at level 10, x pattern, c at level 100, k at level 200) : res_scope.

(** Methods: a computation over the instance state [S].  The state is
    returned in both cases, so an assignment made before a later
    statement raises stays visible. *)
Definition M (S A : Type) : Type := S -> res A * S.

Definition ret {S A} (a : A) : M S A := fun s => (Ok a, s).
Definition raise {S A} (e : exn) : M S A := fun s => (Raise e, s).
Definition bind {S A B} (m : M S A) (k : A -> M S B) : M S B :=
  fun s => match m s with
           | (Ok a, s') => k a s'
           | (Raise e, s') => (Raise e, s')
           end.
Definition get {S} : M S S := fun s => (Ok s, s).
Definition put {S} (s : S) : M S unit := fun _ => (Ok tt, s).
Definition modify {S} (f : S -> S) : M S unit := fun s => (Ok tt, f s).
Definition lift {S A} (r : res A) : M S A := fun s => (r, s).

(** Frame property: a method keeps [P] of the state, whether it returns
    or raises. *)
Definition preserves {S A} (P : S -> Prop) (m : M S A) : Prop :=
  forall s, P s -> P (m s).2.

Declare Scope meth_scope.
Delimit Scope meth_scope with meth.
Notation "x <- c ;; k" := (bind c (fun x => k))
  (at level 100, c at next level, right associativity) : meth_scope.
Notation "c ;;; k" := (bind c (fun _ => k))
  (at level 100, right associativity) : meth_scope.

(** ** Array elements *)

Class Scalar (R : Type) : Type := {
  s0 : R;
  s1 : R;
  sadd : R -> R -> R;
  ssub : R -> R -> R;
  smul : R -> R -> R;
  sdiv : R -> R -> R;
  sopp : R -> R;
  sleb : R -> R -> bool;     (* [sleb a b] is [a <= b] *)
  sltb : R -> R -> bool;     (* [sltb a b] is [a < b] *)
  of_Z : Z -> R;
}.

Definition of_bool `{Scalar R} (b : bool) : R := if b then s1 else s0.

(** Exact rationals.  Division by zero yields 0 here; numpy yields
    inf or nan with a warning.  Neither raises. *)
#[export] Instance Q_Scalar : Scalar Q := {|
  s0 := 0%Q;
  s1 := 1%Q;
  sadd := Qplus;
  ssub := Qminus;
  smul := Qmult;
  sdiv := Qdiv;
  sopp := Qopp;
  sleb := Qle_bool;
  sltb := fun a b => negb (Qle_bool b a);
  of_Z := inject_Z;
|}.

(** ** Arrays *)

Record Tensor (A : Type) : Type := mkT { shape : list nat; data : list A }.
Arguments mkT {A} shape data.
Arguments shape {A} t.
Arguments data {A} t.

(** Number of elements of a shape: the product of its dimensions. *)
Definition numel (s : list nat) : nat := foldr Nat.mul 1 s.

Definition size {A} (t : Tensor A) : nat := numel (shape t).
Definition ndim {A} (t : Tensor A) : nat := length (shape t).

(** The representation invariant of an array. *)
Definition wf {A} (t : Tensor A) : Prop := length (data t) = size t.

(** [r] is a well-formed array of shape [s]: the operation did not raise. *)
Definition returns {A} (r : res (Tensor A)) (s : list nat) : Prop :=
  exists t, r = Ok t /\ shape t = s /\ wf t.

(** A Python number used as an operand is a rank-0 array. *)
Definition scalar {A} (a : A) : Tensor A := mkT [] [a].

Definition tmap {A B} (f : A -> B) (t : Tensor A) : Tensor B :=
  mkT (shape t) (map f (data t)).

(** [np.zeros(s)] *)
Definition zeros `{Scalar R} (s : list nat) : Tensor R :=
  mkT s (replicate (numel s) s0).

(** [t.shape[0]] *)
Definition shape0 {A} (t : Tensor A) : res nat :=
  match shape t with
  | [] => Raise IndexError
  | n :: _ => Ok n
  end.

(** [N, C, H, W = t.shape] *)
Definition unpack4 (s : list nat) : res (nat * nat * nat * nat) :=
  match s with
  | [n; c; h; w] => Ok (n, c, h, w)
  | _ => Raise ValueError
  end.

(** [N, D = x.shape] *)
Definition unpack2 (s : list nat) : res (nat * nat) :=
  match s with
  | [n; d] => Ok (n, d)
  | _ => Raise ValueError
  end.

(** *** reshape

    [fix_unknown_dimension] follows numpy's function of that name: a
    negative entry stands for the one dimension to infer; the known
    dimensions must divide the size exactly and must not multiply to 0. *)
Definition known_dims (dims : list Z) : Z :=
  foldr Z.mul 1%Z (filter (fun d => (0 <= d)%Z) dims).

Definition count_unknown (dims : list Z) : nat :=
  length (filter (fun d => (d < 0)%Z) dims).

Definition fix_unknown_dimension (dims : list Z) (sz : nat) : res (list nat) :=
  let known := known_dims dims in
  match count_unknown dims with
  | 0 => if (known =? Z.of_nat sz)%Z then Ok (map Z.to_nat dims)
         else Raise ValueError
  | 1 => if (known =? 0)%Z then Raise ValueError
         else if (Z.of_nat sz mod known =? 0)%Z
         then Ok (map (fun d => if (d <? 0)%Z then Z.to_nat (Z.of_nat sz / known)
                                else Z.to_nat d) dims)
         else Raise ValueError
  | _ => Raise ValueError
  end.

Definition reshape {A} (dims : list Z) (t : Tensor A) : res (Tensor A) :=
  rmap (fun s => mkT s (data t)) (fix_unknown_dimension dims (size t)).

(** [t.reshape( *s )] with a shape tuple [s] taken from another array. *)
Definition reshape_to {A} (s : list nat) (t : Tensor A) : res (Tensor A) :=
  reshape (map Z.of_nat s) t.

(** *** Broadcasting binary operations *)

(** [chunks k n l]: the first [n] consecutive blocks of length [k]. *)
Fixpoint chunks {A} (k n : nat) (l : list A) : list (list A) :=
  match n with
  | 0 => []
  | S n' => take k l :: chunks k n' (drop k l)
  end.

(** Shapes are aligned on the right; the shorter one is padded with 1s. *)
Definition pad_left (r : nat) (s : list nat) : list nat :=
  replicate (r - length s) 1 ++ s.

Fixpoint bshape (sa sb : list nat) : res (list nat) :=
  match sa, sb with
  | [], [] => Ok []
  | n :: sa', m :: sb' =>
      if n =? m then rmap (cons n) (bshape sa' sb')
      else if n =? 1 then rmap (cons m) (bshape sa' sb')
      else if m =? 1 then rmap (cons n) (bshape sa' sb')
      else Raise ValueError
  | _, _ => Raise ValueError
  end.

Fixpoint bdata {A B C} (f : A -> B -> C) (sa sb : list nat)
    (da : list A) (db : list B) : list C :=
  match sa, sb with
  | n :: sa', m :: sb' =>
      let ca := chunks (numel sa') n da in
      let cb := chunks (numel sb') m db in
      if n =? m then concat (zip_with (bdata f sa' sb') ca cb)
      else if n =? 1 then concat (map (fun b => bdata f sa' sb' da b) cb)
      else concat (map (fun a => bdata f sa' sb' a db) ca)
  | _, _ =>
      match da, db with
      | a :: _, b :: _ => [f a b]
      | _, _ => []
      end
  end.

Definition broadcast2 {A B C} (f : A -> B -> C)
    (a : Tensor A) (b : Tensor B) : res (Tensor C) :=
  let r := ndim a `max` ndim b in
  let sa := pad_left r (shape a) in
  let sb := pad_left r (shape b) in
  rmap (fun s => mkT s (bdata f sa sb (data a) (data b))) (bshape sa sb).

(** *** Index arithmetic, transposition *)

(** Multi-index of flat position [i] in an array of shape [s]. *)
Fixpoint unravel (s : list nat) (i : nat) : list nat :=
  match s with
  | [] => []
  | _ :: s' => (i / numel s') :: unravel s' (i mod numel s')
  end.

(** Flat position of multi-index [idx] in an array of shape [s]. *)
Fixpoint ravel (s idx : list nat) : nat :=
  match s, idx with
  | _ :: s', i :: idx' => i * numel s' + ravel s' idx'
  | _, _ => 0
  end.

(** Position of axis [a] in the permutation [axes]. *)
Fixpoint axis_pos (axes : list nat) (a : nat) : nat :=
  match axes with
  | [] => 0
  | b :: axes' => if a =? b then 0 else S (axis_pos axes' a)
  end.

Definition is_perm_of_axes (axes : list nat) (r : nat) : bool :=
  (length axes =? r) && forallb (fun a => existsb (Nat.eqb a) axes) (seq 0 r).

(** [t.transpose(axes)]: new axis [k] is old axis [axes[k]].  The result
    is materialised in row-major order, as a later reshape reads it. *)
Definition transpose {A} (axes : list nat) (t : Tensor A) : res (Tensor A) :=
  if is_perm_of_axes axes (ndim t) then
    let s := shape t in
    let s' := map (fun a => nth a s 0) axes in
    let src j :=
      let idx' := unravel s' j in
      ravel s (map (fun a => nth (axis_pos axes a) idx' 0) (seq 0 (length s))) in
    Ok (mkT s' (omap (fun j => data t !! src j) (seq 0 (numel s'))))
  else Raise ValueError.

(** [t.T] reverses the axes. *)
Definition transposeT {A} (t : Tensor A) : res (Tensor A) :=
  transpose (reverse (seq 0 (ndim t))) t.

(** *** Numeric operations *)

Section Numeric.
Context {R : Type} `{Scalar R}.

Definition tadd := broadcast2 sadd.
Definition tsub := broadcast2 ssub.
Definition tmul := broadcast2 smul.
Definition tdiv := broadcast2 sdiv.
Definition tneg : Tensor R -> Tensor R := tmap sopp.

(** Product of a numeric array with a boolean one: True counts as 1. *)
Definition tmul_mask : Tensor R -> Tensor bool -> res (Tensor R) :=
  broadcast2 (fun a b => smul a (of_bool b)).

(** The literals of the source. *)
Definition half : R := sdiv (of_Z 1) (of_Z 2).           (* 0.5 *)
Definition two : R := of_Z 2.                            (* 2.0 *)
Definition eps : R := sdiv (of_Z 10) (of_Z 10000000).    (* 10e-7 *)

(** Sum of a non-empty list, left to right from its first element. *)
Definition sum_list_R (l : list R) : R :=
  match l with
  | [] => s0
  | a :: l' => foldl sadd a l'
  end.

(** [np.sum(t, axis=0)], [t.sum(axis=0)]: rows are accumulated onto the
    first one; without rows the result is all zeros. *)
Definition sum_axis0 (t : Tensor R) : res (Tensor R) :=
  match shape t with
  | [] => Raise AxisError
  | n :: s' =>
      let k := numel s' in
      Ok (mkT s' (match chunks k n (data t) with
                  | [] => replicate k s0
                  | c :: cs => foldl (zip_with sadd) c cs
                  end))
  end.

(** [t.mean(axis=0)], [np.mean(t, axis=0)]: the sum divided by the
    number of rows (numpy does not raise for zero rows). *)
Definition mean_axis0 (t : Tensor R) : res (Tensor R) :=
  match shape t with
  | [] => Raise AxisError
  | n :: _ => rmap (tmap (fun a => sdiv a (of_Z (Z.of_nat n)))) (sum_axis0 t)
  end.

(** [np.dot(a, b)]: inner product of vectors, matrix product, and the
    mixed cases; a rank-0 operand multiplies elementwise.  Operands of
    rank 3 and more (tensor contraction) are left out. *)
Definition inner (r c : list R) : R := sum_list_R (zip_with smul r c).

Definition dot (a b : Tensor R) : res (Tensor R) :=
  match shape a, shape b with
  | [], _ | _, [] => tmul a b
  | [k], [k'] =>
      if k =? k' then Ok (mkT [] [inner (data a) (data b)])
      else Raise ValueError
  | [n; k], [k'] =>
      if k =? k' then Ok (mkT [n] (map (fun r => inner r (data b)) (chunks k n (data a))))
      else Raise ValueError
  | [k], [k'; m] =>
      if k =? k' then
        rbind (transposeT b) (fun bT =>
        Ok (mkT [m] (map (inner (data a)) (chunks k m (data bT)))))
      else Raise ValueError
  | [n; k], [k'; m] =>
      if k =? k' then
        rbind (transposeT b) (fun bT =>
        let rows := chunks k n (data a) in
        let cols := chunks k m (data bT) in
        Ok (mkT [n; m] (r ← rows; c ← cols; [inner r c])))
      else Raise ValueError
  | _, _ => Raise NotModelled
  end.

(** [t <= 0] *)
Definition le_zero (t : Tensor R) : Tensor bool :=
  tmap (fun a => sleb a s0) t.

Definition is_prefix {A} `{EqDecision A} (p l : list A) : bool :=
  bool_decide (take (length p) l = p).

(** [t[mask] = v] for a boolean array [mask]: the mask must cover the
    leading axes of [t] exactly; every selected block is filled. *)
Definition mask_assign (mask : Tensor bool) (v : R) (t : Tensor R)
  : res (Tensor R) :=
  if is_prefix (shape mask) (shape t) then
    let blk := numel (drop (ndim mask) (shape t)) in
    Ok (mkT (shape t)
          (imap (fun i a => match data mask !! (i / blk) with
                            | Some true => v
                            | _ => a
                            end) (data t)))
  else Raise IndexError.

(** [np.max(t, axis=1)] and [np.argmax(t, axis=1)] on a matrix: the
    first maximal entry of each row wins. *)
Definition max_list (a : R) (l : list R) : R :=
  foldl (fun m x => if sltb m x then x else m) a l.

Definition argmax_list (a : R) (l : list R) : nat :=
  fst (foldl (fun '(i, m, j) x => if sltb m x then (j, x, S j) else (i, m, S j))
             (0, a, 1) l).1.

Definition reduce_axis1 {B} (f : R -> list R -> B) (t : Tensor R)
  : res (Tensor B) :=
  match shape t with
  | [n; k] =>
      match k with
      | 0 => Raise ValueError
      | S _ => Ok (mkT [n] (omap (fun row => match row with
                                             | [] => None
                                             | a :: l => Some (f a l)
                                             end) (chunks k n (data t))))
      end
  | _ => Raise NotModelled
  end.

Definition max_axis1 := reduce_axis1 max_list.
Definition argmax_axis1 := reduce_axis1 argmax_list.

End Numeric.

(** ** Elementwise layers (layer.py, classes AddLayer, MulLayer) *)

Module AddLayer.
Section AddLayer.
Context {R : Type} `{Scalar R}.

(** The class has no attributes: its methods are functions of their
    arguments. *)
Definition forward (x y : Tensor R) : res (Tensor R) := tadd x y.

Definition backward (dout : Tensor R) : res (Tensor R * Tensor R) :=
  rbind (tmul dout (scalar s1)) (fun dx =>
  rbind (tmul dout (scalar s1)) (fun dy =>
  Ok (dx, dy))).

End AddLayer.
End AddLayer.

Module MulLayer.
Section MulLayer.
Context {R : Type} `{Scalar R}.

Record state : Type := mk {
  x : option (Tensor R);
  y : option (Tensor R);
}.

(** [__init__(self)] *)
Definition init : state := mk None None.

Definition set_x v (s : state) := mk v (y s).
Definition set_y v (s : state) := mk (x s) v.

Open Scope meth_scope.

Definition forward (x0 y0 : Tensor R) : M state (Tensor R) :=
  modify (set_x (Some x0)) ;;;
  modify (set_y (Some y0)) ;;;
  lift (tmul x0 y0).

Definition backward (dout : Tensor R) : M state (Tensor R * Tensor R) :=
  s <- get ;;
  y0 <- lift (from_attr TypeError (y s)) ;;
  dx <- lift (tmul dout y0) ;;
  x0 <- lift (from_attr TypeError (x s)) ;;
  dy <- lift (tmul dout x0) ;;
  ret (dx, dy).

End MulLayer.
End MulLayer.
Arguments MulLayer.state R : clear implicits.

(** ** Sigmoid (layer.py, class Sigmoid) *)

Module Sigmoid.
Section Sigmoid.
Context {R : Type} `{Scalar R}.

(** [np.exp] on one element. *)
Variable exp : R -> R.

Record state : Type := mk { out : option (Tensor R) }.

(** [__init__(self)] *)
Definition init : state := mk None.

Open Scope meth_scope.

(** [1 / (1 + np.exp(-x))] *)
Definition forward (x : Tensor R) : M state (Tensor R) :=
  e <- lift (tadd (scalar s1) (tmap exp (tneg x))) ;;
  o <- lift (tdiv (scalar s1) e) ;;
  put (mk (Some o)) ;;;
  ret o.

(** [dout * (1.0 - self.out) * self.out] *)
Definition backward (dout : Tensor R) : M state (Tensor R) :=
  s <- get ;;
  o <- lift (from_attr TypeError (out s)) ;;
  c <- lift (tsub (scalar s1) o) ;;
  d <- lift (tmul dout c) ;;
  lift (tmul d o).

End Sigmoid.
End Sigmoid.
Arguments Sigmoid.state R : clear implicits.

(** ** Affine (layer.py, class Affine) *)

Module Affine.
Section Affine.
Context {R : Type} `{Scalar R}.

Record state : Type := mk {
  W : Tensor R;
  b : Tensor R;
  x : option (Tensor R);
  original_x_shape : option (list nat);
  dW : option (Tensor R);
  db : option (Tensor R);
}.

(** [__init__(self, W, b)] *)
Definition init (W0 b0 : Tensor R) : state :=
  mk W0 b0 None None None None.

Definition set_x v (s : state) := mk (W s) (b s) v (original_x_shape s) (dW s) (db s).
Definition set_original_x_shape v (s : state) := mk (W s) (b s) (x s) v (dW s) (db s).
Definition set_dW v (s : state) := mk (W s) (b s) (x s) (original_x_shape s) v (db s).
Definition set_db v (s : state) := mk (W s) (b s) (x s) (original_x_shape s) (dW s) v.

Open Scope meth_scope.

Definition forward (x0 : Tensor R) : M state (Tensor R) :=
  modify (set_original_x_shape (Some (shape x0))) ;;;
  n <- lift (shape0 x0) ;;
  x1 <- lift (reshape [Z.of_nat n; (-1)%Z] x0) ;;
  modify (set_x (Some x1)) ;;;
  s <- get ;;
  xW <- lift (dot x1 (W s)) ;;
  lift (tadd xW (b s)).

Definition backward (dout : Tensor R) : M state (Tensor R) :=
  s <- get ;;
  WT <- lift (transposeT (W s)) ;;
  dx <- lift (dot dout WT) ;;
  x1 <- lift (from_attr AttributeError (x s)) ;;
  xT <- lift (transposeT x1) ;;
  dW1 <- lift (dot xT dout) ;;
  modify (set_dW (Some dW1)) ;;;
  db1 <- lift (sum_axis0 dout) ;;
  modify (set_db (Some db1)) ;;;
  sh <- lift (from_attr TypeError (original_x_shape s)) ;;
  lift (reshape_to sh dx).

End Affine.
End Affine.
Arguments Affine.state R : clear implicits.

(** ** ReLU (layer.py, class Relu)

    [backward] assigns into the array it is given and returns that same
    array, so arrays live in a store and the methods pass references. *)

Definition loc : Type := positive.

Module Relu.
Section Relu.
Context {R : Type} `{Scalar R}.

Abbreviation heap := (gmap loc (Tensor R)).

Record state : Type := mk { mask : option (Tensor bool) }.

(** What a method acts on: the instance and the store of arrays. *)
Definition world : Type := state * heap.

(** [__init__(self)] *)
Definition init : state := mk None.

Definition set_mask (v : option (Tensor bool)) : M world unit :=
  modify (fun w : world => (mk v, w.2)).

(** Reading through a reference; callers only hold live references. *)
Definition load (l : loc) : M world (Tensor R) :=
  fun w => (from_attr NotModelled (w.2 !! l), w).

(** In-place update of the array behind a reference. *)
Definition store (l : loc) (t : Tensor R) : M world unit :=
  modify (fun w : world => (w.1, <[l := t]> w.2)).

(** A new array object. *)
Definition alloc (t : Tensor R) : M world loc :=
  fun w => let l := fresh (dom w.2) in (Ok l, (w.1, <[l := t]> w.2)).

(** ReLU on one element, and what [backward] leaves of a gradient
    entry [d] whose input was [a]. *)
Definition relu (a : R) : R := if sleb a s0 then s0 else a.
Definition relu_grad (a d : R) : R := if sleb a s0 then s0 else d.

Open Scope meth_scope.

Definition forward (x : loc) : M world loc :=
  xv <- load x ;;
  let m := le_zero xv in
  set_mask (Some m) ;;;
  out <- alloc xv ;;                            (* out = x.copy() *)
  cv <- load out ;;
  outv <- lift (mask_assign m s0 cv) ;;         (* out[self.mask] = 0 *)
  store out outv ;;;
  ret out.

(** With [self.mask] still [None] the index is [np.newaxis] and the
    assignment fills the whole array. *)
Definition backward (dout : loc) : M world loc :=
  w <- get ;;
  dv <- load dout ;;
  dv' <- lift (match mask w.1 with
               | Some m => mask_assign m s0 dv
               | None => Ok (tmap (fun _ => s0) dv)
               end) ;;
  store dout dv' ;;;
  ret dout.

End Relu.
End Relu.
Arguments Relu.world R : clear implicits.

(** ** Softmax with cross-entropy loss (layer.py, class SoftmaxWithLoss) *)

(** The target is a numeric array (one-hot rows) or an array of integers
    (class indices). *)
Inductive ndarray (R : Type) : Type :=
  | FArr (a : Tensor R)
  | IArr (a : Tensor Z).
Arguments FArr {R} a.
Arguments IArr {R} a.

Definition nd_shape {R} (t : ndarray R) : list nat :=
  match t with FArr a => shape a | IArr a => shape a end.

Definition as_float `{Scalar R} (t : ndarray R) : Tensor R :=
  match t with FArr a => a | IArr a => tmap of_Z a end.

(** A Python index [j] into an axis of length [c]: negative indices count
    from the end. *)
Definition norm_index (c : nat) (j : Z) : option nat :=
  if ((0 <=? j) && (j <? Z.of_nat c))%Z then Some (Z.to_nat j)
  else if ((- Z.of_nat c <=? j) && (j <? 0))%Z then Some (Z.to_nat (j + Z.of_nat c))
  else None.


Module SoftmaxWithLoss.
Section SoftmaxWithLoss.
Context {R : Type} `{Scalar R}.

(** [softmax] and [cross_entropy_error] come from function/activation.py
    and function/cost.py, which are not part of the sources at hand:
    they are parameters of [forward]. *)
Variable softmax : Tensor R -> res (Tensor R).
Variable cross_entropy_error : Tensor R -> ndarray R -> res R.

Record state : Type := mk {
  loss : option R;
  y : option (Tensor R);
  t : option (ndarray R);
}.

(** [__init__(self)] *)
Definition init : state := mk None None None.

Definition set_loss v (s : state) := mk v (y s) (t s).
Definition set_y v (s : state) := mk (loss s) v (t s).
Definition set_t v (s : state) := mk (loss s) (y s) v.

Open Scope meth_scope.

Definition forward (x : Tensor R) (t0 : ndarray R) : M state R :=
  modify (set_t (Some t0)) ;;;
  y0 <- lift (softmax x) ;;
  modify (set_y (Some y0)) ;;;
  l <- lift (cross_entropy_error y0 t0) ;;
  modify (set_loss (Some l)) ;;;
  ret l.

(** [dx[np.arange(batch_size), t] -= 1]: the two index arrays are
    broadcast against each other and select blocks [dx[i, j]]; each
    selected block is decremented once. *)
Definition index_pairs (batch_size : nat) (t0 : ndarray R)
  : res (list (nat * Z)) :=
  match t0 with
  | FArr _ => Raise IndexError
  | IArr ti =>
      match broadcast2 pair (mkT [batch_size] (seq 0 batch_size)) ti with
      | Ok p => Ok (data p)
      | Raise _ => Raise IndexError
      end
  end.

Definition check_pair (rows cols : nat) (p : nat * Z) : option (nat * nat) :=
  if p.1 <? rows then pair p.1 <$> norm_index cols p.2 else None.

Definition sub_one_at (dx : Tensor R) (batch_size : nat) (t0 : ndarray R)
  : res (Tensor R) :=
  match shape dx with
  | rows :: cols :: rest =>
      rbind (index_pairs batch_size t0) (fun ps =>
      rbind (from_attr IndexError (mapM (check_pair rows cols) ps)) (fun targets =>
      let blk := numel rest in
      Ok (mkT (shape dx)
            (imap (fun p a =>
                     if bool_decide ((p / blk / cols, (p / blk) mod cols) ∈ targets)
                     then ssub a s1 else a) (data dx)))))
  | _ => Raise IndexError
  end.

(** [dout] (default 1) is accepted and not read. *)
Definition backward (dout : Tensor R) : M state (Tensor R) :=
  s <- get ;;
  t0 <- lift (from_attr AttributeError (t s)) ;;
  batch_size <- lift (match nd_shape t0 with
                      | [] => Raise IndexError
                      | n :: _ => Ok n
                      end) ;;
  y0 <- lift (from_attr AttributeError (y s)) ;;
  let bs := scalar (of_Z (Z.of_nat batch_size)) in
  if numel (nd_shape t0) =? size y0 then
    d <- lift (tsub y0 (as_float t0)) ;;
    lift (tdiv d bs)
  else
    dx <- lift (sub_one_at y0 batch_size t0) ;;
    lift (tdiv dx bs).

End SoftmaxWithLoss.
End SoftmaxWithLoss.
Arguments SoftmaxWithLoss.state R : clear implicits.

(** ** Dropout (layer.py, class Dropout) *)

Module Dropout.
Section Dropout.
Context {R : Type} `{Scalar R}.

Record state : Type := mk {
  dropout_ratio : R;
  mask : option (Tensor bool);
}.

(** [__init__(self, dropout_ratio=0.5)] *)
Definition init (ratio : R) : state := mk ratio None.

Definition set_mask v (s : state) := mk (dropout_ratio s) v.

Open Scope meth_scope.

(** [np.random.rand( *x.shape ) > self.dropout_ratio]: [u i] is the
    [i]-th uniform sample drawn by the call. *)
Definition draw_mask (u : nat -> R) (ratio : R) (s : list nat) : Tensor bool :=
  mkT s (map (fun i => sltb ratio (u i)) (seq 0 (numel s))).

Definition forward (u : nat -> R) (x : Tensor R) (train_flag : bool)
  : M state (Tensor R) :=
  s <- get ;;
  if train_flag then
    let m := draw_mask u (dropout_ratio s) (shape x) in
    modify (set_mask (Some m)) ;;;
    lift (tmul_mask x m)
  else
    lift (tmul x (scalar (ssub s1 (dropout_ratio s)))).

(** [dout * self.mask]; a product with [None] is a TypeError. *)
Definition backward (dout : Tensor R) : M state (Tensor R) :=
  s <- get ;;
  m <- lift (from_attr TypeError (mask s)) ;;
  lift (tmul_mask dout m).

End Dropout.
End Dropout.
Arguments Dropout.state R : clear implicits.

(** ** Batch normalisation (layer.py, class BatchNorm) *)

Module BatchNorm.
Section BatchNorm.
Context {R : Type} `{Scalar R}.

(** [np.sqrt] on one element. *)
Variable sqrt : R -> R.

Record state : Type := mk {
  gamma : Tensor R;
  beta : Tensor R;
  momentum : R;
  input_shape : option (list nat);
  running_mean : option (Tensor R);
  running_var : option (Tensor R);
  batch_size : option nat;
  xc : option (Tensor R);
  xn : option (Tensor R);       (* first assigned by a training forward *)
  std : option (Tensor R);
  dgamma : option (Tensor R);
  dbeta : option (Tensor R);
}.

(** [__init__(self, gamma, beta, momentum=0.9, running_mean=None,
    running_var=None)] *)
Definition init (g b : Tensor R) (m : R) (rm rv : option (Tensor R)) : state :=
  mk g b m None rm rv None None None None None None.

Definition set_input_shape v (s : state) :=
  mk (gamma s) (beta s) (momentum s) v (running_mean s) (running_var s)
     (batch_size s) (xc s) (xn s) (std s) (dgamma s) (dbeta s).
Definition set_running_mean v (s : state) :=
  mk (gamma s) (beta s) (momentum s) (input_shape s) v (running_var s)
     (batch_size s) (xc s) (xn s) (std s) (dgamma s) (dbeta s).
Definition set_running_var v (s : state) :=
  mk (gamma s) (beta s) (momentum s) (input_shape s) (running_mean s) v
     (batch_size s) (xc s) (xn s) (std s) (dgamma s) (dbeta s).
Definition set_batch_size v (s : state) :=
  mk (gamma s) (beta s) (momentum s) (input_shape s) (running_mean s) (running_var s)
     v (xc s) (xn s) (std s) (dgamma s) (dbeta s).
Definition set_xc v (s : state) :=
  mk (gamma s) (beta s) (momentum s) (input_shape s) (running_mean s) (running_var s)
     (batch_size s) v (xn s) (std s) (dgamma s) (dbeta s).
Definition set_xn v (s : state) :=
  mk (gamma s) (beta s) (momentum s) (input_shape s) (running_mean s) (running_var s)
     (batch_size s) (xc s) v (std s) (dgamma s) (dbeta s).
Definition set_std v (s : state) :=
  mk (gamma s) (beta s) (momentum s) (input_shape s) (running_mean s) (running_var s)
     (batch_size s) (xc s) (xn s) v (dgamma s) (dbeta s).
Definition set_dgamma v (s : state) :=
  mk (gamma s) (beta s) (momentum s) (input_shape s) (running_mean s) (running_var s)
     (batch_size s) (xc s) (xn s) (std s) v (dbeta s).
Definition set_dbeta v (s : state) :=
  mk (gamma s) (beta s) (momentum s) (input_shape s) (running_mean s) (running_var s)
     (batch_size s) (xc s) (xn s) (std s) (dgamma s) v.

Open Scope meth_scope.

(** [momentum * running + (1.0 - momentum) * stat] *)
Definition moving_average (m : R) (running stat : Tensor R) : res (Tensor R) :=
  rbind (tmul (scalar m) running) (fun a =>
  rbind (tmul (scalar (ssub s1 m)) stat) (fun b =>
  tadd a b)).

(** [np.sqrt(v + 10e-7)] *)
Definition sqrt_eps (v : Tensor R) : res (Tensor R) :=
  rmap (tmap sqrt) (tadd v (scalar eps)).

(** [gamma * xn + beta] *)
Definition scale_shift (g b xn0 : Tensor R) : res (Tensor R) :=
  rbind (tmul g xn0) (fun a => tadd a b).

(** [if self.running_mean is None: ...] *)
Definition lazy_init (x : Tensor R) : M state unit :=
  s <- get ;;
  match running_mean s with
  | None =>
      nd <- lift (unpack2 (shape x)) ;;
      let '(_, d) := nd in
      modify (set_running_mean (Some (zeros [d]))) ;;;
      modify (set_running_var (Some (zeros [d])))
  | Some _ => ret tt
  end.

(** The [if train_flag:] branch; its value is [xn]. *)
Definition normalize_train (x : Tensor R) : M state (Tensor R) :=
  mu <- lift (mean_axis0 x) ;;
  xc0 <- lift (tsub x mu) ;;
  sq <- lift (tmul xc0 xc0) ;;
  var <- lift (mean_axis0 sq) ;;
  std0 <- lift (sqrt_eps var) ;;
  xn0 <- lift (tdiv xc0 std0) ;;
  n <- lift (shape0 x) ;;
  modify (set_batch_size (Some n)) ;;;
  modify (set_xc (Some xc0)) ;;;
  modify (set_xn (Some xn0)) ;;;
  modify (set_std (Some std0)) ;;;
  s <- get ;;
  rm <- lift (from_attr TypeError (running_mean s)) ;;
  rm' <- lift (moving_average (momentum s) rm mu) ;;
  modify (set_running_mean (Some rm')) ;;;
  s <- get ;;
  rv <- lift (from_attr TypeError (running_var s)) ;;
  rv' <- lift (moving_average (momentum s) rv var) ;;
  modify (set_running_var (Some rv')) ;;;
  ret xn0.

(** The [else:] branch; its value is [xn]. *)
Definition normalize_infer (x : Tensor R) : M state (Tensor R) :=
  s <- get ;;
  rm <- lift (from_attr TypeError (running_mean s)) ;;
  xc0 <- lift (tsub x rm) ;;
  rv <- lift (from_attr TypeError (running_var s)) ;;
  sd <- lift (sqrt_eps rv) ;;
  lift (tdiv xc0 sd).

(** [__forward(self, x, train_flag)] *)
Definition __forward (x : Tensor R) (train_flag : bool) : M state (Tensor R) :=
  lazy_init x ;;;
  xn0 <- (if train_flag then normalize_train x else normalize_infer x) ;;
  s <- get ;;
  lift (scale_shift (gamma s) (beta s) xn0).

(** [if x.ndim != 2: N, C, H, W = x.shape; x = x.reshape(N, -1)] *)
Definition flatten (x : Tensor R) : res (Tensor R) :=
  if ndim x =? 2 then Ok x
  else
    rbind (unpack4 (shape x)) (fun nchw =>
    let '(n, _, _, _) := nchw in
    reshape [Z.of_nat n; (-1)%Z] x).

(** [forward(self, x, train_flag=True)] *)
Definition forward (x : Tensor R) (train_flag : bool) : M state (Tensor R) :=
  modify (set_input_shape (Some (shape x))) ;;;
  x2 <- lift (flatten x) ;;
  out <- __forward x2 train_flag ;;
  s <- get ;;
  sh <- lift (from_attr TypeError (input_shape s)) ;;
  lift (reshape_to sh out).

(** [a += b]: the sum has to fit the array updated in place. *)
Definition iadd (a b : Tensor R) : res (Tensor R) :=
  rbind (tadd a b) (fun r =>
  if bool_decide (shape r = shape a) then Ok r else Raise ValueError).

(** [2.0 / self.batch_size], a division of Python numbers. *)
Definition two_over (n : option nat) : res R :=
  match n with
  | None => Raise TypeError
  | Some 0 => Raise ZeroDivisionError
  | Some n => Ok (sdiv two (of_Z (Z.of_nat n)))
  end.

(** [__backward(self, dout)] *)
Definition __backward (dout : Tensor R) : M state (Tensor R) :=
  s <- get ;;
  dbeta0 <- lift (sum_axis0 dout) ;;
  xn0 <- lift (from_attr AttributeError (xn s)) ;;
  xnd <- lift (tmul xn0 dout) ;;
  dgamma0 <- lift (sum_axis0 xnd) ;;
  dxn <- lift (tmul (gamma s) dout) ;;
  std0 <- lift (from_attr TypeError (std s)) ;;
  dxc <- lift (tdiv dxn std0) ;;
  xc0 <- lift (from_attr TypeError (xc s)) ;;
  num <- lift (tmul dxn xc0) ;;
  den <- lift (tmul std0 std0) ;;
  q <- lift (tdiv num den) ;;
  sq <- lift (sum_axis0 q) ;;
  let dstd := tneg sq in
  hd <- lift (tmul (scalar half) dstd) ;;
  dvar <- lift (tdiv hd std0) ;;
  c <- lift (two_over (batch_size s)) ;;
  cx <- lift (tmul (scalar c) xc0) ;;
  cxv <- lift (tmul cx dvar) ;;
  dxc' <- lift (iadd dxc cxv) ;;
  dmu <- lift (sum_axis0 dxc') ;;
  n <- lift (from_attr TypeError (batch_size s)) ;;
  dmn <- lift (tdiv dmu (scalar (of_Z (Z.of_nat n)))) ;;
  dx <- lift (tsub dxc' dmn) ;;
  modify (set_dgamma (Some dgamma0)) ;;;
  modify (set_dbeta (Some dbeta0)) ;;;
  ret dx.

(** [if dout.ndim != 2: N, C, H, W = dout.shape; dout = dout.reshape(N - 1)] *)
Definition flatten_grad (dout : Tensor R) : res (Tensor R) :=
  if ndim dout =? 2 then Ok dout
  else
    rbind (unpack4 (shape dout)) (fun nchw =>
    let '(n, _, _, _) := nchw in
    reshape [(Z.of_nat n - 1)%Z] dout).

(** [backward(self, dout)] *)
Definition backward (dout : Tensor R) : M state (Tensor R) :=
  dout2 <- lift (flatten_grad dout) ;;
  dx <- __backward dout2 ;;
  s <- get ;;
  sh <- lift (from_attr TypeError (input_shape s)) ;;
  lift (reshape_to sh dx).

(** The pair of running statistics stored on an instance. *)
Definition running (st : state) : option (Tensor R) * option (Tensor R) :=
  (running_mean st, running_var st).

(** Per-feature mean and variance of a batch, as the training branch
    computes them. *)
Definition batch_stats (x : Tensor R) : res (Tensor R * Tensor R) :=
  rbind (mean_axis0 x) (fun mu =>
  rbind (tsub x mu) (fun xc0 =>
  rbind (tmul xc0 xc0) (fun sq =>
  rbind (mean_axis0 sq) (fun var => Ok (mu, var))))).

(** The running statistics a training update starts from: the stored
    ones, or the zero vectors that lazy initialisation has just put
    in their place. *)
Definition previous_running (st : state) (x : Tensor R)
  : option (Tensor R * Tensor R) :=
  match running_mean st with
  | Some rm => pair rm <$> running_var st
  | None =>
      match shape x with
      | [_; d] => Some (zeros [d], zeros [d])
      | _ => None
      end
  end.

End BatchNorm.
End BatchNorm.
Arguments BatchNorm.state R : clear implicits.

(** ** Batch statistics in the words of the specification

    Written independently of the array operations above: the mean and
    variance of one feature of a batch, and the exponential moving
    average of one entry.  The theorems on the running statistics
    compare what [BatchNorm.forward] stores with these. *)

Module Stat.
Section Stat.
Context {R : Type} `{Scalar R}.

(** Sum of the values, taken in order from the first one; 0 when there
    is none. *)
Definition total (l : list R) : R :=
  match l with
  | [] => s0
  | a :: l' => foldl sadd a l'
  end.

(** Arithmetic mean: the total divided by the number of values. *)
Definition mean (l : list R) : R :=
  sdiv (total l) (of_Z (Z.of_nat (length l))).

(** Variance: the mean of the squared deviations from the mean. *)
Definition variance (l : list R) : R :=
  mean (map (fun a => smul (ssub a (mean l)) (ssub a (mean l))) l).

(** The values of feature [j] in a batch of [n] rows of [d] features,
    stored row by row. *)
Definition feature (x : Tensor R) (n d j : nat) : list R :=
  omap (fun i => data x !! (i * d + j)) (seq 0 n).

(** [momentum * old + (1 - momentum) * stat] on one entry. *)
Definition ema (m old stat : R) : R :=
  sadd (smul m old) (smul (ssub s1 m) stat).

End Stat.
End Stat.

(** ** Max pooling (layer.py, class Pooling) *)

(** Output resolution of a sliding window:
    [1 + floor((h + 2 pad - f) / stride)]. *)
Definition out_size (h pad f stride : Z) : Z :=
  (1 + (h + 2 * pad - f) / stride)%Z.

Module Pooling.
Section Pooling.
Context {R : Type} `{Scalar R}.

(** Modelled from the spec: [im2col] of utility/trick.py, which is not
    among the sources.  The input is zero-padded spatially; every
    window becomes one row, rows ordered by (batch, out row, out
    column), each row being the window flattened over (channel,
    kernel row, kernel column); the result has shape
    [(N * outH * outW, C * filterH * filterW)].  Non-positive stride or
    filter size, negative padding, and a filter larger than the
    padded input are refused. *)
Definition im2col (x : Tensor R) (fh fw stride pad : Z) : res (Tensor R) :=
  match shape x with
  | [n; c; h; w] =>
      if ((stride <=? 0) || (fh <=? 0) || (fw <=? 0) || (pad <? 0))%Z
      then Raise ValueError
      else if ((Z.of_nat h + 2 * pad <? fh) || (Z.of_nat w + 2 * pad <? fw))%Z
      then Raise ValueError
      else
        let oh := Z.to_nat (out_size (Z.of_nat h) pad fh stride) in
        let ow := Z.to_nat (out_size (Z.of_nat w) pad fw stride) in
        let pixel (i ci : nat) (iy ix : Z) : R :=
          if ((0 <=? iy) && (iy <? Z.of_nat h) && (0 <=? ix) && (ix <? Z.of_nat w))%Z
          then default s0 (data x !! ravel [n; c; h; w] [i; ci; Z.to_nat iy; Z.to_nat ix])
          else s0 in
        Ok (mkT [n * oh * ow; c * Z.to_nat fh * Z.to_nat fw]
              (i ← seq 0 n; oy ← seq 0 oh; ox ← seq 0 ow;
               ci ← seq 0 c; fy ← seq 0 (Z.to_nat fh); fx ← seq 0 (Z.to_nat fw);
               [pixel i ci (Z.of_nat oy * stride + Z.of_nat fy - pad)%Z
                           (Z.of_nat ox * stride + Z.of_nat fx - pad)%Z]))
  | _ => Raise ValueError
  end.

Record state : Type := mk {
  pool_h : Z;
  pool_w : Z;
  stride : Z;
  pad : Z;
  x : option (Tensor R);
  arg_max : option (Tensor nat);
}.

(** [__init__(self, pool_h, pool_w, stride=1, pad=0)] *)
Definition init (ph pw st pd : Z) : state := mk ph pw st pd None None.

Definition set_x v (s : state) :=
  mk (pool_h s) (pool_w s) (stride s) (pad s) v (arg_max s).
Definition set_arg_max v (s : state) :=
  mk (pool_h s) (pool_w s) (stride s) (pad s) (x s) v.

(** [int(1 + (h - p) / stride)]: a true division truncated towards
    zero.  [1 + (h - p) / stride] is the fraction
    [(stride + h - p) / stride]; on integers below 2^53 the floating
    point computation truncates to the same integer. *)
Definition int_out (h p st : Z) : res Z :=
  if (st =? 0)%Z then Raise ZeroDivisionError
  else Ok (Z.quot (st + (h - p)) st).

Open Scope meth_scope.

Definition forward (x0 : Tensor R) : M state (Tensor R) :=
  s <- get ;;
  nchw <- lift (unpack4 (shape x0)) ;;
  let '(n, c, h, w) := nchw in
  out_h <- lift (int_out (Z.of_nat h) (pool_h s) (stride s)) ;;
  out_w <- lift (int_out (Z.of_nat w) (pool_w s) (stride s)) ;;
  col <- lift (im2col x0 (pool_h s) (pool_w s) (stride s) (pad s)) ;;
  col <- lift (reshape [(-1)%Z; (pool_h s * pool_w s)%Z] col) ;;
  am <- lift (argmax_axis1 col) ;;
  out <- lift (max_axis1 col) ;;
  out <- lift (reshape [Z.of_nat n; out_h; out_w; Z.of_nat c] out) ;;
  out <- lift (transpose [0; 3; 1; 2] out) ;;
  modify (set_x (Some x0)) ;;;
  modify (set_arg_max (Some am)) ;;;
  ret out.

End Pooling.
End Pooling.
Arguments Pooling.state R : clear implicits.

(** ** Convolution (layer.py, class Convolution) *)

Module Convolution.
Section Convolution.
Context {R : Type} `{Scalar R}.

(** [col2im] of utility/trick.py is not among the sources; [backward]
    takes it as a parameter: column matrix, input shape, filter height
    and width, stride, pad. *)
Variable col2im : Tensor R -> list nat -> Z -> Z -> Z -> Z -> res (Tensor R).

Record state : Type := mk {
  W : Tensor R;
  b : Tensor R;
  stride : Z;
  pad : Z;
  x : option (Tensor R);
  col : option (Tensor R);
  col_W : option (Tensor R);
  dW : option (Tensor R);
  db : option (Tensor R);
}.

(** [__init__(self, W, b, stride=1, pad=0)] *)
Definition init (W0 b0 : Tensor R) (st pd : Z) : state :=
  mk W0 b0 st pd None None None None None.

Definition set_x v (s : state) :=
  mk (W s) (b s) (stride s) (pad s) v (col s) (col_W s) (dW s) (db s).
Definition set_col v (s : state) :=
  mk (W s) (b s) (stride s) (pad s) (x s) v (col_W s) (dW s) (db s).
Definition set_col_W v (s : state) :=
  mk (W s) (b s) (stride s) (pad s) (x s) (col s) v (dW s) (db s).
Definition set_dW v (s : state) :=
  mk (W s) (b s) (stride s) (pad s) (x s) (col s) (col_W s) v (db s).
Definition set_db v (s : state) :=
  mk (W s) (b s) (stride s) (pad s) (x s) (col s) (col_W s) (dW s) v.

(** [1 + int((h + 2 * pad - f) / stride)]: a true division truncated
    towards zero. *)
Definition conv_out (h pd f st : Z) : res Z :=
  if (st =? 0)%Z then Raise ZeroDivisionError
  else Ok (1 + Z.quot (h + 2 * pd - f) st)%Z.

Open Scope meth_scope.

Definition forward (x0 : Tensor R) : M state (Tensor R) :=
  s <- get ;;
  wdims <- lift (unpack4 (shape (W s))) ;;
  let '(fn, _, fh, fw) := wdims in
  nchw <- lift (unpack4 (shape x0)) ;;
  let '(n, _, h, w) := nchw in
  out_h <- lift (conv_out (Z.of_nat h) (pad s) (Z.of_nat fh) (stride s)) ;;
  out_w <- lift (conv_out (Z.of_nat w) (pad s) (Z.of_nat fw) (stride s)) ;;
  col0 <- lift (Pooling.im2col x0 (Z.of_nat fh) (Z.of_nat fw) (stride s) (pad s)) ;;
  w2 <- lift (reshape [Z.of_nat fn; (-1)%Z] (W s)) ;;
  col_W0 <- lift (transposeT w2) ;;
  cw <- lift (dot col0 col_W0) ;;
  out <- lift (tadd cw (b s)) ;;
  out <- lift (reshape [Z.of_nat n; out_h; out_w; (-1)%Z] out) ;;
  out <- lift (transpose [0; 3; 1; 2] out) ;;
  modify (set_x (Some x0)) ;;;
  modify (set_col (Some col0)) ;;;
  modify (set_col_W (Some col_W0)) ;;;
  ret out.

Definition backward (dout : Tensor R) : M state (Tensor R) :=
  s <- get ;;
  wdims <- lift (unpack4 (shape (W s))) ;;
  let '(fn, c, fh, fw) := wdims in
  dout <- lift (transpose [0; 2; 3; 1] dout) ;;
  dout <- lift (reshape [(-1)%Z; Z.of_nat fn] dout) ;;
  db0 <- lift (sum_axis0 dout) ;;
  modify (set_db (Some db0)) ;;;
  col0 <- lift (from_attr AttributeError (col s)) ;;
  colT <- lift (transposeT col0) ;;
  dW0 <- lift (dot colT dout) ;;
  modify (set_dW (Some dW0)) ;;;
  dW1 <- lift (transpose [1; 0] dW0) ;;
  dW2 <- lift (reshape [Z.of_nat fn; Z.of_nat c; Z.of_nat fh; Z.of_nat fw] dW1) ;;
  modify (set_dW (Some dW2)) ;;;
  col_W0 <- lift (from_attr AttributeError (col_W s)) ;;
  col_WT <- lift (transposeT col_W0) ;;
  dcol <- lift (dot dout col_WT) ;;
  x0 <- lift (from_attr AttributeError (x s)) ;;
  lift (col2im dcol (shape x0) (Z.of_nat fh) (Z.of_nat fw) (stride s) (pad s)).

End Convolution.
End Convolution.
Arguments Convolution.state R : clear implicits.

(** ** Concrete arrays over the rationals *)

(** An array of integers-as-rationals, e.g. [qt [1; 2] [1; 2]] for
    [np.array([[1, 2]])]. *)
Definition qt (s : list nat) (l : list Z) : Tensor Q := mkT s (map inject_Z l).

(** A stand-in for [np.sqrt] on rationals: the square root rounded down
    to six decimals. *)
Definition Qsqrt (q : Q) : Q :=
  Qmake (Z.sqrt (Qnum q * Zpos (Qden q) * 10 ^ 12)) (Qden q * 10 ^ 6).

(** ** Concrete instances *)

Module Ex.
(** A BatchNorm layer for one feature, momentum 0.9, without and with
    running statistics. *)
Definition bn_fresh : BatchNorm.state Q :=
  BatchNorm.init (qt [1] [1]%Z) (qt [1] [0]%Z) (9 # 10)%Q None None.
Definition bn_resumed : BatchNorm.state Q :=
  BatchNorm.init (qt [1] [1]%Z) (qt [1] [0]%Z) (9 # 10)%Q
    (Some (qt [1] [10]%Z)) (Some (qt [1] [2]%Z)).

(** A batch of two images of one pixel, and a batch of two rows. *)
Definition images : Tensor Q := qt [2; 1; 1; 1] [1; 3]%Z.
Definition rows : Tensor Q := qt [2; 1] [1; 3]%Z.

(** Uniform samples 0.9, 0.1, 0.1, ... *)
Definition samples (i : nat) : Q := if i =? 0 then (9 # 10)%Q else (1 # 10)%Q.

(** Softmax outputs for two rows of three classes, with a one-hot
    target and with class indices (the second one counted from the
    end). *)
Definition probs : Tensor Q :=
  mkT [2; 3] [(1 # 2)%Q; (1 # 4)%Q; (1 # 4)%Q; (1 # 10)%Q; (2 # 10)%Q; (7 # 10)%Q].
Definition loss_state (t : ndarray Q) : SoftmaxWithLoss.state Q :=
  SoftmaxWithLoss.mk None (Some probs) (Some t).

(** A store holding an input at reference 1 and a gradient at 2. *)
Definition store : gmap loc (Tensor Q) :=
  <[1%positive := qt [3] [-1; 0; 2]%Z]> (<[2%positive := qt [3] [5; 6; 7]%Z]> ∅).
End Ex.

(** A stand-in for [np.exp] on rationals: its Taylor polynomial of
    degree 2. *)
Definition Qexp (q : Q) : Q := (1 + q + q * q / 2)%Q.

Module Cases.
(** An affine layer with the 2x2 identity as W and a zero bias. *)
Definition affine : Affine.state Q :=
  Affine.init (qt [2; 2] [1; 0; 0; 1]%Z) (qt [2] [0; 0]%Z).

(** The store of [Ex.store] with a two-element array at reference 3. *)
Definition store3 : gmap loc (Tensor Q) :=
  <[3%positive := qt [2] [1; 1]%Z]> Ex.store.

(** Class indices with 3 out of range for three classes. *)
Definition bad_classes : ndarray Q := IArr (mkT [2] [0; 3]%Z).

(** Softmax outputs for two rows of a single class, with class
    indices. *)
Definition single_class : SoftmaxWithLoss.state Q :=
  SoftmaxWithLoss.mk None (Some (qt [2; 1] [1; 1]%Z)) (Some (IArr (mkT [2] [0; 0]%Z))).

(** A BatchNorm layer built with a running mean and no running
    variance. *)
Definition bn_half : BatchNorm.state Q :=
  BatchNorm.init (qt [1] [1]%Z) (qt [1] [0]%Z) (9 # 10)%Q (Some (qt [1] [10]%Z)) None.

(** A BatchNorm layer built with a running variance and no running
    mean, and one without running statistics whose gamma is 2 and beta
    is 1. *)
Definition bn_var_only : BatchNorm.state Q :=
  BatchNorm.init (qt [1] [1]%Z) (qt [1] [0]%Z) (9 # 10)%Q None (Some (qt [1] [2]%Z)).
Definition bn_scaled : BatchNorm.state Q :=
  BatchNorm.init (qt [1] [2]%Z) (qt [1] [1]%Z) (9 # 10)%Q None None.

(** One 2x2 kernel over one channel, stride 1, pad 1; a kernel over two
    channels; a 2x2 image with one channel. *)
Definition conv : Convolution.state Q :=
  Convolution.init (qt [1; 1; 2; 2] [1; 0; 0; 1]%Z) (qt [1] [0]%Z) 1 1.
Definition conv2 : Convolution.state Q :=
  Convolution.init (qt [1; 2; 2; 2] [1; 0; 0; 1; 1; 0; 0; 1]%Z) (qt [1] [0]%Z) 1 1.
Definition image : Tensor Q := qt [1; 1; 2; 2] [1; 2; 3; 4]%Z.

(** A stand-in for [col2im] that hands the column matrix back. *)
Definition col2im_id (dcol : Tensor Q) (_ : list nat) (_ _ _ _ : Z) : res (Tensor Q) :=
  Ok dcol.

(** 2x2 max pooling with stride 2 and no padding, and a 2x4 image with
    two channels. *)
Definition pool : Pooling.state Q := Pooling.init 2 2 2 0.
Definition image24 : Tensor Q :=
  qt [1; 2; 2; 4] [1; 2; 3; 4; 5; 6; 7; 8; 9; 10; 11; 12; 13; 14; 15; 16]%Z.
End Cases.

(** * Properties *)

(** ** Running a method *)

Lemma bind_Ok {S A B} (m : M S A) (k : A -> M S B) s b s' :
  bind m k s = (Ok b, s') ->
  exists a s1, m s = (Ok a, s1) /\ k a s1 = (Ok b, s').
Proof.
  unfold bind. destruct (m s) as [[a|e] s1]; intros Hk; [eauto | discriminate].
Qed.

Lemma lift_Ok {S A} (r : res A) (s s' : S) a :
  lift r s = (Ok a, s') -> r = Ok a /\ s' = s.
Proof. unfold lift. intros [= -> ->]. auto. Qed.

Lemma bind_lift {S A B} (r : res A) (k : A -> M S B) s :
  bind (lift r) k s = match r with Ok a => k a s | Raise e => (Raise e, s) end.
Proof. unfold bind, lift. destruct r; reflexivity. Qed.

Lemma bind_modify {S B} (f : S -> S) (k : unit -> M S B) s :
  bind (modify f) k s = k tt (f s).
Proof. reflexivity. Qed.

Lemma bind_get {S B} (k : S -> M S B) s : bind get k s = k s s.
Proof. reflexivity. Qed.

Lemma bind_ret {S A B} (a : A) (k : A -> M S B) s : bind (ret a) k s = k a s.
Proof. reflexivity. Qed.

Lemma bind_assoc {S A B C} (m : M S A) (k1 : A -> M S B) (k2 : B -> M S C) s :
  bind (bind m k1) k2 s = bind m (fun a => bind (k1 a) k2) s.
Proof. unfold bind. destruct (m s) as [[a|e] s1]; reflexivity. Qed.

Lemma bind_run {S A B} (m : M S A) (k : A -> M S B) s a s1 :
  m s = (Ok a, s1) -> bind m k s = k a s1.
Proof. unfold bind. by intros ->. Qed.

Lemma rmap_Ok {X Y} (g : X -> Y) r y :
  rmap g r = Ok y -> exists x, r = Ok x /\ y = g x.
Proof. destruct r; simpl; intros [= <-]; eauto. Qed.

(** Inversion of a successful run, one statement at a time. *)
Ltac step H :=
  first
    [ rewrite bind_modify in H
    | rewrite bind_get in H
    | rewrite bind_ret in H
    | rewrite bind_lift in H;
      match type of H with
      | match ?r with _ => _ end = _ =>
          let E := fresh "E" in destruct r eqn:E; [|discriminate H]
      end ].

(** ** Frames *)

Section Preserves.
Context {S : Type} (P : S -> Prop).

Lemma preserves_ret {A} (a : A) : preserves P (ret a).
Proof. by intros s. Qed.

Lemma preserves_lift {A} (r : res A) : preserves P (lift r).
Proof. by intros s. Qed.

Lemma preserves_get : preserves P get.
Proof. by intros s. Qed.

Lemma preserves_modify (f : S -> S) :
  (forall s, P s -> P (f s)) -> preserves P (modify f).
Proof. intros Hf s. apply Hf. Qed.

Lemma preserves_bind {A B} (m : M S A) (k : A -> M S B) :
  preserves P m -> (forall a, preserves P (k a)) -> preserves P (bind m k).
Proof.
  intros Hm Hk s Hs. unfold bind. specialize (Hm s Hs).
  destruct (m s) as [[a|e] s1]; simpl in *; [by apply Hk | done].
Qed.

Lemma preserves_get_bind {B} (k : S -> M S B) :
  (forall s, P s -> P (k s s).2) -> preserves P (bind get k).
Proof. intros Hk s Hs. by apply Hk. Qed.
End Preserves.

Ltac frame := repeat first
  [ apply preserves_bind; [|intros ?]
  | apply preserves_lift | apply preserves_get | apply preserves_ret
  | apply preserves_modify; intros ? ?; assumption ].

(** ** Arrays: blocks and broadcasting *)

Section Chunks.
Context {A : Type}.
Implicit Types l : list A.

Lemma chunks_length k n l : length (chunks k n l) = n.
Proof. revert l. induction n as [|n IH]; intros l; simpl; [done | by rewrite IH]. Qed.

Lemma chunks_concat k n l : length l = n * k -> concat (chunks k n l) = l.
Proof.
  revert l. induction n as [|n IH]; intros l Hl; simpl in *.
  - by destruct l.
  - rewrite IH; [apply take_drop | rewrite length_drop; lia].
Qed.

Lemma chunks_Forall_length k n l :
  length l = n * k -> Forall (fun c => length c = k) (chunks k n l).
Proof.
  revert l. induction n as [|n IH]; intros l Hl; simpl in *; constructor.
  - rewrite length_take. lia.
  - apply IH. rewrite length_drop. lia.
Qed.

Lemma chunks_one k l : length l = k -> chunks k 1 l = [l].
Proof. intros Hl. simpl. rewrite take_ge by lia. done. Qed.
End Chunks.

Lemma concat_length_uniform {A} k (ls : list (list A)) :
  Forall (fun c => length c = k) ls -> length (concat ls) = length ls * k.
Proof.
  induction 1 as [|c ls Hc _ IH]; simpl; [done|].
  rewrite length_app, IH, Hc. lia.
Qed.

Section Broadcast.
Context {A B C : Type} (f : A -> B -> C).

Lemma concat_zip_with_chunks (g : list A -> list B -> list C) k n :
  (forall a b, length a = k -> length b = k -> g a b = zip_with f a b) ->
  forall da db, length da = n * k -> length db = n * k ->
  concat (zip_with g (chunks k n da) (chunks k n db)) = zip_with f da db.
Proof.
  intros Hg. induction n as [|n IH]; intros da db Ha Hb; simpl in *.
  - destruct da; [done | discriminate].
  - rewrite Hg by (rewrite length_take; lia).
    rewrite IH by (rewrite length_drop; lia).
    rewrite <- zip_with_app by (rewrite !length_take; lia).
    by rewrite !take_drop.
Qed.

Lemma bdata_same s : forall da db,
  length da = numel s -> length db = numel s ->
  bdata f s s da db = zip_with f da db.
Proof.
  induction s as [|n s IH]; intros da db Ha Hb; simpl in *.
  - destruct da as [|a [|? ?]], db as [|b [|? ?]]; try discriminate; done.
  - rewrite Nat.eqb_refl. apply concat_zip_with_chunks; auto.
Qed.

Lemma bshape_same s : bshape s s = Ok s.
Proof. induction s as [|n s IH]; simpl; [done|]. by rewrite Nat.eqb_refl, IH. Qed.

Lemma bshape_ones_r s : bshape s (replicate (length s) 1) = Ok s.
Proof.
  induction s as [|n s IH]; simpl; [done|]. rewrite IH. simpl.
  destruct (n =? 1) eqn:E; [apply Nat.eqb_eq in E; by subst|done].
Qed.

Lemma bshape_ones_l s : bshape (replicate (length s) 1) s = Ok s.
Proof.
  induction s as [|n s IH]; simpl; [done|]. rewrite IH. simpl.
  destruct n as [|[|n]]; done.
Qed.

Lemma numel_ones n : numel (replicate n 1) = 1.
Proof. induction n; simpl; lia. Qed.

Lemma bdata_scalar_r s b : forall da,
  length da = numel s ->
  bdata f s (replicate (length s) 1) da [b] = map (fun a => f a b) da.
Proof.
  induction s as [|n s IH]; intros da Ha; simpl in *.
  - destruct da as [|a [|? ?]]; try discriminate; done.
  - rewrite numel_ones. simpl.
    destruct (n =? 1) eqn:E.
    + apply Nat.eqb_eq in E. subst n. rewrite chunks_one by lia. simpl.
      rewrite IH by lia. by rewrite app_nil_r.
    + rewrite <- (chunks_concat (numel s) n da) at 2 by lia.
      rewrite concat_map. f_equal. apply map_ext_Forall.
      eapply Forall_impl; [apply chunks_Forall_length; lia|].
      intros c Hc. by apply IH.
Qed.

Lemma bdata_scalar_l s a : forall db,
  length db = numel s ->
  bdata f (replicate (length s) 1) s [a] db = map (f a) db.
Proof.
  induction s as [|n s IH]; intros db Hb.
  - simpl in *. destruct db as [|b [|? ?]]; try discriminate; done.
  - cbn [length replicate bdata numel foldr] in *.
    fold (numel s) in *. fold (numel (replicate (length s) 1)).
    rewrite numel_ones.
    destruct (1 =? n) eqn:E.
    + apply Nat.eqb_eq in E. subst n. rewrite !chunks_one by (simpl; lia).
      simpl. rewrite IH by lia. by rewrite app_nil_r.
    + rewrite Nat.eqb_refl.
      rewrite <- (chunks_concat (numel s) n db) at 2 by lia.
      rewrite concat_map. f_equal. apply map_ext_Forall.
      eapply Forall_impl; [apply chunks_Forall_length; lia|].
      intros c Hc. by apply IH.
Qed.

Lemma broadcast2_scalar_r (a : Tensor A) (b : B) :
  wf a -> broadcast2 f a (scalar b) = Ok (tmap (fun x => f x b) a).
Proof.
  intros Ha. unfold broadcast2, ndim, scalar, pad_left, tmap. simpl.
  rewrite Nat.max_0_r, Nat.sub_diag, Nat.sub_0_r, app_nil_r. simpl.
  rewrite bshape_ones_r. simpl. by rewrite bdata_scalar_r.
Qed.

Lemma broadcast2_scalar_l (a : A) (b : Tensor B) :
  wf b -> broadcast2 f (scalar a) b = Ok (tmap (f a) b).
Proof.
  intros Hb. unfold broadcast2, ndim, scalar, pad_left, tmap. simpl.
  rewrite Nat.sub_diag, Nat.sub_0_r, app_nil_r. simpl.
  rewrite bshape_ones_l. simpl. by rewrite bdata_scalar_l.
Qed.

Lemma broadcast2_same (a : Tensor A) (b : Tensor B) :
  shape a = shape b -> wf a -> wf b ->
  broadcast2 f a b = Ok (mkT (shape a) (zip_with f (data a) (data b))).
Proof.
  intros Hs Ha Hb. unfold broadcast2, ndim, pad_left, wf, size in *.
  rewrite <- Hs in *. rewrite Nat.max_id, Nat.sub_diag. simpl.
  rewrite bshape_same. simpl. by rewrite bdata_same.
Qed.
End Broadcast.

Section BroadcastShapes.
Context {A B C : Type} (f : A -> B -> C).

Lemma bdata_length sa : forall sb s da db,
  bshape sa sb = Ok s -> length da = numel sa -> length db = numel sb ->
  length (bdata f sa sb da db) = numel s.
Proof.
  induction sa as [|n sa IH]; intros [|m sb] s da db Hs Ha Hb;
    try discriminate.
  - simpl in *. injection Hs as <-.
    destruct da as [|a [|? ?]], db as [|b [|? ?]]; try discriminate; done.
  - cbn [bshape bdata numel foldr] in *. fold (numel sa) (numel sb) in *.
    assert (Hrec : forall s' n' (ls : list (list C)),
               bshape sa sb = Ok s' -> length ls = n' ->
               Forall (fun c => length c = numel s') ls ->
               length (concat ls) = numel (n' :: s')).
    { intros s' n' ls _ <- Hall. by rewrite (concat_length_uniform _ _ Hall). }
    destruct (n =? m) eqn:E; [apply Nat.eqb_eq in E; subst m|].
    { apply rmap_Ok in Hs as (s' & Hs' & ->).
      apply Hrec; [done| |].
      - rewrite length_zip_with, !chunks_length. lia.
      - pose proof (chunks_Forall_length (numel sa) n da ltac:(lia)) as Fa.
        pose proof (chunks_Forall_length (numel sb) n db ltac:(lia)) as Fb.
        revert Fa Fb. generalize (chunks (numel sa) n da) (chunks (numel sb) n db).
        intros la lb Fa. revert lb.
        induction Fa as [|ca la Hca _ IHla]; intros lb Fb; [constructor|].
        destruct Fb as [|cb lb Hcb Fb]; constructor; eauto. }
    destruct (n =? 1) eqn:E1; [apply Nat.eqb_eq in E1; subst n|].
    { apply rmap_Ok in Hs as (s' & Hs' & ->).
      apply Hrec; [done|by rewrite length_map, chunks_length|].
      apply Forall_map.
      eapply Forall_impl; [apply chunks_Forall_length; lia|].
      intros c Hc. simpl in Hc. apply IH; [done|lia|done]. }
    destruct (m =? 1) eqn:E2; [apply Nat.eqb_eq in E2; subst m|discriminate].
    apply rmap_Ok in Hs as (s' & Hs' & ->).
    apply Hrec; [done|by rewrite length_map, chunks_length|].
    apply Forall_map.
    eapply Forall_impl; [apply chunks_Forall_length; lia|].
    intros c Hc. simpl in Hc. apply IH; [done|done|lia].
Qed.

Lemma length_pad_left r s : length s <= r -> length (pad_left r s) = r.
Proof. intros. unfold pad_left. rewrite length_app, length_replicate. lia. Qed.

Lemma numel_app s1 s2 : numel (s1 ++ s2) = numel s1 * numel s2.
Proof. induction s1 as [|n s1 IH]; simpl; [lia|]. fold (numel (s1 ++ s2)) (numel s1). rewrite IH. lia. Qed.

Lemma numel_pad_left r s : numel (pad_left r s) = numel s.
Proof. unfold pad_left. rewrite numel_app, numel_ones. lia. Qed.

(** Broadcasting well-formed arrays gives a well-formed array. *)
Lemma broadcast2_wf (a : Tensor A) (b : Tensor B) c :
  wf a -> wf b -> broadcast2 f a b = Ok c -> wf c.
Proof.
  unfold broadcast2, wf, size. intros Ha Hb Hc.
  apply rmap_Ok in Hc as (s & Hs & ->). simpl.
  eapply bdata_length; [done| |]; by rewrite numel_pad_left.
Qed.

Lemma bdata_cons n sa m sb (da : list A) (db : list B) :
  bdata f (n :: sa) (m :: sb) da db =
    if n =? m
    then concat (zip_with (bdata f sa sb) (chunks (numel sa) n da) (chunks (numel sb) m db))
    else if n =? 1
    then concat (map (fun b => bdata f sa sb da b) (chunks (numel sb) m db))
    else concat (map (fun a => bdata f sa sb a db) (chunks (numel sa) n da)).
Proof. reflexivity. Qed.

Lemma bshape_row n d : bshape [n; d] [1; d] = Ok [n; d].
Proof.
  simpl. rewrite Nat.eqb_refl. simpl.
  destruct (n =? 1) eqn:E; [apply Nat.eqb_eq in E; by subst|done].
Qed.

Lemma bshape_row_l n d : bshape [1; d] [n; d] = Ok [n; d].
Proof. simpl. rewrite Nat.eqb_refl. simpl. by destruct n as [|[|n]]. Qed.

Lemma broadcast2_rows (a : Tensor A) (b : Tensor B) n d :
  shape a = [n; d] -> shape b = [d] -> wf a -> wf b ->
  broadcast2 f a b =
    Ok (mkT [n; d]
          (concat (map (fun row => zip_with f row (data b)) (chunks d n (data a))))).
Proof.
  unfold wf, size. intros Sa Sb Ha Hb. unfold broadcast2, ndim.
  rewrite Sa, Sb in *. simpl in Ha, Hb.
  change (pad_left _ [n; d]) with [n; d]. change (pad_left _ [d]) with [1; d].
  rewrite bshape_row, bdata_cons. cbn [rmap rbind]. do 2 f_equal.
  change (numel [d]) with (d * 1). rewrite Nat.mul_1_r.
  destruct (n =? 1) eqn:E.
  - apply Nat.eqb_eq in E. subst n.
    rewrite !chunks_one by lia. cbn [zip_with map concat]. rewrite !app_nil_r.
    apply (bdata_same f [d]); simpl; lia.
  - f_equal. apply map_ext_Forall.
    eapply Forall_impl; [apply chunks_Forall_length; lia|].
    intros c Hc. simpl in Hc. apply (bdata_same f [d]); simpl; lia.
Qed.

Lemma broadcast2_rows_l (a : Tensor A) (b : Tensor B) n d :
  shape a = [d] -> shape b = [n; d] -> wf a -> wf b ->
  broadcast2 f a b =
    Ok (mkT [n; d]
          (concat (map (fun row => zip_with f (data a) row) (chunks d n (data b))))).
Proof.
  unfold wf, size. intros Sa Sb Ha Hb. unfold broadcast2, ndim.
  rewrite Sa, Sb in *. simpl in Ha, Hb.
  change (pad_left _ [n; d]) with [n; d]. change (pad_left _ [d]) with [1; d].
  rewrite bshape_row_l, bdata_cons. cbn [rmap rbind]. do 2 f_equal.
  change (numel [d]) with (d * 1). rewrite Nat.mul_1_r.
  destruct (1 =? n) eqn:E.
  - apply Nat.eqb_eq in E. subst n.
    rewrite !chunks_one by lia. cbn [zip_with map concat]. rewrite !app_nil_r.
    apply (bdata_same f [d]); simpl; lia.
  - rewrite Nat.eqb_refl. f_equal. apply map_ext_Forall.
    eapply Forall_impl; [apply chunks_Forall_length; lia|].
    intros c Hc. simpl in Hc. apply (bdata_same f [d]); simpl; lia.
Qed.
End BroadcastShapes.

(** ** Arrays: reshape *)

Lemma tensor_eta {A} (t : Tensor A) : mkT (shape t) (data t) = t.
Proof. by destruct t. Qed.

Lemma count_unknown_of_nat s : count_unknown (map Z.of_nat s) = 0.
Proof.
  unfold count_unknown. induction s as [|n s IH]; [done|].
  cbn [map]. rewrite filter_cons. case_decide; [lia | done].
Qed.

Lemma known_dims_of_nat s : known_dims (map Z.of_nat s) = Z.of_nat (numel s).
Proof.
  unfold known_dims. induction s as [|n s IH]; [done|].
  cbn [map]. rewrite filter_cons. case_decide; [|lia].
  cbn [foldr]. rewrite IH. simpl. lia.
Qed.

Lemma fix_unknown_id s : fix_unknown_dimension (map Z.of_nat s) (numel s) = Ok s.
Proof.
  unfold fix_unknown_dimension.
  rewrite count_unknown_of_nat, known_dims_of_nat, Z.eqb_refl. f_equal.
  induction s as [|n s IH]; [done|]. cbn [map]. by rewrite Nat2Z.id, IH.
Qed.

(** Reshaping an array to a shape of its own size only replaces the shape. *)
Lemma reshape_to_numel {A} s (t : Tensor A) :
  numel s = size t -> reshape_to s t = Ok (mkT s (data t)).
Proof. intros Hs. unfold reshape_to, reshape. by rewrite <- Hs, fix_unknown_id. Qed.

Lemma reshape_to_id {A} (t : Tensor A) : reshape_to (shape t) t = Ok t.
Proof. rewrite reshape_to_numel by done. by rewrite tensor_eta. Qed.

(** ** Arrays: well-formedness *)

Lemma wf_zeros `{Scalar R} s : wf (zeros s).
Proof. unfold wf, zeros, size. simpl. apply length_replicate. Qed.

Lemma wf_tmap {A B} (f : A -> B) t : wf t -> wf (tmap f t).
Proof. unfold wf, tmap, size. simpl. by rewrite length_map. Qed.

(** ** Arrays: a vector against the rows of a matrix *)

Section RowBroadcast.
Context {A B C : Type} (f : A -> B -> C).

Lemma broadcast2_rows_ok (a : Tensor A) (b : Tensor B) n d :
  shape a = [n; d] -> shape b = [d] -> wf a -> wf b ->
  exists c, broadcast2 f a b = Ok c /\ shape c = [n; d] /\ wf c.
Proof.
  intros Sa Sb Ha Hb. eexists. split; [by apply broadcast2_rows|].
  split; [done|]. eapply (broadcast2_wf f a b); [done..|by apply broadcast2_rows].
Qed.

Lemma broadcast2_rows_l_ok (a : Tensor A) (b : Tensor B) n d :
  shape a = [d] -> shape b = [n; d] -> wf a -> wf b ->
  exists c, broadcast2 f a b = Ok c /\ shape c = [n; d] /\ wf c.
Proof.
  intros Sa Sb Ha Hb. eexists. split; [by apply broadcast2_rows_l|].
  split; [done|]. eapply (broadcast2_wf f a b); [done..|by apply broadcast2_rows_l].
Qed.
End RowBroadcast.

(** ** Arrays: reading single entries *)

Section Blocks.
Context {A : Type}.

Lemma lookup_concat_uniform d (ls : list (list A)) :
  Forall (fun c => length c = d) ls ->
  forall i j, j < d -> concat ls !! (i * d + j) = ls !! i ≫= (.!! j).
Proof.
  induction 1 as [|c ls Hc _ IH]; intros i j Hj; [done|].
  destruct i as [|i]; simpl.
  - rewrite lookup_app_l by lia. done.
  - rewrite lookup_app_r by lia.
    replace (d + i * d + j - length c) with (i * d + j) by lia. by apply IH.
Qed.

Lemma lookup_chunks d : forall n (l : list A) i,
  i < n -> chunks d n l !! i = Some (take d (drop (i * d) l)).
Proof.
  induction n as [|n IH]; intros l i Hi; [lia|].
  destruct i as [|i]; simpl; [done|].
  rewrite IH by lia. by rewrite drop_drop.
Qed.

Lemma lookup_chunks_entry d n (l : list A) i j :
  i < n -> j < d -> chunks d n l !! i ≫= (.!! j) = l !! (i * d + j).
Proof.
  intros Hi Hj. rewrite lookup_chunks by done. simpl.
  by rewrite lookup_take_lt, lookup_drop.
Qed.

Lemma omap_lookup_chunks_from d j : j < d -> forall n (l : list A) k,
  omap (.!! j) (chunks d n (drop (k * d) l)) =
    omap (fun i => l !! (i * d + j)) (seq k n).
Proof.
  intros Hj. induction n as [|n IH]; intros l k; [done|].
  cbn [chunks seq]. rewrite drop_drop.
  replace (k * d + d) with (S k * d) by lia.
  change (omap ?f (?a :: ?r)) with (match f a with Some y => y :: omap f r | None => omap f r end).
  rewrite lookup_take_lt, lookup_drop, IH by done. done.
Qed.

Lemma omap_lookup_chunks d j n (l : list A) :
  j < d ->
  omap (.!! j) (chunks d n l) = omap (fun i => l !! (i * d + j)) (seq 0 n).
Proof. intros Hj. by rewrite <- (omap_lookup_chunks_from d j Hj n l 0). Qed.

(** Two lists read off position by position. *)
Lemma omap_seq_map {B} (f : nat -> option A) (g : nat -> option B) (h : A -> B) :
  forall n k,
  (forall i, k <= i < k + n -> exists a, f i = Some a /\ g i = Some (h a)) ->
  omap g (seq k n) = map h (omap f (seq k n)).
Proof.
  induction n as [|n IH]; intros k Hfg; [done|].
  cbn [seq].
  change (omap ?f (?a :: ?r)) with (match f a with Some y => y :: omap f r | None => omap f r end).
  destruct (Hfg k) as (a & -> & ->); [lia|].
  rewrite IH; [done|]. intros i Hi. apply Hfg. lia.
Qed.

Lemma length_omap_seq (f : nat -> option A) : forall n k,
  (forall i, k <= i < k + n -> is_Some (f i)) -> length (omap f (seq k n)) = n.
Proof.
  induction n as [|n IH]; intros k Hf; [done|].
  cbn [seq].
  change (omap ?f (?a :: ?r)) with (match f a with Some y => y :: omap f r | None => omap f r end).
  destruct (Hf k) as [a ->]; [lia|]. simpl. rewrite IH; [done|].
  intros i Hi. apply Hf. lia.
Qed.

Lemma wf_rows_index (a : Tensor A) n d i j :
  shape a = [n; d] -> wf a -> is_Some (data a !! (i * d + j)) -> j < d -> i < n.
Proof.
  intros Hs Hw Hl Hj. apply lookup_lt_is_Some in Hl.
  unfold wf, size in Hw. rewrite Hs in Hw. simpl in Hw. nia.
Qed.

End Blocks.

Section RowLookups.
Context {A B C : Type} (f : A -> B -> C).

Lemma broadcast2_rows_lookup (a : Tensor A) (b : Tensor B) n d c i j x y :
  shape a = [n; d] -> shape b = [d] -> wf a -> wf b ->
  broadcast2 f a b = Ok c -> j < d ->
  data a !! (i * d + j) = Some x -> data b !! j = Some y ->
  data c !! (i * d + j) = Some (f x y).
Proof.
  intros Ha Hb Wa Wb Hc Hj Hx Hy.
  rewrite (broadcast2_rows f a b n d Ha Hb Wa Wb) in Hc. injection Hc as <-.
  assert (Hi : i < n) by (by apply (wf_rows_index a n d i j Ha Wa); [rewrite Hx|]).
  cbn [data].
  unfold wf, size in Wa, Wb. rewrite Ha in Wa. rewrite Hb in Wb. simpl in Wa, Wb.
  rewrite (lookup_concat_uniform d).
  - rewrite list_lookup_fmap, lookup_chunks by done. simpl.
    rewrite lookup_zip_with, lookup_take_lt, lookup_drop, Hx by done. simpl.
    by rewrite Hy.
  - apply Forall_fmap. eapply Forall_impl; [apply chunks_Forall_length; lia|].
    intros row Hr. simpl in *. rewrite length_zip_with, Hr. lia.
  - done.
Qed.

Lemma broadcast2_rows_l_lookup (a : Tensor A) (b : Tensor B) n d c i j x y :
  shape a = [d] -> shape b = [n; d] -> wf a -> wf b ->
  broadcast2 f a b = Ok c -> j < d ->
  data a !! j = Some x -> data b !! (i * d + j) = Some y ->
  data c !! (i * d + j) = Some (f x y).
Proof.
  intros Ha Hb Wa Wb Hc Hj Hx Hy.
  rewrite (broadcast2_rows_l f a b n d Ha Hb Wa Wb) in Hc. injection Hc as <-.
  assert (Hi : i < n) by (by apply (wf_rows_index b n d i j Hb Wb); [rewrite Hy|]).
  cbn [data].
  unfold wf, size in Wa, Wb. rewrite Ha in Wa. rewrite Hb in Wb. simpl in Wa, Wb.
  rewrite (lookup_concat_uniform d).
  - rewrite list_lookup_fmap, lookup_chunks by done. simpl.
    rewrite lookup_zip_with, Hx. simpl.
    by rewrite lookup_take_lt, lookup_drop, Hy by done.
  - apply Forall_fmap. eapply Forall_impl; [apply chunks_Forall_length; lia|].
    intros row Hr. simpl in *. rewrite length_zip_with, Hr. lia.
  - done.
Qed.

End RowLookups.

Lemma zeros_lookup {R} `{Scalar R} d j :
  j < d -> data (zeros (R := R) [d]) !! j = Some s0.
Proof.
  intros Hj. unfold zeros. cbn [data]. rewrite lookup_replicate. split; [done|].
  simpl. lia.
Qed.


Lemma fix_unknown_single (d : Z) sz :
  (0 <= d)%Z -> d ≠ Z.of_nat sz -> fix_unknown_dimension [d] sz = Raise ValueError.
Proof.
  intros Hd Hne. unfold fix_unknown_dimension, count_unknown, known_dims.
  rewrite !filter_cons, !filter_nil.
  repeat case_decide; try lia. simpl.
  destruct (Z.eqb_spec (d * 1) (Z.of_nat sz)); [lia | done].
Qed.


(** [t.reshape(-1, k)] *)
Lemma reshape_infer_rows {A} (t : Tensor A) (k : Z) m :
  (0 < k)%Z -> size t = m * Z.to_nat k ->
  reshape [(-1)%Z; k] t = Ok (mkT [m; Z.to_nat k] (data t)).
Proof.
  intros Hk Hsz. unfold reshape, fix_unknown_dimension, count_unknown, known_dims.
  rewrite !filter_cons, !filter_nil. repeat case_decide; try lia.
  cbn [length foldr]. rewrite Hsz.
  destruct (Z.eqb_spec (k * 1) 0); [lia|].
  replace (Z.of_nat (m * Z.to_nat k)) with (Z.of_nat m * (k * 1))%Z by lia.
  rewrite Z.mod_mul by lia. cbn [Z.eqb rmap rbind map].
  rewrite Z.div_mul by lia.
  destruct (Z.ltb_spec k 0); [lia|]. cbn [Z.ltb Z.compare].
  by rewrite Nat2Z.id.
Qed.


(** ** Affine *)

(** C1: with W the 2x2 identity and b = [0, 0], forward([[1, 2]]) is
    [[1, 2]]; the following backward([[1, 1]]) returns dx = [[1, 1]] and
    leaves dW = [[1, 1], [2, 2]] and db = [1, 1] on the instance. *)
Theorem Affine_identity_example :
  let st0 := Affine.init (qt [2; 2] [1; 0; 0; 1]%Z) (qt [2] [0; 0]%Z) in
  let fwd := Affine.forward (qt [1; 2] [1; 2]%Z) st0 in
  let bwd := Affine.backward (qt [1; 2] [1; 1]%Z) fwd.2 in
  fwd.1 = Ok (qt [1; 2] [1; 2]%Z) /\
  bwd.1 = Ok (qt [1; 2] [1; 1]%Z) /\
  Affine.dW bwd.2 = Some (qt [2; 2] [1; 1; 2; 2]%Z) /\
  Affine.db bwd.2 = Some (qt [2] [1; 1]%Z).
Proof. vm_compute. repeat split; reflexivity. Qed.

(** ** ReLU *)

Section ReluSpec.
Context {R : Type} `{Scalar R}.
Import Relu.
Implicit Types (h : gmap loc (Tensor R)) (x dout : Tensor R).

Lemma is_prefix_refl {A} `{EqDecision A} (l : list A) : is_prefix l l = true.
Proof. unfold is_prefix. apply bool_decide_eq_true. by rewrite firstn_all. Qed.

Lemma mask_assign_le_zero x t :
  shape t = shape x -> length (data t) = length (data x) ->
  mask_assign (le_zero x) s0 t =
    Ok (mkT (shape t) (zip_with relu_grad (data x) (data t))).
Proof.
  intros Hs Hl. unfold mask_assign, le_zero, tmap, ndim. cbn [shape data].
  rewrite <- Hs, is_prefix_refl, drop_all. do 2 f_equal.
  apply list_eq. intros i.
  rewrite list_lookup_imap, lookup_zip_with, Nat.div_1_r, list_lookup_fmap.
  destruct (data t !! i) as [d|] eqn:Hd; simpl.
  - destruct (data x !! i) as [a|] eqn:Ha; simpl.
    + unfold relu_grad. by destruct (sleb a s0).
    + apply lookup_lt_Some in Hd. apply lookup_ge_None in Ha. lia.
  - by destruct (data x !! i).
Qed.

Lemma zip_with_relu_self (l : list R) : zip_with relu_grad l l = map relu l.
Proof. induction l as [|a l IH]; simpl; [done | by rewrite IH]. Qed.

Lemma load_run (l : loc) (w : world R) t :
  w.2 !! l = Some t -> load l w = (Ok t, w).
Proof. unfold load. by intros ->. Qed.

(** C8: forward returns a new array holding x with the entries <= 0
    replaced by 0 and leaves x as it was; the following backward
    overwrites the array it is given (every entry whose input was
    <= 0 becomes 0, the others stay) and returns that very array. *)
Theorem Relu_forward_backward (st : state) h (x_ref : loc) x :
  h !! x_ref = Some x ->
  exists out_ref st1 h1,
    forward x_ref (st, h) = (Ok out_ref, (st1, h1)) /\
    h !! out_ref = None /\
    h1 = <[out_ref := tmap relu x]> h /\
    h1 !! x_ref = Some x /\
    forall (d_ref : loc) dout,
      h1 !! d_ref = Some dout -> shape dout = shape x -> wf x -> wf dout ->
      backward d_ref (st1, h1) =
        (Ok d_ref,
         (st1, <[d_ref := mkT (shape dout) (zip_with relu_grad (data x) (data dout))]> h1)).
Proof.
  intros Hx. set (out := fresh (dom h)).
  assert (Hfresh : h !! out = None).
  { apply not_elem_of_dom. apply is_fresh. }
  assert (Hne : out <> x_ref) by congruence.
  exists out, (mk (Some (le_zero x))), (<[out := tmap relu x]> h).
  split; [|split; [done|split; [done|split]]].
  - unfold forward. erewrite bind_run by (by apply load_run).
    unfold set_mask. rewrite bind_modify. cbn [fst snd].
    erewrite bind_run by reflexivity.
    erewrite bind_run by (apply load_run; cbn [snd]; apply lookup_insert_eq).
    rewrite bind_lift, mask_assign_le_zero by done.
    unfold store. rewrite bind_modify, zip_with_relu_self. cbn [fst snd].
    unfold ret. fold out. by rewrite insert_insert_eq.
  - by rewrite lookup_insert_ne.
  - intros d_ref dout Hd Hs Hwx Hwd. unfold backward.
    rewrite bind_get. erewrite bind_run by (by apply load_run).
    cbn [fst mask]. rewrite bind_lift, mask_assign_le_zero.
    + unfold store. by rewrite bind_modify.
    + done.
    + unfold wf, size in *. by rewrite Hwx, Hwd, Hs.
Qed.
End ReluSpec.

Lemma Relu_forward_backward_witness :
  exists out_ref w1,
    Relu.forward 1%positive (Relu.init, Ex.store) = (Ok out_ref, w1) /\
    w1.2 !! 1%positive = Some (qt [3] [-1; 0; 2]%Z) /\
    w1.2 !! out_ref = Some (qt [3] [0; 0; 2]%Z) /\
    Relu.backward 2%positive w1 =
      (Ok 2%positive, (w1.1, <[2%positive := qt [3] [0; 0; 7]%Z]> w1.2)).
Proof.
  destruct (Relu_forward_backward Relu.init Ex.store 1%positive
              (qt [3] [-1; 0; 2]%Z) eq_refl)
    as (out & st1 & h1 & Hf & Hnone & -> & Hx & Hb).
  exists out, (st1, <[out := tmap Relu.relu (qt [3] [-1; 0; 2]%Z)]> Ex.store).
  split; [exact Hf|]. split; [exact Hx|]. split; [apply lookup_insert_eq|].
  apply (Hb 2%positive (qt [3] [5; 6; 7]%Z)); try reflexivity.
  rewrite lookup_insert_ne; [reflexivity|]. intros ->. discriminate Hnone.
Defined.

(** ** SoftmaxWithLoss *)


Lemma elem_of_zip_seq {A} (l : list A) i (a : A) :
  (i, a) ∈ zip_with pair (seq 0 (length l)) l <-> l !! i = Some a.
Proof.
  rewrite list_elem_of_lookup. split.
  - intros [n Hn]. rewrite lookup_zip_with in Hn.
    destruct (seq 0 (length l) !! n) as [m|] eqn:Hm; [|done]. simpl in Hn.
    apply lookup_seq in Hm as [-> _].
    destruct (l !! n) as [a'|] eqn:Ha; [|done]. simpl in Hn. by injection Hn as <- <-.
  - intros Hi. exists i. rewrite lookup_zip_with, Hi.
    rewrite lookup_seq_lt by (by eapply lookup_lt_Some). done.
Qed.

Section SoftmaxBackward.
Context {R : Type} `{Scalar R}.
Import SoftmaxWithLoss.

Lemma index_pairs_vector b idx :
  length idx = b ->
  index_pairs (R:=R) b (IArr (mkT [b] idx)) = Ok (zip_with pair (seq 0 b) idx).
Proof.
  intros Hl. unfold index_pairs.
  rewrite broadcast2_same; [done|done| |];
    unfold wf, size; simpl; rewrite ?length_seq; lia.
Qed.


End SoftmaxBackward.


(** C9: the value returned by SoftmaxWithLoss.backward, and the state
    it leaves, are the same for any two values of its dout argument. *)
Theorem SoftmaxWithLoss_backward_ignores_dout {R} `{Scalar R} :
  forall (st : SoftmaxWithLoss.state R) (d1 d2 : Tensor R),
    SoftmaxWithLoss.backward d1 st = SoftmaxWithLoss.backward d2 st.
Proof. intros st d1 d2. reflexivity. Qed.

(** ** Dropout *)

(** C7, as the code has it: backward multiplies dout by whatever mask
    the instance holds and raises a TypeError only while there is none;
    an inference-mode forward leaves the mask of an earlier training-mode
    forward in place, a training-mode forward replaces it. *)
Theorem Dropout_backward_uses_cached_mask {R} `{Scalar R} :
  forall (st : Dropout.state R) (dout : Tensor R),
    Dropout.backward dout st =
      (match Dropout.mask st with
       | None => Raise TypeError
       | Some m => tmul_mask dout m
       end, st) /\
    (forall u x, Dropout.mask (Dropout.forward u x false st).2 = Dropout.mask st) /\
    (forall u x, Dropout.mask (Dropout.forward u x true st).2 =
                 Some (Dropout.draw_mask u (Dropout.dropout_ratio st) (shape x))).
Proof.
  intros st dout. split; [|split].
  - unfold Dropout.backward. rewrite bind_get, bind_lift.
    destruct (Dropout.mask st); reflexivity.
  - intros u x. reflexivity.
  - intros u x. reflexivity.
Qed.

(** C7 fails: after a training-mode forward (mask [True, False]) and an
    inference-mode forward, backward([5, 7]) raises nothing and returns
    [5, 0], the gradient under the mask of the earlier call. *)
Lemma Dropout_backward_stale_mask :
  let st0 := Dropout.init (1 # 2)%Q in
  let st1 := (Dropout.forward Ex.samples (qt [2] [1; 1]%Z) true st0).2 in
  let st2 := (Dropout.forward Ex.samples (qt [2] [3; 4]%Z) false st1).2 in
  Dropout.mask st1 = Some (mkT [2] [true; false]) /\
  (Dropout.backward (qt [2] [5; 7]%Z) st2).1 = Ok (qt [2] [5; 0]%Z).
Proof. vm_compute. split; reflexivity. Qed.

(** ** Batch normalisation *)

Section BatchNormFrame.
Context {R : Type} `{Scalar R} (sqrt : R -> R).
Import BatchNorm.
Implicit Types (st : state R) (x : Tensor R).

Lemma normalize_infer_frame x v :
  preserves (fun s => running s = v) (normalize_infer sqrt x).
Proof. unfold normalize_infer. frame. Qed.

Lemma lazy_init_frame x rm rv :
  preserves (fun s => running s = (Some rm, rv)) (lazy_init x).
Proof.
  unfold lazy_init. apply preserves_get_bind. intros s Hs.
  pose proof Hs as Hs'. unfold running in Hs'. injection Hs' as Hm Hv.
  rewrite Hm. exact Hs.
Qed.

Lemma lazy_init_None x st n d :
  running_mean st = None -> shape x = [n; d] ->
  lazy_init x st =
    (Ok tt, set_running_var (Some (zeros [d]))
              (set_running_mean (Some (zeros [d])) st)).
Proof. intros Hm Hs. unfold lazy_init. by rewrite bind_get, Hm, Hs. Qed.

Lemma forward_tail_frame x2 v :
  preserves (fun s => running s = v)
    (bind (normalize_infer sqrt x2) (fun xn0 =>
     bind get (fun s => lift (scale_shift (gamma s) (beta s) xn0)))).
Proof. pose proof (normalize_infer_frame x2 v). frame. Qed.

Lemma forward_end_frame (out : Tensor R) (P : state R -> Prop) :
  preserves P (bind get (fun s =>
               bind (lift (from_attr TypeError (input_shape s))) (fun sh =>
               lift (reshape_to sh out)))).
Proof. frame. Qed.

(** C6, as the code has it: an inference-mode forward leaves the
    running mean and variance of an instance that has a running mean
    as they are, whether it returns or raises; on an instance without
    running mean it stores zero vectors, one entry per feature of the
    flattened input, and then leaves those as they are. *)
Theorem BatchNorm_inference_running_stats st x :
  (forall rm, running_mean st = Some rm ->
     running (forward sqrt x false st).2 = running st) /\
  (forall x2 n d, running_mean st = None ->
     flatten x = Ok x2 -> shape x2 = [n; d] ->
     running (forward sqrt x false st).2 = (Some (zeros [d]), Some (zeros [d]))).
Proof.
  split.
  - intros rm Hrm.
    assert (Hp : preserves (fun s => running s = (Some rm, running_var st))
                   (forward sqrt x false)).
    { unfold forward.
      apply preserves_bind; [frame | intros _].
      apply preserves_bind; [frame | intros x2].
      apply preserves_bind; [| intros out; apply forward_end_frame].
      unfold __forward.
      apply preserves_bind; [apply lazy_init_frame | intros _].
      apply forward_tail_frame. }
    rewrite (Hp st); unfold running; by rewrite ?Hrm.
  - intros x2 n d Hrm Hf Hs.
    unfold forward. rewrite bind_modify, bind_lift, Hf.
    unfold __forward. rewrite !bind_assoc.
    erewrite bind_run by (by apply (lazy_init_None _ _ n d)).
    cbv beta iota.
    apply (preserves_bind (fun s => running s = (Some (zeros [d]), Some (zeros [d])))
             _ _ (forward_tail_frame x2 _) (fun out => forward_end_frame out _)).
    reflexivity.
Qed.
End BatchNormFrame.

Lemma BatchNorm_inference_running_stats_witness :
  BatchNorm.running (BatchNorm.forward Qsqrt Ex.rows false Ex.bn_resumed).2 =
    BatchNorm.running Ex.bn_resumed /\
  BatchNorm.running (BatchNorm.forward Qsqrt Ex.rows false Ex.bn_fresh).2 =
    (Some (zeros [1]), Some (zeros [1])).
Proof.
  split.
  - exact (proj1 (BatchNorm_inference_running_stats Qsqrt Ex.bn_resumed Ex.rows)
             _ eq_refl).
  - exact (proj2 (BatchNorm_inference_running_stats Qsqrt Ex.bn_fresh Ex.rows)
             Ex.rows 2 1 eq_refl eq_refl eq_refl).
Defined.

(** C6 fails: the first inference-mode forward of an instance built
    without running statistics writes both of them. *)
Lemma BatchNorm_inference_initialises_running_stats :
  let st1 := (BatchNorm.forward Qsqrt Ex.rows false Ex.bn_fresh).2 in
  BatchNorm.running Ex.bn_fresh = (None, None) /\
  BatchNorm.running st1 = (Some (qt [1] [0]%Z), Some (qt [1] [0]%Z)) /\
  BatchNorm.running st1 <> BatchNorm.running Ex.bn_fresh.
Proof. vm_compute. repeat split; discriminate. Qed.

Section BatchNormTraining.
Context {R : Type} `{Scalar R} (sqrt : R -> R).
Import BatchNorm.
Implicit Types (st : state R) (x : Tensor R).

Lemma lazy_init_Ok x st st1 :
  lazy_init x st = (Ok tt, st1) ->
  momentum st1 = momentum st /\
  (running_mean st = None \/ running_var st1 = running_var st) /\
  exists rm, running_mean st1 = Some rm /\
             (pair rm <$> running_var st1) = previous_running st x.
Proof.
  unfold lazy_init, previous_running. intros Hl. step Hl.
  destruct (running_mean st) as [rm|] eqn:Hm.
  - injection Hl as <-. split; [done|]. split; [by right|]. by exists rm.
  - step Hl. destruct a as [n d]. cbv beta iota in Hl. step Hl.
    injection Hl as <-.
    destruct (shape x) as [|? [|? [|]]]; try discriminate.
    injection E as -> ->. simpl. split; [done|]. split; [by left|]. by eexists.
Qed.

Lemma normalize_train_Ok x st xn0 st' :
  normalize_train sqrt x st = (Ok xn0, st') ->
  exists mu var rm rv rm' rv',
    batch_stats x = Ok (mu, var) /\
    running_mean st = Some rm /\ running_var st = Some rv /\
    moving_average (momentum st) rm mu = Ok rm' /\
    moving_average (momentum st) rv var = Ok rv' /\
    running_mean st' = Some rm' /\ running_var st' = Some rv'.
Proof.
  unfold normalize_train, batch_stats. intros Hn.
  repeat step Hn. cbn [rbind]. rewrite E0. cbn [rbind]. rewrite E1. cbn [rbind].
  rewrite E2. cbn [rbind].
  simpl in E6, E7, E8, E9.
  destruct (running_mean st) as [rm|] eqn:Hm; [|discriminate].
  destruct (running_var st) as [rv|] eqn:Hv; [|discriminate].
  injection E6 as ->. injection E8 as ->. injection Hn as <- <-.
  simpl. eauto 15.
Qed.

End BatchNormTraining.

Section BatchNormFirstInference.
Context {R : Type} `{Scalar R} (sqrt : R -> R).
Import BatchNorm.
Implicit Types (st : state R) (x : Tensor R).

(** Subtracting zero leaves an element as it is (exact in floating
    point as well as for rationals). *)
Hypothesis ssub_zero : forall a : R, ssub a s0 = a.

Lemma zip_with_ssub_zero (row : list R) d :
  length row = d -> zip_with ssub row (replicate d s0) = row.
Proof.
  revert d. induction row as [|a row IH]; intros [|d] Hl; try discriminate; [done|].
  simpl. rewrite ssub_zero, IH; [done | by injection Hl].
Qed.

Lemma tsub_zeros x n d :
  shape x = [n; d] -> wf x -> tsub x (zeros [d]) = Ok x.
Proof.
  intros Hs Hw. unfold tsub.
  rewrite (broadcast2_rows ssub x (zeros [d]) n d Hs eq_refl Hw (wf_zeros _)).
  rewrite <- (tensor_eta x) at 2. rewrite Hs. do 2 f_equal.
  unfold wf, size in Hw. rewrite Hs in Hw. simpl in Hw.
  rewrite <- (chunks_concat d n (data x)) at 2 by lia. f_equal.
  rewrite <- (map_id (chunks d n (data x))) at 2.
  apply map_ext_Forall.
  eapply Forall_impl; [apply chunks_Forall_length; lia|].
  intros c Hc. simpl in *. rewrite Nat.mul_1_r. by apply zip_with_ssub_zero.
Qed.

Lemma sqrt_eps_vector (v : Tensor R) d :
  shape v = [d] -> wf v ->
  exists sd, sqrt_eps sqrt v = Ok sd /\ shape sd = [d] /\ wf sd.
Proof.
  intros Hs Hw. unfold sqrt_eps, tadd.
  rewrite broadcast2_scalar_r by done. simpl. eexists. split; [done|].
  split; [done|]. by do 2 apply wf_tmap.
Qed.

Lemma normalize_infer_zeros st x n d sd xn0 :
  running_mean st = Some (zeros [d]) -> running_var st = Some (zeros [d]) ->
  shape x = [n; d] -> wf x ->
  sqrt_eps sqrt (zeros [d]) = Ok sd -> tdiv x sd = Ok xn0 ->
  normalize_infer sqrt x st = (Ok xn0, st).
Proof.
  intros Hm Hv Hs Hw Hsd Hxn. unfold normalize_infer.
  rewrite bind_get, Hm, Hv. cbn [from_attr].
  rewrite bind_lift, bind_lift, (tsub_zeros x n d Hs Hw).
  rewrite bind_lift, bind_lift, Hsd. unfold lift. by rewrite Hxn.
Qed.

Lemma sqrt_eps_zeros_lookup d sd j :
  sqrt_eps sqrt (zeros [d]) = Ok sd -> j < d ->
  data sd !! j = Some (sqrt (sadd s0 (sdiv (of_Z 10) (of_Z 10000000)))).
Proof.
  intros Hsd Hj. unfold sqrt_eps, tadd in Hsd.
  rewrite broadcast2_scalar_r in Hsd by apply wf_zeros.
  injection Hsd as <-. cbn [tmap data].
  by rewrite !list_lookup_fmap, zeros_lookup.
Qed.

(** C10: the first forward of an instance built without running
    statistics, in inference mode on x of shape (N, D) with per-feature
    gamma and beta, does not raise: it stores zero vectors of length D
    as running mean and variance and returns an array of shape (N, D)
    whose entry (i, j) is gamma_j * (x_ij / sqrt(0 + 10e-7)) + beta_j. *)
Theorem BatchNorm_first_inference_forward st x n d :
  running_mean st = None ->
  shape x = [n; d] -> wf x ->
  shape (gamma st) = [d] -> wf (gamma st) ->
  shape (beta st) = [d] -> wf (beta st) ->
  exists out st',
    forward sqrt x false st = (Ok out, st') /\
    running_mean st' = Some (zeros [d]) /\
    running_var st' = Some (zeros [d]) /\
    shape out = [n; d] /\ wf out /\
    forall i j a g b,
      j < d -> data x !! (i * d + j) = Some a ->
      data (gamma st) !! j = Some g -> data (beta st) !! j = Some b ->
      data out !! (i * d + j) =
        Some (sadd (smul g (sdiv a (sqrt (sadd s0 (sdiv (of_Z 10) (of_Z 10000000)))))) b).
Proof.
  intros Hrm Hs Hw Hgs Hgw Hbs Hbw.
  destruct (sqrt_eps_vector (zeros [d]) d eq_refl (wf_zeros _)) as (sd & Hsd & Ssd & Wsd).
  destruct (broadcast2_rows_ok sdiv x sd n d Hs Ssd Hw Wsd) as (xn0 & Hxn & Sxn & Wxn).
  destruct (broadcast2_rows_l_ok smul (gamma st) xn0 n d Hgs Sxn Hgw Wxn)
    as (g & Hg & Sg & Wg).
  destruct (broadcast2_rows_ok sadd g (beta st) n d Sg Hbs Wg Hbw)
    as (out & Hout & Sout & Wout).
  assert (Hss : scale_shift (gamma st) (beta st) xn0 = Ok out).
  { unfold scale_shift, tmul, tadd. by rewrite Hg. }
  set (s0' := set_input_shape (Some (shape x)) st).
  set (s1 := set_running_var (Some (zeros [d]))
               (set_running_mean (Some (zeros [d])) s0')).
  assert (H2 : __forward sqrt x false s0' = (Ok out, s1)).
  { unfold __forward.
    erewrite bind_run by (by apply (lazy_init_None _ _ n d)).
    erewrite bind_run
      by (by apply (normalize_infer_zeros _ x n d sd xn0)).
    rewrite bind_get. unfold lift. by rewrite <- Hss. }
  exists out, s1. split; [|split; [|split; [|split; [|split]]]].
  - unfold forward. rewrite bind_modify, bind_lift.
    unfold flatten, ndim. rewrite Hs. cbn [length Nat.eqb].
    rewrite <- Hs. fold s0'. erewrite bind_run by exact H2.
    rewrite bind_get, bind_lift. cbn [from_attr input_shape s1 s0' set_running_var set_running_mean set_input_shape].
    unfold lift. rewrite Hs, <- Sout. by rewrite reshape_to_id.
  - reflexivity.
  - reflexivity.
  - exact Sout.
  - exact Wout.
  - intros i j a g0 b Hj Ha Hg0 Hb.
    pose proof (sqrt_eps_zeros_lookup d sd j Hsd Hj) as Lsd.
    pose proof (broadcast2_rows_lookup sdiv x sd n d xn0 i j _ _ Hs Ssd Hw Wsd Hxn Hj Ha Lsd)
      as Lxn.
    pose proof (broadcast2_rows_l_lookup smul (gamma st) xn0 n d g i j _ _
                  Hgs Sxn Hgw Wxn Hg Hj Hg0 Lxn) as Lg.
    exact (broadcast2_rows_lookup sadd g (beta st) n d out i j _ _ Sg Hbs Wg Hbw Hout Hj Lg Hb).
Qed.
End BatchNormFirstInference.

Lemma Q_ssub_zero : forall a : Q, ssub a s0 = a.
Proof.
  intros [n d]. cbn. unfold Qminus, Qplus. cbn.
  f_equal; [lia | apply Pos.mul_1_r].
Qed.

(** C3, where the code departs from it: on a non-empty gradient of rank
    4, backward asks for the one-dimensional shape (N - 1) and raises a
    ValueError, leaving the instance as the training forward left it; no
    dx is returned. *)
Theorem BatchNorm_backward_rank4_raises {R} `{Scalar R} (sqrt : R -> R)
    (st : BatchNorm.state R) (x dout : Tensor R) (n c h w : nat) :
  shape x = [n; c; h; w] -> shape dout = [n; c; h; w] -> 0 < n * c * h * w ->
  let st1 := (BatchNorm.forward sqrt x true st).2 in
  BatchNorm.backward dout st1 = (Raise ValueError, st1).
Proof.
  intros _ Hs Hpos. cbv zeta. generalize (BatchNorm.forward sqrt x true st).2.
  intros st1.
  assert (Hre : reshape [(Z.of_nat n - 1)%Z] dout = Raise ValueError).
  { unfold reshape, size. rewrite Hs, fix_unknown_single; [done | lia |].
    simpl. assert (1 <= c * (h * (w * 1))) by nia.
    assert (n <= n * (c * (h * (w * 1)))) by nia. lia. }
  unfold BatchNorm.backward. rewrite bind_lift.
  unfold BatchNorm.flatten_grad, ndim. rewrite Hs. cbn [length Nat.eqb unpack4 rbind].
  by rewrite Hre.
Qed.

Lemma BatchNorm_backward_rank4_raises_witness :
  let fwd := BatchNorm.forward Qsqrt Ex.images true Ex.bn_fresh in
  rmap shape fwd.1 = Ok [2; 1; 1; 1] /\
  rmap shape (BatchNorm.flatten Ex.images) = Ok [2; 1] /\
  BatchNorm.backward (qt [2; 1; 1; 1] [1; 1]%Z) fwd.2 = (Raise ValueError, fwd.2).
Proof.
  split; [vm_compute; reflexivity|]. split; [vm_compute; reflexivity|].
  apply (BatchNorm_backward_rank4_raises Qsqrt Ex.bn_fresh Ex.images _ 2 1 1 1);
    [reflexivity | reflexivity | simpl; lia].
Defined.

(** ** Max pooling *)

Lemma int_out_floor (h p st : Z) :
  (0 < st)%Z -> (p <= h)%Z ->
  Pooling.int_out h p st = Ok (out_size h 0 p st).
Proof.
  intros Hst Hp. unfold Pooling.int_out, out_size.
  destruct (Z.eqb_spec st 0); [lia|]. f_equal.
  rewrite Z.quot_div_nonneg by lia.
  replace (st + (h - p))%Z with (1 * st + (h - p))%Z by lia.
  rewrite Z.div_add_l by lia. f_equal. f_equal. lia.
Qed.

Lemma out_size_pos (h p st : Z) :
  (0 < st)%Z -> (p <= h)%Z -> (0 < out_size h 0 p st)%Z.
Proof.
  intros Hst Hp. unfold out_size.
  assert (0 <= (h + 2 * 0 - p) / st)%Z by (apply Z.div_pos; lia). lia.
Qed.


Section PoolingShape.
Context {R : Type} `{Scalar R}.
Import Pooling.

Lemma im2col_shape (x : Tensor R) (fh fw st pd : Z) n c h w :
  shape x = [n; c; h; w] ->
  (0 < st)%Z -> (0 < fh)%Z -> (0 < fw)%Z -> (0 <= pd)%Z ->
  (fh <= Z.of_nat h + 2 * pd)%Z -> (fw <= Z.of_nat w + 2 * pd)%Z ->
  exists col, im2col x fh fw st pd = Ok col /\
    shape col = [n * Z.to_nat (out_size (Z.of_nat h) pd fh st)
                   * Z.to_nat (out_size (Z.of_nat w) pd fw st);
                 c * Z.to_nat fh * Z.to_nat fw].
Proof.
  intros Hs Hst Hfh Hfw Hpd Hh Hw. unfold im2col. rewrite Hs.
  destruct (Z.leb_spec st 0), (Z.leb_spec fh 0), (Z.leb_spec fw 0),
    (Z.ltb_spec pd 0); try lia. cbn [orb].
  destruct (Z.ltb_spec (Z.of_nat h + 2 * pd) fh),
    (Z.ltb_spec (Z.of_nat w + 2 * pd) fw); try lia. cbn [orb].
  eexists. split; reflexivity.
Qed.

Lemma reduce_axis1_shape {B} (f : R -> list R -> B) (t : Tensor R) m k :
  shape t = [m; k] -> 0 < k ->
  exists r, reduce_axis1 f t = Ok r /\ shape r = [m].
Proof.
  intros Hs Hk. unfold reduce_axis1. rewrite Hs.
  destruct k; [lia|]. eexists. split; reflexivity.
Qed.

(** X1: without padding and with a window that fits, [forward] returns an
    array of the shape the resolution formula gives. *)
Lemma Pooling_forward_shape_unpadded (st : state R) (x0 : Tensor R) n c h w :
  shape x0 = [n; c; h; w] ->
  pad st = 0%Z -> (0 < stride st)%Z ->
  (0 < pool_h st <= Z.of_nat h)%Z -> (0 < pool_w st <= Z.of_nat w)%Z ->
  exists out st',
    forward x0 st = (Ok out, st') /\
    shape out = [n; c;
                 Z.to_nat (out_size (Z.of_nat h) (pad st) (pool_h st) (stride st));
                 Z.to_nat (out_size (Z.of_nat w) (pad st) (pool_w st) (stride st))].
Proof.
  intros Hs Hpad Hst Hph Hpw. rewrite Hpad.
  set (oh := out_size (Z.of_nat h) 0 (pool_h st) (stride st)).
  set (ow := out_size (Z.of_nat w) 0 (pool_w st) (stride st)).
  assert (0 < oh)%Z by (apply out_size_pos; lia).
  assert (0 < ow)%Z by (apply out_size_pos; lia).
  destruct (im2col_shape x0 (pool_h st) (pool_w st) (stride st) 0 n c h w)
    as (col & Hcol & Scol); try lia; try done.
  fold oh ow in Scol.
  set (m := n * Z.to_nat oh * Z.to_nat ow * c).
  assert (Hre : reshape [(-1)%Z; (pool_h st * pool_w st)%Z] col =
                Ok (mkT [m; Z.to_nat (pool_h st * pool_w st)] (data col))).
  { apply reshape_infer_rows; [lia|]. unfold size. rewrite Scol. simpl.
    rewrite Z2Nat.inj_mul by lia. unfold m. lia. }
  destruct (reduce_axis1_shape argmax_list
              (mkT [m; Z.to_nat (pool_h st * pool_w st)] (data col)) m _ eq_refl)
    as (am & Ham & _); [lia|].
  destruct (reduce_axis1_shape max_list
              (mkT [m; Z.to_nat (pool_h st * pool_w st)] (data col)) m _ eq_refl)
    as (mx & Hmx & Smx); [lia|].
  assert (Hre2 : reshape [Z.of_nat n; oh; ow; Z.of_nat c] mx =
                 Ok (mkT [n; Z.to_nat oh; Z.to_nat ow; c] (data mx))).
  { rewrite <- (reshape_to_numel [n; Z.to_nat oh; Z.to_nat ow; c] mx).
    - unfold reshape_to. cbn [map]. by rewrite !Z2Nat.id by lia.
    - unfold size. rewrite Smx. unfold m. simpl. lia. }
  eexists. eexists. split.
  - unfold forward. rewrite bind_get, bind_lift, Hs. cbn [unpack4].
    rewrite bind_lift, int_out_floor by lia. fold oh.
    rewrite bind_lift, int_out_floor by lia. fold ow.
    rewrite Hpad, bind_lift, Hcol, bind_lift, Hre.
    rewrite bind_lift. unfold argmax_axis1. rewrite Ham.
    rewrite bind_lift. unfold max_axis1. rewrite Hmx.
    rewrite bind_lift, Hre2.
    rewrite bind_lift. cbn [transpose is_perm_of_axes ndim shape length].
    reflexivity.
  - reflexivity.
Qed.
End PoolingShape.

(** C4, where the code departs from it: with a 2x2 window, stride 1 and
    pad 1 on an input of shape (1, 1, 2, 2), im2col yields 3 * 3 = 9
    windows, the formula of the claim gives outH = outW = 3, but forward
    computes out_h = out_w = 1 without the padding and raises a
    ValueError when it reshapes 9 maxima to (1, 1, 1, 1). *)
Theorem Pooling_forward_padded_raises :
  let st := Pooling.init 2 2 1 1 in
  let x := qt [1; 1; 2; 2] [1; 2; 3; 4]%Z in
  (Pooling.forward x st).1 = Raise ValueError /\
  rmap shape (Pooling.im2col x 2 2 1 1) = Ok [9; 4] /\
  Pooling.int_out 2 2 1 = Ok 1%Z /\
  out_size 2 1 2 1 = 3%Z.
Proof. vm_compute. repeat split; reflexivity. Qed.

(** * Further properties of the layers *)

(** ** Laws of the rational instance *)

Lemma Q_sadd_comm : forall a b : Q, sadd a b = sadd b a.
Proof.
  intros [a1 a2] [b1 b2]. cbn. unfold Qplus. cbn.
  f_equal; [lia | apply Pos.mul_comm].
Qed.

Lemma Q_smul_comm : forall a b : Q, smul a b = smul b a.
Proof.
  intros [a1 a2] [b1 b2]. cbn. unfold Qmult. cbn.
  f_equal; [lia | apply Pos.mul_comm].
Qed.

Lemma Q_smul_one : forall a : Q, smul a s1 = a.
Proof.
  intros [a1 a2]. cbn. unfold Qmult. cbn. f_equal; [lia | apply Pos.mul_1_r].
Qed.

(** ** Broadcasting is symmetric *)

Section BroadcastSym.
Context {A B C : Type} (f : A -> B -> C).

Lemma bshape_sym sa : forall sb, bshape sa sb = bshape sb sa.
Proof.
  induction sa as [|n sa IH]; intros [|m sb]; try reflexivity.
  cbn [bshape]. rewrite (IH sb), (Nat.eqb_sym m n).
  destruct (Nat.eqb_spec n m) as [->|Hne]; [reflexivity|].
  destruct (Nat.eqb_spec n 1) as [->|Hn], (Nat.eqb_spec m 1) as [->|Hm];
    reflexivity.
Qed.

Lemma zip_with_flip (g : list A -> list B -> list C) (g' : list B -> list A -> list C)
    (la : list (list A)) (lb : list (list B)) :
  (forall a b, g a b = g' b a) -> zip_with g la lb = zip_with g' lb la.
Proof.
  intros Hg. revert lb. induction la as [|a la IH]; intros [|b lb]; simpl; try done.
  by rewrite Hg, IH.
Qed.

Lemma bdata_sym sa : forall sb s da db,
  bshape sa sb = Ok s ->
  bdata f sa sb da db = bdata (fun b a => f a b) sb sa db da.
Proof.
  induction sa as [|n sa IH]; intros [|m sb] s da db Hs; try discriminate.
  - simpl. by destruct da, db.
  - rewrite !bdata_cons. cbn [bshape] in Hs. rewrite (Nat.eqb_sym m n).
    destruct (Nat.eqb_spec n m) as [->|Hne].
    + apply rmap_Ok in Hs as (s' & Hs' & ->). f_equal.
      apply zip_with_flip. intros a b. by apply (IH sb s').
    + destruct (Nat.eqb_spec n 1) as [->|Hn].
      * apply rmap_Ok in Hs as (s' & Hs' & ->).
        destruct (Nat.eqb_spec m 1) as [->|Hm]; [lia|].
        f_equal. apply map_ext. intros b. by apply (IH sb s').
      * destruct (Nat.eqb_spec m 1) as [->|Hm]; [|discriminate].
        apply rmap_Ok in Hs as (s' & Hs' & ->).
        f_equal. apply map_ext. intros a. by apply (IH sb s').
Qed.

(** Broadcasting does not depend on the order of the operands. *)
Lemma broadcast2_sym (a : Tensor A) (b : Tensor B) :
  broadcast2 f a b = broadcast2 (fun y x => f x y) b a.
Proof.
  unfold broadcast2. rewrite (Nat.max_comm (ndim b) (ndim a)).
  rewrite (bshape_sym (pad_left _ (shape b))).
  destruct (bshape _ _) as [s|e] eqn:Hs; [|reflexivity].
  cbn [rmap rbind]. do 2 f_equal. by apply (bdata_sym _ _ s).
Qed.
End BroadcastSym.

Lemma bdata_ext {A B C} (f g : A -> B -> C) :
  (forall x y, f x y = g x y) ->
  forall sa sb da db, bdata f sa sb da db = bdata g sa sb da db.
Proof.
  intros Hfg. induction sa as [|n sa IH]; intros [|m sb] da db;
    try (simpl; destruct da, db; by rewrite ?Hfg).
  rewrite !bdata_cons.
  destruct (n =? m); [|destruct (n =? 1)]; f_equal.
  - apply zip_with_ext; [intros a b; apply IH | done | done].
  - apply map_ext. intros b. apply IH.
  - apply map_ext. intros a. apply IH.
Qed.

Lemma broadcast2_comm {A C} (f : A -> A -> C) (a b : Tensor A) :
  (forall x y, f x y = f y x) -> broadcast2 f a b = broadcast2 f b a.
Proof.
  intros Hf. rewrite broadcast2_sym. unfold broadcast2.
  destruct (bshape _ _); [|reflexivity]. cbn [rmap rbind]. do 2 f_equal.
  apply bdata_ext. intros x y. apply Hf.
Qed.

Section Elementwise.
Context {R : Type} `{Scalar R}.

(** X2: AddLayer.forward and MulLayer.forward do not depend on the order of
    their two inputs, for results and for broadcasting errors alike,
    when the element operation commutes. *)
Theorem elementwise_forward_commutes (x y : Tensor R) (st : MulLayer.state R) :
  (forall a b : R, sadd a b = sadd b a) ->
  (forall a b : R, smul a b = smul b a) ->
  AddLayer.forward x y = AddLayer.forward y x /\
  (MulLayer.forward x y st).1 = (MulLayer.forward y x st).1.
Proof.
  intros Hadd Hmul. split.
  - by apply broadcast2_comm.
  - unfold MulLayer.forward. rewrite !bind_modify. unfold lift. cbn [fst].
    by apply broadcast2_comm.
Qed.

(** X4: AddLayer.backward hands the incoming gradient on unchanged to both
    inputs. *)
Theorem AddLayer_backward_passes_gradient (dout : Tensor R) :
  (forall a : R, smul a s1 = a) -> wf dout ->
  AddLayer.backward dout = Ok (dout, dout).
Proof.
  intros Hone Hw. unfold AddLayer.backward, tmul.
  rewrite broadcast2_scalar_r by done. cbn [rbind].
  assert (tmap (fun a : R => smul a s1) dout = dout) as ->; [|done].
  destruct dout as [s d]. unfold tmap. cbn. f_equal.
  rewrite <- (map_id d) at 2. apply map_ext. intros a. apply Hone.
Qed.
End Elementwise.


(** ** More on reshape, transposition and matrix products *)

(** [t.reshape(a, -1)] *)
Lemma reshape_infer_cols {A} (t : Tensor A) (a m : nat) :
  0 < a -> size t = a * m ->
  reshape [Z.of_nat a; (-1)%Z] t = Ok (mkT [a; m] (data t)).
Proof.
  intros Ha Hsz. unfold reshape, fix_unknown_dimension, count_unknown, known_dims.
  rewrite !filter_cons, !filter_nil. repeat case_decide; try lia.
  cbn [length foldr]. rewrite Hsz.
  destruct (Z.eqb_spec (Z.of_nat a * 1) 0); [lia|].
  replace (Z.of_nat (a * m)) with (Z.of_nat m * (Z.of_nat a * 1))%Z by lia.
  rewrite Z.mod_mul by lia. cbn [Z.eqb rmap rbind map].
  rewrite Z.div_mul by lia.
  destruct (Z.ltb_spec (Z.of_nat a) 0); [lia|]. cbn [Z.ltb Z.compare].
  by rewrite !Nat2Z.id.
Qed.

Lemma reshape_zero_rows {A} (t : Tensor A) :
  reshape [Z.of_nat 0; (-1)%Z] t = Raise ValueError.
Proof. reflexivity. Qed.

Lemma reshape_to_shape {A} s (t r : Tensor A) :
  reshape_to s t = Ok r -> shape r = s /\ data r = data t.
Proof.
  unfold reshape_to, reshape, fix_unknown_dimension.
  rewrite count_unknown_of_nat, known_dims_of_nat.
  destruct (_ =? _)%Z; [|discriminate]. cbn. intros [= <-]. cbn. split; [|done].
  induction s as [|n s IH]; [done|]. cbn [map]. by rewrite Nat2Z.id, IH.
Qed.

Lemma transposeT_matrix {A} (t : Tensor A) a b :
  shape t = [a; b] -> exists t', transposeT t = Ok t' /\ shape t' = [b; a].
Proof.
  intros Hs. unfold transposeT, transpose, ndim. rewrite Hs.
  eexists. split; reflexivity.
Qed.

Section Shapes.
Context {R : Type} `{Scalar R}.

Lemma dot_matrix (a b : Tensor R) n k m :
  shape a = [n; k] -> shape b = [k; m] ->
  exists t, dot a b = Ok t /\ shape t = [n; m].
Proof.
  intros Ha Hb. unfold dot. rewrite Ha, Hb, Nat.eqb_refl.
  destruct (transposeT_matrix b k m Hb) as (bT & -> & _).
  eexists. split; reflexivity.
Qed.

Lemma dot_mismatch (a b : Tensor R) n k k' m :
  shape a = [n; k] -> shape b = [k'; m] -> k <> k' -> dot a b = Raise ValueError.
Proof.
  intros Ha Hb Hne. unfold dot. rewrite Ha, Hb.
  by apply Nat.eqb_neq in Hne as ->.
Qed.

Lemma broadcast2_rows_shape {A B C} (f : A -> B -> C) (a : Tensor A) (b : Tensor B) n d :
  shape a = [n; d] -> shape b = [d] ->
  exists t, broadcast2 f a b = Ok t /\ shape t = [n; d].
Proof.
  intros Ha Hb. unfold broadcast2, ndim. rewrite Ha, Hb.
  change (pad_left _ [n; d]) with [n; d]. change (pad_left _ [d]) with [1; d].
  rewrite bshape_row. eexists. split; reflexivity.
Qed.

Lemma sum_axis0_shape (t : Tensor R) n s :
  shape t = n :: s -> exists r, sum_axis0 t = Ok r /\ shape r = s.
Proof. intros Hs. unfold sum_axis0. rewrite Hs. eexists. split; reflexivity. Qed.

End Shapes.

(** ** Affine: shapes and errors *)

Section AffineShapes.
Context {R : Type} `{Scalar R}.
Import Affine.

(** X5: for W of shape (D, M), b of shape (M,) and a non-empty batch x whose
    rows hold D values in any arrangement, forward returns shape (N, M);
    the following backward on a gradient of that shape returns dx with
    the shape of x and leaves dW with the shape of W and db with the
    shape of b. *)
Theorem Affine_gradient_shapes (st : state R) (x0 dout : Tensor R) n rest d m :
  shape (W st) = [d; m] -> shape (b st) = [m] ->
  shape x0 = n :: rest -> 0 < n -> numel rest = d ->
  shape dout = [n; m] ->
  exists out st1 dx st2,
    forward x0 st = (Ok out, st1) /\ shape out = [n; m] /\
    backward dout st1 = (Ok dx, st2) /\ shape dx = shape x0 /\
    shape <$> dW st2 = Some (shape (W st2)) /\
    shape <$> db st2 = Some (shape (b st2)).
Proof.
  intros HW Hb Hx Hn Hd Hdo.
  set (x1 := mkT [n; d] (data x0)).
  assert (Hre : reshape [Z.of_nat n; (-1)%Z] x0 = Ok x1).
  { apply reshape_infer_cols; [done|]. unfold size. rewrite Hx.
    change (numel (n :: rest)) with (n * numel rest). by rewrite Hd. }
  destruct (dot_matrix x1 (W st) n d m eq_refl HW) as (xW & HxW & SxW).
  destruct (broadcast2_rows_shape sadd xW (b st) n m SxW Hb) as (out & Hout & Sout).
  destruct (transposeT_matrix (W st) d m HW) as (WT & HWT & SWT).
  destruct (dot_matrix dout WT n m d Hdo SWT) as (dx & Hdx & Sdx).
  destruct (transposeT_matrix x1 n d eq_refl) as (xT & HxT & SxT).
  destruct (dot_matrix xT dout d n m SxT Hdo) as (dW1 & HdW & SdW).
  destruct (sum_axis0_shape dout n [m] Hdo) as (db1 & Hdb & Sdb).
  assert (Hback : reshape_to (shape x0) dx = Ok (mkT (shape x0) (data dx))).
  { apply reshape_to_numel. unfold size. rewrite Hx, Sdx.
    change (numel (n :: rest)) with (n * numel rest). rewrite Hd. cbn. lia. }
  do 4 eexists. split; [|split; [|split; [|split; [|split]]]].
  - unfold forward. rewrite bind_modify, bind_lift. unfold shape0. rewrite Hx.
    rewrite bind_lift, Hre, bind_modify, bind_get.
    cbn [W b set_x set_original_x_shape].
    rewrite bind_lift, HxW. unfold lift, tadd. rewrite Hout. reflexivity.
  - exact Sout.
  - unfold backward. rewrite bind_get.
    cbn [W b x original_x_shape set_x set_original_x_shape from_attr].
    rewrite bind_lift, HWT, bind_lift, Hdx, bind_lift, bind_lift, HxT.
    rewrite bind_lift, HdW, bind_modify, bind_lift, Hdb, bind_modify, bind_lift.
    unfold lift. rewrite Hx in Hback. rewrite Hback. reflexivity.
  - cbn. by rewrite Hx.
  - cbn. by rewrite SdW, HW.
  - cbn. by rewrite Sdb, Hb.
Qed.

(** X6: a batch with zero rows makes forward raise ValueError (the
    reshape to (0, -1) cannot infer a dimension); only the recorded
    input shape has changed. *)
Theorem Affine_forward_empty_batch (st : state R) (x0 : Tensor R) rest :
  shape x0 = 0 :: rest ->
  forward x0 st = (Raise ValueError, set_original_x_shape (Some (shape x0)) st).
Proof.
  intros Hx. unfold forward. rewrite bind_modify, bind_lift. unfold shape0.
  rewrite Hx, bind_lift. by rewrite reshape_zero_rows.
Qed.

(** X7: backward on an instance that has not run forward raises and stores
    no gradient: the instance is as it was. *)
Theorem Affine_backward_before_forward (st : state R) (dout : Tensor R) :
  x st = None -> exists e, backward dout st = (Raise e, st).
Proof.
  intros Hx. unfold backward. rewrite bind_get, bind_lift.
  destruct (transposeT (W st)) as [WT|e]; [|eauto].
  rewrite bind_lift. destruct (dot dout WT) as [dx|e]; [|eauto].
  rewrite bind_lift, Hx. cbn. eauto.
Qed.
End AffineShapes.

(** ** ReLU: edge cases *)

Section ReluEdges.
Context {R : Type} `{Scalar R}.
Import Relu.
Implicit Types (h : gmap loc (Tensor R)) (x dout : Tensor R).

Lemma Relu_forward_run (st : state) h (x_ref : loc) x :
  h !! x_ref = Some x ->
  forward x_ref (st, h) =
    (Ok (fresh (dom h)),
     (mk (Some (le_zero x)), <[fresh (dom h) := tmap relu x]> h)).
Proof.
  intros Hx. unfold forward. erewrite bind_run by (by apply load_run).
  unfold set_mask. rewrite bind_modify. cbn [fst snd].
  erewrite bind_run by reflexivity.
  erewrite bind_run by (apply load_run; cbn [snd]; apply lookup_insert_eq).
  rewrite bind_lift, mask_assign_le_zero by done.
  unfold store. rewrite bind_modify, zip_with_relu_self. cbn [fst snd].
  unfold ret. by rewrite insert_insert_eq.
Qed.

Lemma fresh_None h : h !! fresh (dom h) = None.
Proof. apply not_elem_of_dom. apply is_fresh. Qed.

(** X8: on an instance that has not run forward, backward raises nothing:
    it overwrites the whole gradient array with zeros. *)
Theorem Relu_backward_before_forward h (d_ref : loc) dout :
  h !! d_ref = Some dout ->
  backward d_ref (init, h) =
    (Ok d_ref, (init, <[d_ref := mkT (shape dout) (replicate (length (data dout)) s0)]> h)).
Proof.
  intros Hd. unfold backward. rewrite bind_get.
  erewrite bind_run by (by apply load_run).
  cbn [fst mask init]. rewrite bind_lift. unfold store. rewrite bind_modify.
  unfold ret, tmap. cbn [fst snd]. do 4 f_equal.
  induction (data dout) as [|a l IH]; [done|]. cbn. by rewrite IH.
Qed.

(** X9: a gradient whose leading dimensions are not those of the input of
    forward makes backward raise IndexError; no array is changed. *)
Theorem Relu_backward_shape_mismatch (st : state) h (x_ref d_ref : loc) x dout :
  h !! x_ref = Some x ->
  let w1 := (forward x_ref (st, h)).2 in
  w1.2 !! d_ref = Some dout ->
  take (length (shape x)) (shape dout) <> shape x ->
  backward d_ref w1 = (Raise IndexError, w1).
Proof.
  intros Hx. cbv zeta. rewrite (Relu_forward_run st h x_ref x Hx). cbn [snd].
  intros Hd Hne. unfold backward. rewrite bind_get.
  erewrite bind_run by (by apply load_run).
  cbn [fst mask]. rewrite bind_lift.
  unfold mask_assign, is_prefix, le_zero, tmap. cbn [shape].
  by rewrite bool_decide_eq_false_2.
Qed.

(** X10: forward applied to its own output returns an array with the same
    contents: ReLU is idempotent. *)
Theorem Relu_forward_idempotent (st : state) h (x_ref : loc) x :
  sleb (s0 : R) s0 = true ->
  h !! x_ref = Some x ->
  exists out1 w1 out2 w2,
    forward x_ref (st, h) = (Ok out1, w1) /\
    forward out1 w1 = (Ok out2, w2) /\
    out2 <> out1 /\
    w2.2 !! out1 = Some (tmap relu x) /\
    w2.2 !! out2 = Some (tmap relu x).
Proof.
  intros Hz Hx. do 4 eexists.
  split; [by apply Relu_forward_run|].
  split; [apply Relu_forward_run; cbn [snd]; apply lookup_insert_eq|].
  assert (Hne : fresh (dom (<[fresh (dom h) := tmap relu x]> h)) <> fresh (dom h)).
  { intros Heq. pose proof (fresh_None (<[fresh (dom h) := tmap relu x]> h)) as Hf.
    rewrite Heq in Hf. by rewrite lookup_insert_eq in Hf. }
  split; [exact Hne|]. cbn [snd]. split.
  - rewrite lookup_insert_ne by done. apply lookup_insert_eq.
  - rewrite lookup_insert_eq. f_equal. unfold tmap. cbn. f_equal.
    rewrite map_map. apply map_ext. intros a. unfold relu.
    destruct (sleb a s0) eqn:E; [by rewrite Hz | by rewrite E].
Qed.
End ReluEdges.

(** ** SoftmaxWithLoss: edge cases *)

Lemma norm_index_None c k :
  (k < - Z.of_nat c \/ Z.of_nat c <= k)%Z -> norm_index c k = None.
Proof.
  intros Hk. unfold norm_index.
  destruct (Z.leb_spec 0 k), (Z.ltb_spec k (Z.of_nat c)); simpl; try lia;
    destruct (Z.leb_spec (- Z.of_nat c) k), (Z.ltb_spec k 0); simpl; try lia; done.
Qed.

Section SoftmaxEdges.
Context {R : Type} `{Scalar R}.
Import SoftmaxWithLoss.

(** X11: a class index outside [-c, c) makes backward raise IndexError and
    leaves the instance as it was. *)
Theorem SoftmaxWithLoss_backward_index_out_of_range (st : state R)
    (y0 dout : Tensor R) b c idx i k :
  y st = Some y0 -> t st = Some (IArr (mkT [b] idx)) ->
  shape y0 = [b; c] -> length idx = b -> b <> b * c ->
  idx !! i = Some k -> (k < - Z.of_nat c \/ Z.of_nat c <= k)%Z ->
  backward dout st = (Raise IndexError, st).
Proof.
  intros Hy Ht Hs Hl Hsz Hi Hk. unfold backward.
  rewrite bind_get, Ht, bind_lift. cbn [from_attr nd_shape shape].
  rewrite bind_lift, Hy, bind_lift. cbn [from_attr].
  unfold size. rewrite Hs. cbn [numel foldr]. rewrite !Nat.mul_1_r.
  apply Nat.eqb_neq in Hsz. rewrite Hsz.
  rewrite bind_lift. unfold sub_one_at. rewrite Hs, index_pairs_vector by done.
  cbn [rbind].
  assert (mapM (check_pair b c) (zip_with pair (seq 0 b) idx) = None) as ->; [|reflexivity].
  apply mapM_None. apply Exists_exists. exists (i, k). split.
  - subst b. apply elem_of_zip_seq. exact Hi.
  - unfold check_pair. cbn [fst snd]. destruct (i <? b); [|done].
    by rewrite norm_index_None.
Qed.

(** X12: when y has a single class per row and t holds b >= 2 class indices,
    the sizes coincide, the one-hot branch is taken and the result has
    shape (b, b) instead of the shape (b, 1) of y. *)
Theorem SoftmaxWithLoss_backward_size_coincidence (st : state R)
    (y0 dout : Tensor R) b idx :
  y st = Some y0 -> t st = Some (IArr (mkT [b] idx)) ->
  shape y0 = [b; 1] -> wf y0 -> length idx = b -> 2 <= b ->
  exists dx, backward dout st = (Ok dx, st) /\ shape dx = [b; b].
Proof.
  intros Hy Ht Hs Hw Hl Hb.
  assert (Hsh : bshape [b; 1] [1; b] = Ok [b; b]).
  { cbn. destruct b as [|[|b]]; try lia. reflexivity. }
  assert (Hd : exists d, tsub y0 (as_float (IArr (mkT [b] idx))) = Ok d /\
                         shape d = [b; b] /\ wf d).
  { eexists. split; [|split].
    - unfold tsub, broadcast2, ndim. cbn [as_float tmap shape]. rewrite Hs.
      change (pad_left _ [b; 1]) with [b; 1]. change (pad_left _ [b]) with [1; b].
      rewrite Hsh. reflexivity.
    - reflexivity.
    - unfold wf, size in *. cbn [shape data]. rewrite Hs in *.
      apply (bdata_length _ _ _ [b; b]); [done | cbn in *; lia |].
      cbn. rewrite length_map. lia. }
  destruct Hd as (d & Hd & Sd & Wd).
  eexists. split.
  - unfold backward.
    rewrite bind_get, Ht, bind_lift. cbn [from_attr nd_shape shape].
    rewrite bind_lift, Hy, bind_lift. cbn [from_attr].
    unfold size. rewrite Hs. cbn [numel foldr]. rewrite !Nat.mul_1_r, Nat.eqb_refl.
    rewrite bind_lift, Hd. unfold lift, tdiv.
    by rewrite broadcast2_scalar_r.
  - exact Sd.
Qed.
End SoftmaxEdges.

(** ** Dropout *)

Section DropoutEdges.
Context {R : Type} `{Scalar R}.
Import Dropout.

(** X13: in inference mode forward scales every entry by 1 - dropout_ratio,
    draws no sample and leaves the instance, its mask included, as it
    was. *)
Theorem Dropout_forward_inference (st : state R) (u : nat -> R) (x : Tensor R) :
  wf x ->
  forward u x false st =
    (Ok (tmap (fun a => smul a (ssub s1 (dropout_ratio st))) x), st).
Proof.
  intros Hw. unfold forward. rewrite bind_get. unfold lift, tmul.
  by rewrite broadcast2_scalar_r.
Qed.

Lemma wf_draw_mask (u : nat -> R) ratio s : wf (draw_mask u ratio s).
Proof. unfold wf, draw_mask, size. cbn. by rewrite length_map, length_seq. Qed.

(** X14: a training-mode forward keeps the entries whose sample exceeds
    dropout_ratio, without rescaling them, and multiplies the others
    by 0; the following backward does the same, with the same samples,
    to a gradient of the same shape. *)
Theorem Dropout_training_pair (st : state R) (u : nat -> R) (x dout : Tensor R) :
  (forall a : R, smul a s1 = a) ->
  wf x -> wf dout -> shape dout = shape x ->
  exists out st1 dx,
    forward u x true st = (Ok out, st1) /\
    backward dout st1 = (Ok dx, st1) /\
    shape out = shape x /\ shape dx = shape x /\
    forall i a d,
      data x !! i = Some a -> data dout !! i = Some d ->
      data out !! i = Some (if sltb (dropout_ratio st) (u i) then a else smul a s0) /\
      data dx !! i = Some (if sltb (dropout_ratio st) (u i) then d else smul d s0).
Proof.
  intros Hone Hwx Hwd Hs.
  set (m := draw_mask u (dropout_ratio st) (shape x)).
  assert (Hmask : forall (t : Tensor R), wf t -> shape t = shape x ->
            tmul_mask t m =
              Ok (mkT (shape t) (zip_with (fun a b => smul a (of_bool b)) (data t) (data m)))).
  { intros t Hwt Hst. unfold tmul_mask. apply broadcast2_same; [by rewrite Hst | done |].
    apply wf_draw_mask. }
  assert (Hlook : forall (t : Tensor R) i a, wf t -> shape t = shape x ->
            data t !! i = Some a ->
            zip_with (fun a b => smul a (of_bool b)) (data t) (data m) !! i =
              Some (if sltb (dropout_ratio st) (u i) then a else smul a s0)).
  { intros t i a Hwt Hst Hi. rewrite lookup_zip_with, Hi. cbn.
    assert (Hlt : i < numel (shape x)).
    { apply lookup_lt_Some in Hi. unfold wf, size in Hwt. by rewrite <- Hst, <- Hwt. }
    unfold m, draw_mask. cbn [data]. rewrite list_lookup_fmap, lookup_seq_lt by done.
    cbn. destruct (sltb _ _); cbn; by rewrite ?Hone. }
  do 3 eexists. split; [|split; [|split; [|split]]].
  - unfold forward. rewrite bind_get, bind_modify. unfold lift. fold m.
    rewrite Hmask by done. reflexivity.
  - unfold backward. rewrite bind_get. cbn [mask set_mask from_attr].
    rewrite bind_lift. unfold lift. rewrite Hmask by done. reflexivity.
  - reflexivity.
  - exact Hs.
  - intros i a d Ha Hd. cbn [data]. split; by apply Hlook.
Qed.
End DropoutEdges.

(** ** Batch normalisation: shapes, frames and errors *)

Section BatchNormEdges.
Context {R : Type} `{Scalar R} (sqrt : R -> R).
Import BatchNorm.
Implicit Types (st : state R) (x : Tensor R).

Lemma lazy_init_keeps_input_shape x v :
  preserves (fun s => input_shape s = v) (lazy_init x).
Proof.
  unfold lazy_init. apply preserves_get_bind. intros s Hs.
  destruct (running_mean s); [exact Hs|].
  unfold bind, lift. destruct (unpack2 (shape x)) as [[n d]|e]; exact Hs.
Qed.

Lemma __forward_keeps_input_shape x flag v :
  preserves (fun s => input_shape s = v) (__forward sqrt x flag).
Proof.
  unfold __forward.
  apply preserves_bind; [apply lazy_init_keeps_input_shape | intros _].
  apply preserves_bind; [|intros xn0; frame].
  destruct flag; [unfold normalize_train | unfold normalize_infer]; frame.
Qed.

(** X15: whenever forward returns, in either mode, its result has the shape
    of the input, and that shape is the one kept for backward. *)
Theorem BatchNorm_forward_keeps_shape st x flag out st' :
  forward sqrt x flag st = (Ok out, st') ->
  shape out = shape x /\ input_shape st' = Some (shape x).
Proof.
  unfold forward. intros Hf. do 2 step Hf. rename a into x2.
  apply bind_Ok in Hf as (out2 & s3 & H2 & H3).
  pose proof (__forward_keeps_input_shape x2 flag (Some (shape x))
                (set_input_shape (Some (shape x)) st) eq_refl) as Hin.
  rewrite H2 in Hin. cbn [snd] in Hin.
  step H3. rewrite Hin in H3. cbn [from_attr] in H3. rewrite bind_lift in H3.
  apply lift_Ok in H3 as [Hre ->].
  apply reshape_to_shape in Hre as [Hsh _]. by split.
Qed.

(** X16: an inference-mode forward on an instance that has a running mean
    records the input shape and changes nothing else: no statistics,
    no cache for backward, whether it returns or raises. *)
Theorem BatchNorm_inference_no_caching st x rm :
  running_mean st = Some rm ->
  (forward sqrt x false st).2 = set_input_shape (Some (shape x)) st.
Proof.
  intros Hrm. set (s0' := set_input_shape (Some (shape x)) st).
  assert (Hp : preserves (fun s => s = s0') (bind (lift (flatten x)) (fun x2 =>
                 bind (__forward sqrt x2 false) (fun out =>
                 bind get (fun s =>
                 bind (lift (from_attr TypeError (input_shape s))) (fun sh =>
                 lift (reshape_to sh out))))))).
  { apply preserves_bind; [frame | intros x2].
    apply preserves_bind; [| intros out; frame].
    unfold __forward.
    apply preserves_bind; [| intros _].
    - unfold lazy_init. apply preserves_get_bind. intros s ->.
      cbn [s0' running_mean set_input_shape]. by rewrite Hrm.
    - unfold normalize_infer. frame. }
  unfold forward. rewrite bind_modify. apply (Hp s0' eq_refl).
Qed.

(** X17: backward on an instance that has never run a training-mode forward
    raises and leaves the instance, its gradients included, as it was. *)
Theorem BatchNorm_backward_before_forward st (dout : Tensor R) :
  xn st = None -> exists e, backward dout st = (Raise e, st).
Proof.
  intros Hxn. unfold backward. rewrite bind_lift.
  destruct (flatten_grad dout) as [d2|e]; [|eauto].
  unfold __backward. rewrite bind_assoc, bind_get, bind_assoc, bind_lift.
  destruct (sum_axis0 d2) as [db|e]; [|eauto].
  rewrite bind_assoc, bind_lift, Hxn. cbn. eauto.
Qed.

(** X18: a training-mode forward never returns on an instance built with a
    running mean but without a running variance. *)
Theorem BatchNorm_training_needs_running_var st x rm :
  running_mean st = Some rm -> running_var st = None ->
  forall out st', forward sqrt x true st <> (Ok out, st').
Proof.
  intros Hrm Hrv out st' Hf. unfold forward in Hf. do 2 step Hf.
  apply bind_Ok in Hf as (out2 & s3 & H2 & _).
  unfold __forward in H2.
  apply bind_Ok in H2 as ([] & s1 & Hl & H2).
  apply bind_Ok in H2 as (xn0 & s2 & Hn & _).
  apply lazy_init_Ok in Hl as (_ & [Hnone|Hsame] & _).
  - cbn in Hnone. congruence.
  - apply normalize_train_Ok in Hn as (? & ? & ? & rv & ? & ? & _ & _ & Hv & _).
    rewrite Hsame in Hv. cbn in Hv. congruence.
Qed.
End BatchNormEdges.

(** ** Operations that return *)

Section Returns.
Context {A B C : Type} (f : A -> B -> C).

Lemma returns_rows (a : Tensor A) (b : Tensor B) n d :
  shape a = [n; d] -> wf a -> shape b = [d] -> wf b ->
  returns (broadcast2 f a b) [n; d].
Proof. intros. by apply broadcast2_rows_ok. Qed.

Lemma returns_rows_l (a : Tensor A) (b : Tensor B) n d :
  shape a = [d] -> wf a -> shape b = [n; d] -> wf b ->
  returns (broadcast2 f a b) [n; d].
Proof. intros. by apply broadcast2_rows_l_ok. Qed.

Lemma returns_same (a : Tensor A) (b : Tensor B) s :
  shape a = s -> wf a -> shape b = s -> wf b ->
  returns (broadcast2 f a b) s.
Proof.
  intros Sa Wa Sb Wb. eexists. split; [apply broadcast2_same; congruence|].
  split; [done|]. unfold wf, size in *. cbn [shape data].
  rewrite length_zip_with, Wa, Wb, Sb, Sa. lia.
Qed.

Lemma returns_scalar_l (c : A) (b : Tensor B) s :
  shape b = s -> wf b -> returns (broadcast2 f (scalar c) b) s.
Proof.
  intros Sb Wb. eexists. split; [by apply broadcast2_scalar_l|].
  split; [done | by apply wf_tmap].
Qed.

Lemma returns_scalar_r (a : Tensor A) (c : B) s :
  shape a = s -> wf a -> returns (broadcast2 f a (scalar c)) s.
Proof.
  intros Sa Wa. eexists. split; [by apply broadcast2_scalar_r|].
  split; [done | by apply wf_tmap].
Qed.
End Returns.

Section ReturnsNumeric.
Context {R : Type} `{Scalar R}.

Lemma foldl_zip_with_length (g : R -> R -> R) k (cs : list (list R)) : forall c,
  length c = k -> Forall (fun c => length c = k) cs ->
  length (foldl (zip_with g) c cs) = k.
Proof.
  induction cs as [|c' cs IH]; intros c Hc Hall; [done|].
  inversion Hall as [|? ? Hc' Hcs]; subst. cbn. apply IH; [|done].
  rewrite length_zip_with. lia.
Qed.

Lemma returns_sum_axis0 (t : Tensor R) n s :
  shape t = n :: s -> wf t -> returns (sum_axis0 t) s.
Proof.
  intros Hs Hw. unfold sum_axis0. rewrite Hs. eexists. split; [done|].
  split; [done|]. unfold wf, size in *. rewrite Hs in Hw. cbn [shape data].
  change (numel (n :: s)) with (n * numel s) in Hw.
  pose proof (chunks_Forall_length (numel s) n (data t) Hw) as Hall.
  destruct (chunks (numel s) n (data t)) as [|c cs]; [apply length_replicate|].
  inversion Hall; subst. by apply foldl_zip_with_length.
Qed.

Lemma returns_mean_axis0 (t : Tensor R) n s :
  shape t = n :: s -> wf t -> returns (mean_axis0 t) s.
Proof.
  intros Hs Hw. destruct (returns_sum_axis0 t n s Hs Hw) as (r & Hr & Sr & Wr).
  unfold mean_axis0. rewrite Hs, Hr. eexists. split; [done|].
  split; [done | by apply wf_tmap].
Qed.
End ReturnsNumeric.

Section BatchNormPair.
Context {R : Type} `{Scalar R} (sqrt : R -> R).
Import BatchNorm.
Implicit Types (st : state R) (x : Tensor R).

Lemma returns_sqrt_eps (v : Tensor R) d :
  shape v = [d] -> wf v -> returns (sqrt_eps sqrt v) [d].
Proof. intros. by apply sqrt_eps_vector. Qed.

Lemma returns_moving_average (m : R) (r s : Tensor R) d :
  shape r = [d] -> wf r -> shape s = [d] -> wf s ->
  returns (moving_average m r s) [d].
Proof.
  intros Sr Wr Ss Ws. unfold moving_average, tmul, tadd.
  destruct (returns_scalar_l smul m r [d] Sr Wr) as (a & -> & Sa & Wa).
  destruct (returns_scalar_l smul (ssub s1 m) s [d] Ss Ws) as (b & -> & Sb & Wb).
  cbn [rbind]. by apply returns_same.
Qed.

Lemma normalize_train_run st x n d rm rv :
  shape x = [n; d] -> wf x ->
  running_mean st = Some rm -> shape rm = [d] -> wf rm ->
  running_var st = Some rv -> shape rv = [d] -> wf rv ->
  exists xn0 xc0 std0 st',
    normalize_train sqrt x st = (Ok xn0, st') /\
    shape xn0 = [n; d] /\ wf xn0 /\
    xn st' = Some xn0 /\
    xc st' = Some xc0 /\ shape xc0 = [n; d] /\ wf xc0 /\
    std st' = Some std0 /\ shape std0 = [d] /\ wf std0 /\
    batch_size st' = Some n /\
    gamma st' = gamma st /\ beta st' = beta st /\ input_shape st' = input_shape st.
Proof.
  intros Sx Wx Hrm Srm Wrm Hrv Srv Wrv.
  destruct (returns_mean_axis0 x n [d] Sx Wx) as (mu & Hmu & Smu & Wmu).
  destruct (returns_rows ssub x mu n d Sx Wx Smu Wmu) as (xc0 & Hxc & Sxc & Wxc).
  destruct (returns_same smul xc0 xc0 [n; d] Sxc Wxc Sxc Wxc) as (sq & Hsq & Ssq & Wsq).
  destruct (returns_mean_axis0 sq n [d] Ssq Wsq) as (var & Hvar & Svar & Wvar).
  destruct (returns_sqrt_eps var d Svar Wvar) as (std0 & Hstd & Sstd & Wstd).
  destruct (returns_rows sdiv xc0 std0 n d Sxc Wxc Sstd Wstd) as (xn0 & Hxn & Sxn & Wxn).
  destruct (returns_moving_average (momentum st) rm mu d Srm Wrm Smu Wmu)
    as (rm' & Hrm' & _ & _).
  destruct (returns_moving_average (momentum st) rv var d Srv Wrv Svar Wvar)
    as (rv' & Hrv' & _ & _).
  exists xn0, xc0, std0. eexists. split.
  - unfold normalize_train.
    rewrite bind_lift, Hmu. fold (tsub x mu). unfold tsub.
    rewrite bind_lift, Hxc. unfold tmul.
    rewrite bind_lift, Hsq, bind_lift, Hvar, bind_lift, Hstd. unfold tdiv.
    rewrite bind_lift, Hxn, bind_lift. unfold shape0. rewrite Sx.
    rewrite !bind_modify, bind_get.
    cbn [running_mean running_var momentum set_batch_size set_xc set_xn set_std].
    rewrite Hrm. cbn [from_attr]. rewrite bind_lift, bind_lift, Hrm'.
    rewrite bind_modify, bind_get.
    cbn [running_mean running_var momentum set_running_mean set_batch_size set_xc set_xn set_std].
    rewrite Hrv. cbn [from_attr]. rewrite bind_lift, bind_lift, Hrv'.
    rewrite bind_modify. reflexivity.
  - repeat split; done.
Qed.

Lemma BatchNorm_backward_run st (dout xn0 xc0 std0 : Tensor R) n d :
  0 < n ->
  shape dout = [n; d] -> wf dout ->
  shape (gamma st) = [d] -> wf (gamma st) ->
  xn st = Some xn0 -> shape xn0 = [n; d] -> wf xn0 ->
  xc st = Some xc0 -> shape xc0 = [n; d] -> wf xc0 ->
  std st = Some std0 -> shape std0 = [d] -> wf std0 ->
  batch_size st = Some n -> input_shape st = Some [n; d] ->
  exists dx st',
    backward dout st = (Ok dx, st') /\ shape dx = [n; d] /\
    shape <$> dgamma st' = Some [d] /\ shape <$> dbeta st' = Some [d] /\
    gamma st' = gamma st.
Proof.
  intros Hn Sd Wd Sg Wg Hxn Sxn Wxn Hxc Sxc Wxc Hstd Sstd Wstd Hbs Hin.
  destruct (returns_sum_axis0 dout n [d] Sd Wd) as (dbeta0 & Hdb & Sdb & Wdb).
  destruct (returns_same smul xn0 dout [n; d] Sxn Wxn Sd Wd) as (xnd & Hxnd & Sxnd & Wxnd).
  destruct (returns_sum_axis0 xnd n [d] Sxnd Wxnd) as (dgamma0 & Hdg & Sdg & Wdg).
  destruct (returns_rows_l smul (gamma st) dout n d Sg Wg Sd Wd) as (dxn & Hdxn & Sdxn & Wdxn).
  destruct (returns_rows sdiv dxn std0 n d Sdxn Wdxn Sstd Wstd) as (dxc & Hdxc & Sdxc & Wdxc).
  destruct (returns_same smul dxn xc0 [n; d] Sdxn Wdxn Sxc Wxc) as (num & Hnum & Snum & Wnum).
  destruct (returns_same smul std0 std0 [d] Sstd Wstd Sstd Wstd) as (den & Hden & Sden & Wden).
  destruct (returns_rows sdiv num den n d Snum Wnum Sden Wden) as (q & Hq & Sq & Wq).
  destruct (returns_sum_axis0 q n [d] Sq Wq) as (sq & Hsq & Ssq & Wsq).
  assert (Sdstd : shape (tneg sq) = [d]) by done.
  assert (Wdstd : wf (tneg sq)) by (by apply wf_tmap).
  destruct (returns_scalar_l smul half (tneg sq) [d] Sdstd Wdstd) as (hd & Hhd & Shd & Whd).
  destruct (returns_same sdiv hd std0 [d] Shd Whd Sstd Wstd) as (dvar & Hdvar & Sdvar & Wdvar).
  set (c := sdiv two (of_Z (Z.of_nat n))).
  assert (Hc : two_over (Some n) = Ok c) by (destruct n; [lia | done]).
  destruct (returns_scalar_l smul c xc0 [n; d] Sxc Wxc) as (cx & Hcx & Scx & Wcx).
  destruct (returns_rows smul cx dvar n d Scx Wcx Sdvar Wdvar) as (cxv & Hcxv & Scxv & Wcxv).
  destruct (returns_same sadd dxc cxv [n; d] Sdxc Wdxc Scxv Wcxv) as (dxc' & Hdxc' & Sdxc' & Wdxc').
  destruct (returns_sum_axis0 dxc' n [d] Sdxc' Wdxc') as (dmu & Hdmu & Sdmu & Wdmu).
  destruct (returns_scalar_r sdiv dmu (of_Z (Z.of_nat n)) [d] Sdmu Wdmu)
    as (dmn & Hdmn & Sdmn & Wdmn).
  destruct (returns_rows ssub dxc' dmn n d Sdxc' Wdxc' Sdmn Wdmn) as (dx & Hdx & Sdx & Wdx).
  assert (H2 : __backward dout st =
               (Ok dx, set_dbeta (Some dbeta0) (set_dgamma (Some dgamma0) st))).
  { unfold __backward. rewrite bind_get, bind_lift, Hdb, Hxn. cbn [from_attr].
    rewrite bind_lift. unfold tmul, tdiv, tsub, tadd.
    rewrite bind_lift, Hxnd, bind_lift, Hdg, bind_lift, Hdxn, Hstd. cbn [from_attr].
    rewrite bind_lift, bind_lift, Hdxc, Hxc. cbn [from_attr].
    rewrite bind_lift, bind_lift, Hnum, bind_lift, Hden, bind_lift, Hq.
    rewrite bind_lift, Hsq, bind_lift, Hhd, bind_lift, Hdvar, Hbs, bind_lift, Hc.
    rewrite bind_lift, Hcx, bind_lift, Hcxv, bind_lift.
    unfold iadd, tadd. rewrite Hdxc'. cbn [rbind]. rewrite Sdxc', Sdxc.
    rewrite bool_decide_eq_true_2 by done.
    rewrite bind_lift, Hdmu. cbn [from_attr]. rewrite bind_lift, bind_lift, Hdmn.
    rewrite bind_lift, Hdx, !bind_modify. reflexivity. }
  exists dx, (set_dbeta (Some dbeta0) (set_dgamma (Some dgamma0) st)).
  split; [|split; [done|repeat split; cbn; by rewrite ?Sdg, ?Sdb]].
  unfold backward, flatten_grad, ndim. rewrite Sd. cbn [length Nat.eqb].
  rewrite bind_lift. erewrite bind_run by exact H2.
  rewrite bind_get. cbn [input_shape set_dbeta set_dgamma]. rewrite Hin.
  cbn [from_attr]. rewrite bind_lift. unfold lift.
  rewrite <- Sdx at 1. by rewrite reshape_to_id.
Qed.

(** X19: for a batch of n >= 1 rows of d features, per-feature gamma and beta,
    and running statistics that are absent or per-feature: a
    training-mode forward followed by backward on a gradient of the
    same shape returns both times; the output and dx have the input's
    shape, dgamma and dbeta the shape of gamma. *)
Theorem BatchNorm_training_pair_shapes st x (dout : Tensor R) n d :
  0 < n ->
  shape x = [n; d] -> wf x -> shape dout = [n; d] -> wf dout ->
  shape (gamma st) = [d] -> wf (gamma st) ->
  shape (beta st) = [d] -> wf (beta st) ->
  (running_mean st = None \/
   exists rm rv, running_mean st = Some rm /\ running_var st = Some rv /\
                 shape rm = [d] /\ wf rm /\ shape rv = [d] /\ wf rv) ->
  exists out st1 dx st2,
    forward sqrt x true st = (Ok out, st1) /\ shape out = [n; d] /\
    backward dout st1 = (Ok dx, st2) /\ shape dx = [n; d] /\
    shape <$> dgamma st2 = Some (shape (gamma st2)) /\
    shape <$> dbeta st2 = Some (shape (gamma st2)) /\
    gamma st2 = gamma st.
Proof.
  intros Hn Sx Wx Sd Wd Sg Wg Sb Wb Hstats.
  set (s0' := set_input_shape (Some (shape x)) st).
  assert (Hl : exists s1 rm rv,
             lazy_init x s0' = (Ok tt, s1) /\
             running_mean s1 = Some rm /\ shape rm = [d] /\ wf rm /\
             running_var s1 = Some rv /\ shape rv = [d] /\ wf rv /\
             gamma s1 = gamma st /\ beta s1 = beta st /\
             input_shape s1 = Some [n; d]).
  { destruct Hstats as [Hnone | (rm & rv & Hrm & Hrv & Srm & Wrm & Srv & Wrv)].
    - eexists. exists (zeros [d]), (zeros [d]). split.
      + by apply (lazy_init_None _ _ n d).
      + cbn. rewrite Sx. repeat split; try done; apply wf_zeros.
    - exists s0', rm, rv. split.
      + unfold lazy_init. rewrite bind_get. cbn [s0' running_mean set_input_shape].
        by rewrite Hrm.
      + cbn. rewrite Sx. by repeat split. }
  destruct Hl as (s1 & rm & rv & Hl & Hrm & Srm & Wrm & Hrv & Srv & Wrv & Hg1 & Hb1 & Hin1).
  destruct (normalize_train_run s1 x n d rm rv Sx Wx Hrm Srm Wrm Hrv Srv Wrv)
    as (xn0 & xc0 & std0 & s2 & Hnt & Sxn & Wxn & Hxn & Hxc & Sxc & Wxc & Hstd & Sstd & Wstd
        & Hbs & Hg2 & Hb2 & Hin2).
  rewrite Hg1 in Hg2. rewrite Hb1 in Hb2. rewrite Hin1 in Hin2.
  assert (Sg2 : shape (gamma s2) = [d]) by (by rewrite Hg2).
  assert (Wg2 : wf (gamma s2)) by (by rewrite Hg2).
  destruct (returns_rows_l smul (gamma s2) xn0 n d Sg2 Wg2 Sxn Wxn) as (gx & Hgx & Sgx & Wgx).
  assert (Sb2 : shape (beta s2) = [d]) by (by rewrite Hb2).
  assert (Wb2 : wf (beta s2)) by (by rewrite Hb2).
  destruct (returns_rows sadd gx (beta s2) n d Sgx Wgx Sb2 Wb2) as (out & Hout & Sout & Wout).
  destruct (BatchNorm_backward_run s2 dout xn0 xc0 std0 n d)
    as (dx & s3 & Hbk & Sdx & Hdg & Hdb & Hg3); try done.
  exists out, s2, dx, s3. split; [|split; [done|split; [done|split; [done|]]]].
  - unfold forward. rewrite bind_modify, bind_lift. fold s0'.
    unfold flatten, ndim. rewrite Sx. cbn [length Nat.eqb].
    assert (H2 : __forward sqrt x true s0' = (Ok out, s2)).
    { unfold __forward. erewrite bind_run by exact Hl.
      erewrite bind_run by exact Hnt. rewrite bind_get. unfold lift, scale_shift, tmul.
      rewrite Hgx. cbn [rbind]. unfold tadd. by rewrite Hout. }
    erewrite bind_run by exact H2. rewrite bind_get, Hin2. cbn [from_attr].
    rewrite bind_lift. unfold lift. rewrite <- Sout at 1. by rewrite reshape_to_id.
  - rewrite Hg3, Sg2. by rewrite Hg2.
Qed.
End BatchNormPair.

(** ** Convolution *)

(** [t.reshape(n, oh, ow, -1)] *)
Lemma reshape_infer_last {A} (t : Tensor A) (n : nat) (oh ow : Z) (m : nat) :
  0 < n -> (0 < oh)%Z -> (0 < ow)%Z ->
  size t = n * Z.to_nat oh * Z.to_nat ow * m ->
  reshape [Z.of_nat n; oh; ow; (-1)%Z] t =
    Ok (mkT [n; Z.to_nat oh; Z.to_nat ow; m] (data t)).
Proof.
  intros Hn Hoh How Hsz.
  unfold reshape, fix_unknown_dimension, count_unknown, known_dims.
  rewrite !filter_cons, !filter_nil. repeat case_decide; try lia.
  cbn [length foldr]. rewrite Hsz.
  set (k := (Z.of_nat n * (oh * (ow * 1)))%Z).
  assert (Hk : (0 < k)%Z) by (unfold k; nia).
  destruct (Z.eqb_spec k 0); [lia|].
  replace (Z.of_nat (n * Z.to_nat oh * Z.to_nat ow * m)) with (Z.of_nat m * k)%Z
    by (unfold k; nia).
  rewrite Z.mod_mul by lia. cbn [Z.eqb rmap rbind map].
  rewrite Z.div_mul by lia.
  destruct (Z.ltb_spec (Z.of_nat n) 0), (Z.ltb_spec oh 0), (Z.ltb_spec ow 0); try lia.
  cbn [Z.ltb Z.compare]. by rewrite !Nat2Z.id.
Qed.

Lemma conv_out_floor (h pd f st : Z) :
  (0 < st)%Z -> (f <= h + 2 * pd)%Z ->
  Convolution.conv_out h pd f st = Ok (out_size h pd f st).
Proof.
  intros Hst Hf. unfold Convolution.conv_out, out_size.
  destruct (Z.eqb_spec st 0); [lia|]. by rewrite Z.quot_div_nonneg by lia.
Qed.

Lemma out_size_positive (h pd f st : Z) :
  (0 < st)%Z -> (f <= h + 2 * pd)%Z -> (0 < out_size h pd f st)%Z.
Proof.
  intros Hst Hf. unfold out_size.
  assert (0 <= (h + 2 * pd - f) / st)%Z by (apply Z.div_pos; lia). lia.
Qed.

Section ConvolutionShapes.
Context {R : Type} `{Scalar R}.
Variable col2im : Tensor R -> list nat -> Z -> Z -> Z -> Z -> res (Tensor R).
Import Convolution.

Lemma Convolution_forward_run (st : state R) (x0 : Tensor R) fn c fh fw n h w :
  shape (W st) = [fn; c; fh; fw] -> shape (b st) = [fn] ->
  shape x0 = [n; c; h; w] ->
  0 < n -> 0 < fn -> 0 < fh -> 0 < fw ->
  (0 < stride st)%Z -> (0 <= pad st)%Z ->
  (Z.of_nat fh <= Z.of_nat h + 2 * pad st)%Z ->
  (Z.of_nat fw <= Z.of_nat w + 2 * pad st)%Z ->
  let oh := Z.to_nat (out_size (Z.of_nat h) (pad st) (Z.of_nat fh) (stride st)) in
  let ow := Z.to_nat (out_size (Z.of_nat w) (pad st) (Z.of_nat fw) (stride st)) in
  exists out col0 col_W0,
    forward x0 st =
      (Ok out, set_col_W (Some col_W0) (set_col (Some col0) (set_x (Some x0) st))) /\
    shape out = [n; fn; oh; ow] /\
    shape col0 = [n * oh * ow; c * fh * fw] /\
    shape col_W0 = [c * fh * fw; fn].
Proof.
  intros HW Hb Hx Hn Hfn Hfh Hfw Hst Hpad Hh Hwd oh ow.
  set (ohz := out_size (Z.of_nat h) (pad st) (Z.of_nat fh) (stride st)).
  set (owz := out_size (Z.of_nat w) (pad st) (Z.of_nat fw) (stride st)).
  assert (Hoh : (0 < ohz)%Z) by (by apply out_size_positive).
  assert (How : (0 < owz)%Z) by (by apply out_size_positive).
  destruct (im2col_shape x0 (Z.of_nat fh) (Z.of_nat fw) (stride st) (pad st) n c h w)
    as (col0 & Hcol & Scol); try lia; try done.
  fold ohz owz in Scol. rewrite !Nat2Z.id in Scol. fold oh ow in Scol.
  set (k := c * fh * fw) in *.
  assert (Hw2 : reshape [Z.of_nat fn; (-1)%Z] (W st) = Ok (mkT [fn; k] (data (W st)))).
  { apply reshape_infer_cols; [done|]. unfold size. rewrite HW. unfold k. cbn. lia. }
  destruct (transposeT_matrix (mkT [fn; k] (data (W st))) fn k eq_refl)
    as (col_W0 & HcW & ScW).
  destruct (dot_matrix col0 col_W0 (n * oh * ow) k fn Scol ScW) as (cw & Hcw & Scw).
  destruct (broadcast2_rows_shape sadd cw (b st) (n * oh * ow) fn Scw Hb)
    as (o1 & Ho1 & So1).
  assert (Hre : reshape [Z.of_nat n; ohz; owz; (-1)%Z] o1 =
                Ok (mkT [n; oh; ow; fn] (data o1))).
  { apply reshape_infer_last; try done. unfold size. rewrite So1. cbn. unfold oh, ow. lia. }
  assert (Hrun : exists out, forward x0 st =
            (Ok out, set_col_W (Some col_W0) (set_col (Some col0) (set_x (Some x0) st))) /\
            shape out = [n; fn; oh; ow]).
  { eexists. split.
    - unfold forward. rewrite bind_get, bind_lift, HW. cbn [unpack4].
      rewrite bind_lift, Hx. cbn [unpack4].
      rewrite bind_lift, conv_out_floor by done. fold ohz.
      rewrite bind_lift, conv_out_floor by done. fold owz.
      rewrite bind_lift, Hcol, bind_lift, Hw2, bind_lift, HcW, bind_lift, Hcw.
      unfold tadd. rewrite bind_lift, Ho1, bind_lift, Hre, bind_lift.
      cbn [transpose is_perm_of_axes ndim shape length Nat.eqb andb forallb existsb seq orb].
      rewrite !bind_modify. reflexivity.
    - reflexivity. }
  destruct Hrun as (out & Hrun & So). by exists out, col0, col_W0.
Qed.

(** X20: with a positive stride, non-negative padding and a kernel that fits
    the padded input, forward returns an array of shape
    (N, FN, outH, outW), the resolution counting the padding, and keeps
    the input for backward. *)
Theorem Convolution_forward_shape (st : state R) (x0 : Tensor R) fn c fh fw n h w :
  shape (W st) = [fn; c; fh; fw] -> shape (b st) = [fn] ->
  shape x0 = [n; c; h; w] ->
  0 < n -> 0 < fn -> 0 < fh -> 0 < fw ->
  (0 < stride st)%Z -> (0 <= pad st)%Z ->
  (Z.of_nat fh <= Z.of_nat h + 2 * pad st)%Z ->
  (Z.of_nat fw <= Z.of_nat w + 2 * pad st)%Z ->
  exists out st',
    forward x0 st = (Ok out, st') /\
    shape out = [n; fn;
                 Z.to_nat (out_size (Z.of_nat h) (pad st) (Z.of_nat fh) (stride st));
                 Z.to_nat (out_size (Z.of_nat w) (pad st) (Z.of_nat fw) (stride st))] /\
    x st' = Some x0.
Proof.
  intros HW Hb Hx Hn Hfn Hfh Hfw Hst Hpad Hh Hwd.
  destruct (Convolution_forward_run st x0 fn c fh fw n h w)
    as (out & col0 & col_W0 & Hf & So & _); try done.
  exists out. eexists. split; [exact Hf|]. by split.
Qed.

(** X21: an input whose channel count differs from the kernel's makes forward
    raise ValueError, in the matrix product; the instance is unchanged. *)
Theorem Convolution_forward_channel_mismatch (st : state R) (x0 : Tensor R)
    fn cw cx fh fw n h w :
  shape (W st) = [fn; cw; fh; fw] -> shape x0 = [n; cx; h; w] -> cx <> cw ->
  0 < fn -> 0 < fh -> 0 < fw ->
  (0 < stride st)%Z -> (0 <= pad st)%Z ->
  (Z.of_nat fh <= Z.of_nat h + 2 * pad st)%Z ->
  (Z.of_nat fw <= Z.of_nat w + 2 * pad st)%Z ->
  forward x0 st = (Raise ValueError, st).
Proof.
  intros HW Hx Hne Hfn Hfh Hfw Hst Hpad Hh Hwd.
  destruct (im2col_shape x0 (Z.of_nat fh) (Z.of_nat fw) (stride st) (pad st) n cx h w)
    as (col0 & Hcol & Scol); try lia; try done.
  rewrite !Nat2Z.id in Scol.
  assert (Hw2 : reshape [Z.of_nat fn; (-1)%Z] (W st) =
                Ok (mkT [fn; cw * fh * fw] (data (W st)))).
  { apply reshape_infer_cols; [done|]. unfold size. rewrite HW. cbn. lia. }
  destruct (transposeT_matrix (mkT [fn; cw * fh * fw] (data (W st))) fn _ eq_refl)
    as (col_W0 & HcW & ScW).
  unfold forward. rewrite bind_get, bind_lift, HW. cbn [unpack4].
  rewrite bind_lift, Hx. cbn [unpack4].
  rewrite bind_lift, conv_out_floor by done.
  rewrite bind_lift, conv_out_floor by done.
  rewrite bind_lift, Hcol, bind_lift, Hw2, bind_lift, HcW, bind_lift.
  rewrite (dot_mismatch col0 col_W0 _ _ _ _ Scol ScW); [done|].
  intros Heq. apply Nat.mul_cancel_r in Heq; [|lia].
  apply Nat.mul_cancel_r in Heq; [done|lia].
Qed.

(** X22: after forward, backward on a gradient of the output's shape stores
    dW with the shape of W and db with the shape of b before it calls
    col2im, to which it passes a column matrix of the shape im2col
    produced and the shape of the input. *)
Theorem Convolution_gradient_shapes (st : state R) (x0 dout : Tensor R)
    fn c fh fw n h w :
  shape (W st) = [fn; c; fh; fw] -> shape (b st) = [fn] ->
  shape x0 = [n; c; h; w] ->
  0 < n -> 0 < fn -> 0 < fh -> 0 < fw ->
  (0 < stride st)%Z -> (0 <= pad st)%Z ->
  (Z.of_nat fh <= Z.of_nat h + 2 * pad st)%Z ->
  (Z.of_nat fw <= Z.of_nat w + 2 * pad st)%Z ->
  let oh := Z.to_nat (out_size (Z.of_nat h) (pad st) (Z.of_nat fh) (stride st)) in
  let ow := Z.to_nat (out_size (Z.of_nat w) (pad st) (Z.of_nat fw) (stride st)) in
  shape dout = [n; fn; oh; ow] ->
  let st1 := (forward x0 st).2 in
  exists dcol st2,
    backward col2im dout st1 =
      (col2im dcol [n; c; h; w] (Z.of_nat fh) (Z.of_nat fw) (stride st) (pad st), st2) /\
    shape dcol = [n * oh * ow; c * fh * fw] /\
    shape <$> dW st2 = Some (shape (W st2)) /\
    shape <$> db st2 = Some (shape (b st2)).
Proof.
  intros HW Hb Hx Hn Hfn Hfh Hfw Hst Hpad Hh Hwd oh ow Hd st1.
  destruct (Convolution_forward_run st x0 fn c fh fw n h w)
    as (out & col0 & col_W0 & Hf & _ & Scol & ScW); try done.
  fold oh ow in Scol. unfold st1. rewrite Hf. cbn [snd]. clear st1 Hf.
  set (m := n * oh * ow) in *. set (k := c * fh * fw) in *.
  set (d1 := mkT [n; oh; ow; fn]
               (omap (fun j => data dout !!
                  ravel [n; fn; oh; ow]
                    (map (fun a => nth (axis_pos [0; 2; 3; 1] a) (unravel [n; oh; ow; fn] j) 0)
                       (seq 0 4)))
                  (seq 0 (numel [n; oh; ow; fn])))).
  assert (Ht : transpose [0; 2; 3; 1] dout = Ok d1).
  { unfold transpose, ndim. rewrite Hd. reflexivity. }
  assert (Hre : reshape [(-1)%Z; Z.of_nat fn] d1 =
                Ok (mkT [m; Z.to_nat (Z.of_nat fn)] (data d1))).
  { apply reshape_infer_rows; [lia|]. unfold size, d1, m. cbn [shape numel foldr].
    rewrite Nat2Z.id. lia. }
  rewrite Nat2Z.id in Hre. set (d2 := mkT [m; fn] (data d1)) in *.
  destruct (sum_axis0_shape d2 m [fn] eq_refl) as (db0 & Hdb & Sdb).
  destruct (transposeT_matrix col0 m k Scol) as (colT & HcT & ScT).
  destruct (dot_matrix colT d2 k m fn ScT eq_refl) as (dW0 & HdW0 & SdW0).
  destruct (transposeT_matrix dW0 k fn SdW0) as (dW1 & HdW1 & SdW1).
  assert (HdW1' : transpose [1; 0] dW0 = Ok dW1).
  { rewrite <- HdW1. unfold transposeT, ndim. by rewrite SdW0. }
  assert (HdW2 : reshape [Z.of_nat fn; Z.of_nat c; Z.of_nat fh; Z.of_nat fw] dW1 =
                 Ok (mkT [fn; c; fh; fw] (data dW1))).
  { apply (reshape_to_numel [fn; c; fh; fw]). unfold size. rewrite SdW1. unfold k. cbn. lia. }
  destruct (transposeT_matrix col_W0 k fn ScW) as (cWT & HcWT & ScWT).
  destruct (dot_matrix d2 cWT m fn k eq_refl ScWT) as (dcol & Hdcol & Sdcol).
  exists dcol. eexists. split; [|split; [exact Sdcol|]].
  - unfold backward. rewrite bind_get.
    cbn [W b stride pad x col col_W set_x set_col set_col_W].
    rewrite HW. cbn [unpack4 from_attr].
    rewrite bind_lift, bind_lift, Ht, bind_lift, Hre, bind_lift, Hdb, bind_modify.
    rewrite bind_lift, bind_lift, HcT, bind_lift, HdW0, bind_modify.
    rewrite bind_lift, HdW1', bind_lift, HdW2, bind_modify.
    rewrite bind_lift, bind_lift, HcWT, bind_lift, Hdcol, bind_lift.
    unfold lift. rewrite Hx. reflexivity.
  - cbn. by rewrite HW, Sdb, Hb.
Qed.
End ConvolutionShapes.

(** ** Max pooling: the cached indices *)

Lemma reshape_rows_inv {A} (t r : Tensor A) (k : Z) :
  reshape [(-1)%Z; k] t = Ok r -> (0 < k)%Z /\ exists m, shape r = [m; Z.to_nat k].
Proof.
  unfold reshape, fix_unknown_dimension, count_unknown, known_dims.
  rewrite !filter_cons, !filter_nil. repeat case_decide; try lia; cbn [length foldr].
  - discriminate.
  - destruct (Z.eqb_spec (k * 1) 0); [discriminate|].
    destruct (_ =? _)%Z; [|discriminate]. cbn [rmap rbind map].
    destruct (Z.ltb_spec k 0); [lia|]. intros [= <-]. split; [lia|]. cbn. eauto.
Qed.

Section PoolingEdges.
Context {R : Type} `{Scalar R}.
Import Pooling.

Lemma argmax_fold_lt (l : list R) : forall i m j,
  i < j ->
  (foldl (fun '(i, m, j) x => if sltb m x then (j, x, S j) else (i, m, S j))
     (i, m, j) l).1.1 < j + length l.
Proof.
  induction l as [|x l IH]; intros i m j Hij; cbn [foldl length]; [cbn; lia|].
  destruct (sltb m x).
  - specialize (IH j x (S j)). cbn in *. lia.
  - specialize (IH i m (S j)). cbn in *. lia.
Qed.

Lemma argmax_list_lt (a : R) (l : list R) : argmax_list a l < S (length l).
Proof. unfold argmax_list. apply (argmax_fold_lt l 0 a 1). lia. Qed.

Lemma argmax_axis1_bound (t : Tensor R) (am : Tensor nat) m k :
  shape t = [m; k] -> argmax_axis1 t = Ok am ->
  Forall (fun i => i < k) (data am).
Proof.
  intros Hs. unfold argmax_axis1, reduce_axis1. rewrite Hs.
  destruct k as [|k]; [discriminate|]. intros [= <-]. cbn [data].
  apply Forall_forall. intros i Hi. apply list_elem_of_omap in Hi as (row & Hrow & Hi).
  destruct row as [|a l]; [discriminate|]. injection Hi as <-.
  assert (Hlen : length (a :: l) <= S k).
  { clear -Hrow. revert Hrow. generalize (data t). generalize m as n.
    induction n as [|m' IH]; intros d Hrow; cbn in Hrow.
    - by apply elem_of_nil in Hrow.
    - apply elem_of_cons in Hrow as [->|Hrow]; [|by eapply IH].
      rewrite length_take. lia. }
  pose proof (argmax_list_lt a l). cbn in Hlen. lia.
Qed.

(** X23: whenever forward returns, it has stored the input and an arg_max
    array whose entries are all below pool_h * pool_w, the row length of
    the matrix backward scatters the gradient into. *)
Theorem Pooling_forward_arg_max_in_range (st : state R) (x0 out : Tensor R) st' :
  forward x0 st = (Ok out, st') ->
  x st' = Some x0 /\
  exists am, arg_max st' = Some am /\
    Forall (fun i => (Z.of_nat i < pool_h st * pool_w st)%Z) (data am).
Proof.
  unfold forward. intros Hf. do 2 step Hf. destruct a as [[[n c] h] w].
  repeat step Hf. injection Hf as _ <-. split; [done|].
  exists a3. split; [done|].
  apply reshape_rows_inv in E3 as (Hk & m & Sa2).
  eapply Forall_impl; [by eapply argmax_axis1_bound|].
  intros i Hi. cbn in Hi. lia.
Qed.

(** X24: forward refuses an input that is not of rank 4 with ValueError and a
    stride of 0 with ZeroDivisionError, in both cases before it changes
    the instance. *)
Theorem Pooling_forward_rejects (st : state R) (x0 : Tensor R) :
  (length (shape x0) <> 4 -> forward x0 st = (Raise ValueError, st)) /\
  (length (shape x0) = 4 -> stride st = 0%Z ->
   forward x0 st = (Raise ZeroDivisionError, st)).
Proof.
  unfold forward. rewrite bind_get, bind_lift. split.
  - intros Hr. destruct (shape x0) as [|? [|? [|? [|? [|? ?]]]]]; try done.
  - intros Hr Hs. destruct (shape x0) as [|n [|c [|h [|w [|? ?]]]]]; try done.
    cbn [unpack4]. rewrite bind_lift. unfold int_out. by rewrite Hs.
Qed.
End PoolingEdges.

(** ** Sigmoid *)

Lemma broadcast2_same_lookup {A B C} (f : A -> B -> C) (a : Tensor A) (b : Tensor B) c i x y :
  shape a = shape b -> wf a -> wf b -> broadcast2 f a b = Ok c ->
  data a !! i = Some x -> data b !! i = Some y -> data c !! i = Some (f x y).
Proof.
  intros Hs Wa Wb Hc Hx Hy. rewrite broadcast2_same in Hc by done.
  injection Hc as <-. cbn. by rewrite lookup_zip_with, Hx, Hy.
Qed.

Lemma broadcast2_scalar_l_lookup {A B C} (f : A -> B -> C) (k : A) (b : Tensor B) c i y :
  wf b -> broadcast2 f (scalar k) b = Ok c ->
  data b !! i = Some y -> data c !! i = Some (f k y).
Proof.
  intros Wb Hc Hy. rewrite broadcast2_scalar_l in Hc by done.
  injection Hc as <-. cbn. by rewrite list_lookup_fmap, Hy.
Qed.

Section SigmoidPair.
Context {R : Type} `{Scalar R} (exp : R -> R).
Import Sigmoid.

(** X25: forward returns 1 / (1 + exp(-x)) entry by entry and keeps it;
    backward on a gradient of the same shape returns
    dout * (1 - out) * out computed from that kept output, not from a
    new evaluation of exp. *)
Theorem Sigmoid_forward_backward (st : state R) (x dout : Tensor R) :
  wf x -> wf dout -> shape dout = shape x ->
  let sigma a := sdiv s1 (sadd s1 (exp (sopp a))) in
  exists o st1 dx,
    forward exp x st = (Ok o, st1) /\ out st1 = Some o /\
    o = tmap sigma x /\
    backward dout st1 = (Ok dx, st1) /\ shape dx = shape x /\
    forall i a d,
      data x !! i = Some a -> data dout !! i = Some d ->
      data dx !! i = Some (smul (smul d (ssub s1 (sigma a))) (sigma a)).
Proof.
  intros Wx Wd Sd sigma.
  set (e := tmap exp (tneg x)).
  assert (We : wf e) by (by do 2 apply wf_tmap).
  set (o := tmap sigma x).
  assert (Wo : wf o) by (by apply wf_tmap).
  assert (Ho : rbind (tadd (scalar s1) e) (fun e' => tdiv (scalar s1) e') = Ok o).
  { unfold tadd, tdiv. rewrite broadcast2_scalar_l by done. cbn [rbind].
    rewrite broadcast2_scalar_l by (by apply wf_tmap).
    unfold o, e, tmap, tneg. cbn. by rewrite !map_map. }
  destruct (returns_scalar_l ssub s1 o (shape x) eq_refl Wo) as (c & Hc & Sc & Wc).
  destruct (returns_same smul dout c (shape x) Sd Wd Sc Wc) as (d & Hd & Sdd & Wdd).
  destruct (returns_same smul d o (shape x) Sdd Wdd eq_refl Wo) as (dx & Hdx & Sdx & Wdx).
  exists o, (mk (Some o)), dx. split; [|split; [done|split; [done|split; [|split; [done|]]]]].
  - unfold forward. fold e.
    destruct (tadd (scalar s1) e) as [e'|]; [|discriminate]. cbn [rbind] in Ho.
    rewrite bind_lift, bind_lift, Ho. reflexivity.
  - unfold backward. rewrite bind_get. cbn [out from_attr].
    unfold tsub, tmul.
    rewrite bind_lift, bind_lift, Hc, bind_lift, Hd. unfold lift. by rewrite Hdx.
  - intros i a dv Ha Hdv.
    assert (Hoi : data o !! i = Some (sigma a)).
    { unfold o, tmap. cbn. by rewrite list_lookup_fmap, Ha. }
    pose proof (broadcast2_scalar_l_lookup ssub s1 o c i _ Wo Hc Hoi) as Hci.
    assert (Hdi : data d !! i = Some (smul dv (ssub s1 (sigma a)))).
    { apply (broadcast2_same_lookup smul dout c d i); try done. by rewrite Sd, Sc. }
    apply (broadcast2_same_lookup smul d o dx i); try done.
Qed.
End SigmoidPair.

Section BackwardShapes.
Context {R : Type} `{Scalar R}.

Lemma __backward_keeps_input_shape (dout : Tensor R) v :
  preserves (fun s => BatchNorm.input_shape s = v) (BatchNorm.__backward dout).
Proof. unfold BatchNorm.__backward. frame. Qed.

(** X26: whenever Affine.backward or BatchNorm.backward returns, dx has the
    shape that the last forward recorded for its input. *)
Theorem backward_restores_input_shape (dout dx : Tensor R) sh :
  (forall (st st' : Affine.state R),
      Affine.original_x_shape st = Some sh ->
      Affine.backward dout st = (Ok dx, st') -> shape dx = sh) /\
  (forall (st st' : BatchNorm.state R),
      BatchNorm.input_shape st = Some sh ->
      BatchNorm.backward dout st = (Ok dx, st') -> shape dx = sh).
Proof.
  split.
  - intros st st' Hsh Hb. unfold Affine.backward in Hb. repeat step Hb.
    rewrite Hsh in E5. injection E5 as <-.
    apply lift_Ok in Hb as [Hre _]. by apply reshape_to_shape in Hre as [? _].
  - intros st st' Hsh Hb. unfold BatchNorm.backward in Hb. step Hb.
    apply bind_Ok in Hb as (dx2 & s2 & H2 & H3).
    pose proof (__backward_keeps_input_shape a (Some sh) st Hsh) as Hin.
    rewrite H2 in Hin. cbn [snd] in Hin.
    step H3. rewrite Hin in H3. cbn [from_attr] in H3. rewrite bind_lift in H3.
    apply lift_Ok in H3 as [Hre _]. by apply reshape_to_shape in Hre as [? _].
Qed.
End BackwardShapes.

(** ** Running statistics entry by entry *)

Section Statistics.
Context {R : Type} `{Scalar R}.

Lemma foldl_zip_with_lookup d j : j < d -> forall (cs : list (list R)) c a,
  Forall (fun c => length c = d) cs -> c !! j = Some a ->
  foldl (zip_with sadd) c cs !! j = Some (foldl sadd a (omap (.!! j) cs)).
Proof.
  intros Hj. induction cs as [|c1 cs IH]; intros c a Hcs Ha; [done|].
  apply Forall_cons in Hcs as [H1 Hcs].
  destruct (lookup_lt_is_Some_2 c1 j) as [a1 Ha1]; [lia|].
  cbn [foldl].
  change (omap ?f (?a :: ?r)) with (match f a with Some y => y :: omap f r | None => omap f r end).
  rewrite Ha1. cbn [foldl].
  apply IH; [done|]. by rewrite lookup_zip_with, Ha, Ha1.
Qed.

Lemma length_feature (t : Tensor R) n d j :
  shape t = [n; d] -> wf t -> j < d -> length (Stat.feature t n d j) = n.
Proof.
  intros Hs Hw Hj. unfold Stat.feature. apply length_omap_seq.
  intros i Hi. apply lookup_lt_is_Some.
  unfold wf, size in Hw. rewrite Hs in Hw. simpl in Hw. nia.
Qed.

Lemma sum_axis0_lookup (t : Tensor R) n d :
  shape t = [n; d] -> wf t ->
  exists r, sum_axis0 t = Ok r /\ shape r = [d] /\ wf r /\
    forall j, j < d -> data r !! j = Some (Stat.total (Stat.feature t n d j)).
Proof.
  intros Hs Hw.
  destruct (returns_sum_axis0 t n [d] Hs Hw) as (r & Hr & Sr & Wr).
  exists r. do 3 (split; [done|]). intros j Hj.
  unfold sum_axis0 in Hr. rewrite Hs in Hr. injection Hr as <-. cbn [data].
  unfold Stat.feature. rewrite <- omap_lookup_chunks by done.
  change (numel [d]) with (d * 1). rewrite Nat.mul_1_r.
  unfold wf, size in Hw. rewrite Hs in Hw. simpl in Hw.
  destruct n as [|n]; cbn [chunks].
  - simpl. rewrite lookup_replicate. auto.
  - destruct (lookup_lt_is_Some_2 (data t) j) as [a Ha]; [nia|].
    change (omap ?f (?a :: ?r)) with (match f a with Some y => y :: omap f r | None => omap f r end).
    rewrite lookup_take_lt, Ha by done. cbn [Stat.total].
    apply foldl_zip_with_lookup with (d := d); [done | | by rewrite lookup_take_lt].
    apply chunks_Forall_length. rewrite length_drop. nia.
Qed.

Lemma mean_axis0_lookup (t : Tensor R) n d :
  shape t = [n; d] -> wf t ->
  exists mu, mean_axis0 t = Ok mu /\ shape mu = [d] /\ wf mu /\
    forall j, j < d -> data mu !! j = Some (Stat.mean (Stat.feature t n d j)).
Proof.
  intros Hs Hw.
  destruct (sum_axis0_lookup t n d Hs Hw) as (r & Hr & Sr & Wr & Hl).
  unfold mean_axis0. rewrite Hs, Hr. cbn [rmap]. eexists. split; [done|].
  split; [done|]. split; [by apply wf_tmap|].
  intros j Hj. cbn [tmap data]. rewrite list_lookup_fmap, (Hl j Hj). cbn.
  unfold Stat.mean. by rewrite (length_feature t n d j Hs Hw Hj).
Qed.

(** The column of a row-broadcast result. *)
Lemma feature_rows (f : R -> R -> R) (a b c : Tensor R) n d j y :
  shape a = [n; d] -> shape b = [d] -> wf a -> wf b ->
  broadcast2 f a b = Ok c -> data b !! j = Some y ->
  Stat.feature c n d j = map (fun x => f x y) (Stat.feature a n d j).
Proof.
  intros Ha Hb Wa Wb Hc Hy.
  assert (Hj : j < d).
  { apply lookup_lt_Some in Hy. unfold wf, size in Wb. rewrite Hb in Wb.
    simpl in Wb. lia. }
  unfold Stat.feature. apply omap_seq_map. intros i Hi.
  destruct (lookup_lt_is_Some_2 (data a) (i * d + j)) as [x Hx].
  { unfold wf, size in Wa. rewrite Ha in Wa. simpl in Wa. nia. }
  exists x. split; [done|].
  by apply (broadcast2_rows_lookup f a b n d c i j x y).
Qed.

(** The column of an elementwise square. *)
Lemma feature_square (a c : Tensor R) n d j :
  shape a = [n; d] -> wf a -> j < d -> broadcast2 smul a a = Ok c ->
  Stat.feature c n d j = map (fun x => smul x x) (Stat.feature a n d j).
Proof.
  intros Ha Wa Hj Hc. unfold Stat.feature. apply omap_seq_map. intros i Hi.
  destruct (lookup_lt_is_Some_2 (data a) (i * d + j)) as [x Hx].
  { unfold wf, size in Wa. rewrite Ha in Wa. simpl in Wa. nia. }
  exists x. split; [done|].
  by apply (broadcast2_same_lookup smul a a c _ x x).
Qed.

(** Mean and variance of every feature, as the training branch computes
    them. *)
Lemma batch_stats_lookup (x : Tensor R) n d :
  shape x = [n; d] -> wf x ->
  exists mu var,
    BatchNorm.batch_stats x = Ok (mu, var) /\
    shape mu = [d] /\ wf mu /\ shape var = [d] /\ wf var /\
    forall j, j < d ->
      data mu !! j = Some (Stat.mean (Stat.feature x n d j)) /\
      data var !! j = Some (Stat.variance (Stat.feature x n d j)).
Proof.
  intros Hs Hw.
  destruct (mean_axis0_lookup x n d Hs Hw) as (mu & Hmu & Smu & Wmu & Lmu).
  destruct (broadcast2_rows_ok ssub x mu n d Hs Smu Hw Wmu) as (xc0 & Hxc & Sxc & Wxc).
  destruct (returns_same smul xc0 xc0 [n; d] Sxc Wxc Sxc Wxc) as (sq & Hsq & Ssq & Wsq).
  destruct (mean_axis0_lookup sq n d Ssq Wsq) as (var & Hvar & Svar & Wvar & Lvar).
  exists mu, var. unfold BatchNorm.batch_stats, tsub, tmul.
  rewrite Hmu. cbn [rbind]. rewrite Hxc. cbn [rbind]. rewrite Hsq. cbn [rbind].
  rewrite Hvar. cbn [rbind]. do 5 (split; [done|]).
  intros j Hj. split; [by apply Lmu|].
  rewrite (Lvar j) by done. do 2 f_equal.
  rewrite (feature_square xc0 sq n d j Sxc Wxc) by done.
  rewrite (feature_rows ssub x mu xc0 n d j _ Hs Smu Hw Wmu Hxc (Lmu j Hj)).
  by rewrite map_map.
Qed.

Lemma moving_average_lookup (m : R) (r s : Tensor R) d :
  shape r = [d] -> wf r -> shape s = [d] -> wf s ->
  exists r', BatchNorm.moving_average m r s = Ok r' /\
    shape r' = [d] /\ wf r' /\
    forall j a b, data r !! j = Some a -> data s !! j = Some b ->
      data r' !! j = Some (Stat.ema m a b).
Proof.
  intros Sr Wr Ss Ws.
  destruct (returns_moving_average m r s d Sr Wr Ss Ws) as (r' & Hr' & Sr' & Wr').
  exists r'. do 3 (split; [done|]). intros j a b Ha Hb.
  unfold BatchNorm.moving_average, tmul, tadd in Hr'.
  rewrite !broadcast2_scalar_l in Hr' by done. cbn [rbind] in Hr'.
  rewrite broadcast2_same in Hr'; [| cbn; congruence | by apply wf_tmap | by apply wf_tmap].
  injection Hr' as <-. cbn [data tmap].
  by rewrite lookup_zip_with, !list_lookup_fmap, Ha, Hb.
Qed.

End Statistics.

Section RunningStatistics.
Context {R : Type} `{Scalar R} (sqrt : R -> R).
Import BatchNorm.
Implicit Types (st : state R) (x : Tensor R).

Lemma normalize_train_stats st x n d rm rv :
  shape x = [n; d] -> wf x ->
  running_mean st = Some rm -> shape rm = [d] -> wf rm ->
  running_var st = Some rv -> shape rv = [d] -> wf rv ->
  exists xn0 st' rm' rv',
    normalize_train sqrt x st = (Ok xn0, st') /\
    running_mean st' = Some rm' /\ running_var st' = Some rv' /\
    shape rm' = [d] /\ wf rm' /\ shape rv' = [d] /\ wf rv' /\
    forall j a b, data rm !! j = Some a -> data rv !! j = Some b ->
      data rm' !! j = Some (Stat.ema (momentum st) a (Stat.mean (Stat.feature x n d j))) /\
      data rv' !! j = Some (Stat.ema (momentum st) b (Stat.variance (Stat.feature x n d j))).
Proof.
  intros Hs Hw Hrm Srm Wrm Hrv Srv Wrv.
  destruct (normalize_train_run sqrt st x n d rm rv Hs Hw Hrm Srm Wrm Hrv Srv Wrv)
    as (xn0 & xc0 & std0 & st' & Hrun & _).
  destruct (normalize_train_Ok sqrt x st xn0 st' Hrun)
    as (mu & var & rm0 & rv0 & rm' & rv' & Hst & Hrm0 & Hrv0 & Hma & Hmv & Hm' & Hv').
  rewrite Hrm in Hrm0. injection Hrm0 as <-.
  rewrite Hrv in Hrv0. injection Hrv0 as <-.
  destruct (batch_stats_lookup x n d Hs Hw)
    as (mu1 & var1 & Hst1 & Smu & Wmu & Svar & Wvar & Lst).
  rewrite Hst in Hst1. injection Hst1 as <- <-.
  destruct (moving_average_lookup (momentum st) rm mu d Srm Wrm Smu Wmu)
    as (r1 & Hr1 & Sr1 & Wr1 & L1).
  destruct (moving_average_lookup (momentum st) rv var d Srv Wrv Svar Wvar)
    as (r2 & Hr2 & Sr2 & Wr2 & L2).
  rewrite Hma in Hr1. injection Hr1 as <-.
  rewrite Hmv in Hr2. injection Hr2 as <-.
  exists xn0, st', rm', rv'. do 7 (split; [done|]).
  intros j a b Ha Hb.
  assert (Hj : j < d).
  { apply lookup_lt_Some in Ha. unfold wf, size in Wrm. rewrite Srm in Wrm.
    simpl in Wrm. lia. }
  destruct (Lst j Hj) as [Lm Lv]. split; [by apply L1 | by apply L2].
Qed.

(** Once the statistics are stored, the rest of forward leaves the
    instance alone. *)
Lemma forward_train_state st x x2 s1 xn0 s2 :
  flatten x = Ok x2 ->
  lazy_init x2 (set_input_shape (Some (shape x)) st) = (Ok tt, s1) ->
  normalize_train sqrt x2 s1 = (Ok xn0, s2) ->
  (forward sqrt x true st).2 = s2.
Proof.
  intros Hf Hl Hn. unfold forward. rewrite bind_modify, bind_lift, Hf.
  unfold __forward. rewrite !bind_assoc.
  erewrite bind_run by exact Hl. cbv beta iota.
  rewrite bind_assoc. erewrite bind_run by exact Hn.
  lazymatch goal with
  | |- (?m s2).2 = s2 =>
      assert (Hp : preserves (fun s => s = s2) m) by frame; exact (Hp s2 eq_refl)
  end.
Qed.

(** C5, as the code has it: after a training-mode forward on a batch
    whose flattened form has n rows of d features, with mu_j and var_j
    the mean and variance of feature j.  On an instance that holds a
    running mean and a running variance of shape (d,), entry j of the
    stored running mean is momentum * previous_j + (1 - momentum) * mu_j
    and entry j of the stored running variance is
    momentum * previous_j + (1 - momentum) * var_j.  On an instance
    without running mean both start from zero, whatever running
    variance the instance held: the stored entries are
    momentum * 0 + (1 - momentum) * mu_j and
    momentum * 0 + (1 - momentum) * var_j.  This is the state the call
    leaves, also when the later scaling by gamma and beta raises. *)
Theorem BatchNorm_training_updates_running_stats st x x2 n d :
  flatten x = Ok x2 -> shape x2 = [n; d] -> wf x2 ->
  let st' := (forward sqrt x true st).2 in
  let mu j := Stat.mean (Stat.feature x2 n d j) in
  let var j := Stat.variance (Stat.feature x2 n d j) in
  (forall rm rv,
     running_mean st = Some rm -> running_var st = Some rv ->
     shape rm = [d] -> wf rm -> shape rv = [d] -> wf rv ->
     exists rm' rv',
       running_mean st' = Some rm' /\ running_var st' = Some rv' /\
       shape rm' = [d] /\ wf rm' /\ shape rv' = [d] /\ wf rv' /\
       forall j a b, data rm !! j = Some a -> data rv !! j = Some b ->
         data rm' !! j = Some (Stat.ema (momentum st) a (mu j)) /\
         data rv' !! j = Some (Stat.ema (momentum st) b (var j))) /\
  (running_mean st = None ->
     exists rm' rv',
       running_mean st' = Some rm' /\ running_var st' = Some rv' /\
       shape rm' = [d] /\ wf rm' /\ shape rv' = [d] /\ wf rv' /\
       forall j, j < d ->
         data rm' !! j = Some (Stat.ema (momentum st) s0 (mu j)) /\
         data rv' !! j = Some (Stat.ema (momentum st) s0 (var j))).
Proof.
  intros Hf Hs Hw st' mu var. split.
  - intros rm rv Hrm Hrv Srm Wrm Srv Wrv.
    set (s1 := set_input_shape (Some (shape x)) st).
    destruct (normalize_train_stats s1 x2 n d rm rv Hs Hw Hrm Srm Wrm Hrv Srv Wrv)
      as (xn0 & s2 & rm' & rv' & Hn & Hup).
    assert (Hl : lazy_init x2 s1 = (Ok tt, s1)).
    { unfold lazy_init. rewrite bind_get. cbn [running_mean s1 set_input_shape].
      by rewrite Hrm. }
    unfold st'. rewrite (forward_train_state st x x2 s1 xn0 s2 Hf Hl Hn).
    by exists rm', rv'.
  - intros Hrm.
    set (s0' := set_input_shape (Some (shape x)) st).
    set (s1 := set_running_var (Some (zeros [d]))
                 (set_running_mean (Some (zeros [d])) s0')).
    assert (Hl : lazy_init x2 s0' = (Ok tt, s1)) by (by apply (lazy_init_None _ _ n d)).
    destruct (normalize_train_stats s1 x2 n d (zeros [d]) (zeros [d]) Hs Hw
                eq_refl eq_refl (wf_zeros _) eq_refl eq_refl (wf_zeros _))
      as (xn0 & s2 & rm' & rv' & Hn & Hm' & Hv' & Sm & Wm & Sv & Wv & Hup).
    unfold st'. rewrite (forward_train_state st x x2 s1 xn0 s2 Hf Hl Hn).
    exists rm', rv'. do 6 (split; [done|]).
    intros j Hj. apply Hup; by apply zeros_lookup.
Qed.
End RunningStatistics.

Section MulLayerPair.
Context {R : Type} `{Scalar R}.
Import MulLayer.

(** X3: on arrays of one shape, forward returns x * y entry by entry
    and keeps both inputs; backward on a gradient of that shape returns
    dout * y as the gradient for x and dout * x as the gradient for y,
    entry by entry, and leaves the instance as forward left it. *)
Theorem MulLayer_forward_backward (st : state R) (x0 y0 dout : Tensor R) :
  wf x0 -> wf y0 -> wf dout ->
  shape y0 = shape x0 -> shape dout = shape x0 ->
  exists out st1 dx dy,
    forward x0 y0 st = (Ok out, st1) /\
    backward dout st1 = (Ok (dx, dy), st1) /\
    shape out = shape x0 /\ shape dx = shape x0 /\ shape dy = shape x0 /\
    forall i a b d,
      data x0 !! i = Some a -> data y0 !! i = Some b -> data dout !! i = Some d ->
      data out !! i = Some (smul a b) /\
      data dx !! i = Some (smul d b) /\
      data dy !! i = Some (smul d a).
Proof.
  intros Wx Wy Wd Sy Sd.
  destruct (returns_same smul x0 y0 _ eq_refl Wx Sy Wy) as (out & Hout & Sout & Wout).
  destruct (returns_same smul dout y0 _ Sd Wd Sy Wy) as (dx & Hdx & Sdx & Wdx).
  destruct (returns_same smul dout x0 _ Sd Wd eq_refl Wx) as (dy & Hdy & Sdy & Wdy).
  exists out, (mk (Some x0) (Some y0)), dx, dy.
  split; [|split; [|split; [|split; [|split]]]]; try done.
  - unfold forward. rewrite !bind_modify. unfold lift, tmul. by rewrite Hout.
  - unfold backward. rewrite bind_get. cbn [x y from_attr].
    rewrite bind_lift, bind_lift. unfold tmul. rewrite Hdx.
    rewrite bind_lift, bind_lift, Hdy. done.
  - intros i a b d Ha Hb Hd. split; [|split].
    + apply (broadcast2_same_lookup smul x0 y0 out i a b); by try done.
    + apply (broadcast2_same_lookup smul dout y0 dx i d b); try done. congruence.
    + apply (broadcast2_same_lookup smul dout x0 dy i d a); by try done.
Qed.
End MulLayerPair.



(** ** The properties at concrete inputs *)

Lemma elementwise_forward_commutes_witness :
  AddLayer.forward (qt [2; 1] [1; 2]%Z) (qt [3] [4; 5; 6]%Z) =
    AddLayer.forward (qt [3] [4; 5; 6]%Z) (qt [2; 1] [1; 2]%Z) /\
  (MulLayer.forward (qt [2; 1] [1; 2]%Z) (qt [3] [4; 5; 6]%Z) MulLayer.init).1 =
    (MulLayer.forward (qt [3] [4; 5; 6]%Z) (qt [2; 1] [1; 2]%Z) MulLayer.init).1.
Proof.
  exact (elementwise_forward_commutes (qt [2; 1] [1; 2]%Z) (qt [3] [4; 5; 6]%Z)
           MulLayer.init Q_sadd_comm Q_smul_comm).
Defined.

Lemma AddLayer_backward_passes_gradient_witness :
  AddLayer.backward (qt [2] [5; 7]%Z) = Ok (qt [2] [5; 7]%Z, qt [2] [5; 7]%Z).
Proof.
  exact (AddLayer_backward_passes_gradient (qt [2] [5; 7]%Z) Q_smul_one eq_refl).
Defined.

Lemma Affine_gradient_shapes_witness :
  exists out st1 dx st2,
    Affine.forward (qt [1; 2; 1] [1; 2]%Z) Cases.affine = (Ok out, st1) /\
    shape out = [1; 2] /\
    Affine.backward (qt [1; 2] [1; 1]%Z) st1 = (Ok dx, st2) /\
    shape dx = [1; 2; 1] /\
    shape <$> Affine.dW st2 = Some (shape (Affine.W st2)) /\
    shape <$> Affine.db st2 = Some (shape (Affine.b st2)).
Proof.
  exact (Affine_gradient_shapes Cases.affine (qt [1; 2; 1] [1; 2]%Z) (qt [1; 2] [1; 1]%Z)
           1 [2; 1] 2 2 eq_refl eq_refl eq_refl (le_n 1) eq_refl eq_refl).
Defined.

Lemma Affine_forward_empty_batch_witness :
  Affine.forward (mkT [0; 2] []) Cases.affine =
    (Raise ValueError, Affine.set_original_x_shape (Some [0; 2]) Cases.affine).
Proof. exact (Affine_forward_empty_batch Cases.affine (mkT [0; 2] []) [2] eq_refl). Defined.

Lemma Affine_backward_before_forward_witness :
  exists e, Affine.backward (qt [1; 2] [1; 1]%Z) Cases.affine = (Raise e, Cases.affine).
Proof.
  exact (Affine_backward_before_forward Cases.affine (qt [1; 2] [1; 1]%Z) eq_refl).
Defined.

Lemma Relu_backward_before_forward_witness :
  Relu.backward 2%positive (Relu.init, Ex.store) =
    (Ok 2%positive, (Relu.init, <[2%positive := qt [3] [0; 0; 0]%Z]> Ex.store)).
Proof.
  exact (Relu_backward_before_forward Ex.store 2%positive (qt [3] [5; 6; 7]%Z) eq_refl).
Defined.

Lemma Relu_backward_shape_mismatch_witness :
  let w1 := (Relu.forward 1%positive (Relu.init, Cases.store3)).2 in
  Relu.backward 3%positive w1 = (Raise IndexError, w1).
Proof.
  apply (Relu_backward_shape_mismatch Relu.init Cases.store3 1%positive 3%positive
           (qt [3] [-1; 0; 2]%Z) (qt [2] [1; 1]%Z)).
  - reflexivity.
  - vm_compute. reflexivity.
  - vm_compute. discriminate.
Defined.

Lemma Q_sleb_zero : sleb (s0 : Q) s0 = true.
Proof. reflexivity. Qed.

Lemma Relu_forward_idempotent_witness :
  exists out1 w1 out2 w2,
    Relu.forward 1%positive (Relu.init, Ex.store) = (Ok out1, w1) /\
    Relu.forward out1 w1 = (Ok out2, w2) /\
    out2 <> out1 /\
    w2.2 !! out1 = Some (tmap Relu.relu (qt [3] [-1; 0; 2]%Z)) /\
    w2.2 !! out2 = Some (tmap Relu.relu (qt [3] [-1; 0; 2]%Z)).
Proof.
  exact (Relu_forward_idempotent Relu.init Ex.store 1%positive (qt [3] [-1; 0; 2]%Z)
           Q_sleb_zero eq_refl).
Defined.

Lemma SoftmaxWithLoss_backward_index_out_of_range_witness :
  SoftmaxWithLoss.backward (scalar 1%Q) (Ex.loss_state Cases.bad_classes) =
    (Raise IndexError, Ex.loss_state Cases.bad_classes).
Proof.
  apply (SoftmaxWithLoss_backward_index_out_of_range (Ex.loss_state Cases.bad_classes)
           Ex.probs (scalar 1%Q) 2 3 [0; 3]%Z 1 3%Z);
    try reflexivity; [lia | right; lia].
Defined.

Lemma SoftmaxWithLoss_backward_size_coincidence_witness :
  exists dx,
    SoftmaxWithLoss.backward (scalar 1%Q) Cases.single_class = (Ok dx, Cases.single_class) /\
    shape dx = [2; 2].
Proof.
  exact (SoftmaxWithLoss_backward_size_coincidence Cases.single_class
           (qt [2; 1] [1; 1]%Z) (scalar 1%Q) 2 [0; 0]%Z
           eq_refl eq_refl eq_refl eq_refl eq_refl (le_n 2)).
Defined.

Lemma Dropout_forward_inference_witness :
  Dropout.forward Ex.samples (qt [2] [3; 4]%Z) false (Dropout.init (1 # 2)%Q) =
    (Ok (tmap (fun a => smul a (ssub s1 (1 # 2)%Q)) (qt [2] [3; 4]%Z)),
     Dropout.init (1 # 2)%Q).
Proof.
  exact (Dropout_forward_inference (Dropout.init (1 # 2)%Q) Ex.samples
           (qt [2] [3; 4]%Z) eq_refl).
Defined.

Lemma Dropout_training_pair_witness :
  exists out st1 dx,
    Dropout.forward Ex.samples (qt [2] [3; 4]%Z) true (Dropout.init (1 # 2)%Q) =
      (Ok out, st1) /\
    Dropout.backward (qt [2] [5; 7]%Z) st1 = (Ok dx, st1) /\
    data out !! 0 = Some (inject_Z 3) /\
    data dx !! 1 = Some (smul (inject_Z 7) s0).
Proof.
  destruct (Dropout_training_pair (Dropout.init (1 # 2)%Q) Ex.samples
              (qt [2] [3; 4]%Z) (qt [2] [5; 7]%Z) Q_smul_one eq_refl eq_refl eq_refl)
    as (out & st1 & dx & Hf & Hb & _ & _ & Hp).
  exists out, st1, dx. split; [exact Hf|]. split; [exact Hb|]. split.
  - exact (proj1 (Hp 0 (inject_Z 3) (inject_Z 5) eq_refl eq_refl)).
  - exact (proj2 (Hp 1 (inject_Z 4) (inject_Z 7) eq_refl eq_refl)).
Defined.

Lemma BatchNorm_forward_keeps_shape_witness :
  exists out st',
    BatchNorm.forward Qsqrt Ex.images true Ex.bn_fresh = (Ok out, st') /\
    shape out = [2; 1; 1; 1] /\
    BatchNorm.input_shape st' = Some [2; 1; 1; 1].
Proof.
  assert (Hrun : exists out st',
             BatchNorm.forward Qsqrt Ex.images true Ex.bn_fresh = (Ok out, st'))
    by (vm_compute; eexists _, _; reflexivity).
  destruct Hrun as (out & st' & Hrun).
  exists out, st'. split; [exact Hrun|].
  exact (BatchNorm_forward_keeps_shape Qsqrt Ex.bn_fresh Ex.images true out st' Hrun).
Defined.

Lemma BatchNorm_inference_no_caching_witness :
  (BatchNorm.forward Qsqrt Ex.rows false Ex.bn_resumed).2 =
    BatchNorm.set_input_shape (Some [2; 1]) Ex.bn_resumed.
Proof.
  exact (BatchNorm_inference_no_caching Qsqrt Ex.bn_resumed Ex.rows (qt [1] [10]%Z) eq_refl).
Defined.

Lemma BatchNorm_backward_before_forward_witness :
  exists e, BatchNorm.backward (qt [2; 1] [1; 1]%Z) Ex.bn_fresh = (Raise e, Ex.bn_fresh).
Proof.
  exact (BatchNorm_backward_before_forward Ex.bn_fresh (qt [2; 1] [1; 1]%Z) eq_refl).
Defined.

Lemma BatchNorm_training_needs_running_var_witness :
  exists e, (BatchNorm.forward Qsqrt Ex.rows true Cases.bn_half).1 = Raise e.
Proof.
  destruct (BatchNorm.forward Qsqrt Ex.rows true Cases.bn_half) as [[out|e] st'] eqn:E.
  - destruct (BatchNorm_training_needs_running_var Qsqrt Cases.bn_half Ex.rows
                (qt [1] [10]%Z) eq_refl eq_refl out st' E).
  - by exists e.
Defined.

Lemma BatchNorm_training_pair_shapes_witness :
  exists out st1 dx st2,
    BatchNorm.forward Qsqrt Ex.rows true Ex.bn_fresh = (Ok out, st1) /\
    shape out = [2; 1] /\
    BatchNorm.backward (qt [2; 1] [1; 1]%Z) st1 = (Ok dx, st2) /\
    shape dx = [2; 1] /\
    shape <$> BatchNorm.dgamma st2 = Some (shape (BatchNorm.gamma st2)) /\
    shape <$> BatchNorm.dbeta st2 = Some (shape (BatchNorm.gamma st2)) /\
    BatchNorm.gamma st2 = BatchNorm.gamma Ex.bn_fresh.
Proof.
  exact (BatchNorm_training_pair_shapes Qsqrt Ex.bn_fresh Ex.rows (qt [2; 1] [1; 1]%Z) 2 1
           (le_S 1 1 (le_n 1)) eq_refl eq_refl eq_refl eq_refl eq_refl eq_refl eq_refl eq_refl
           (or_introl eq_refl)).
Defined.

Lemma Convolution_forward_shape_witness :
  exists out st',
    Convolution.forward Cases.image Cases.conv = (Ok out, st') /\
    shape out = [1; 1; 3; 3] /\
    Convolution.x st' = Some Cases.image.
Proof.
  apply (Convolution_forward_shape Cases.conv Cases.image 1 1 2 2 1 2 2);
    try reflexivity; cbn; lia.
Defined.

Lemma Convolution_forward_channel_mismatch_witness :
  Convolution.forward Cases.image Cases.conv2 = (Raise ValueError, Cases.conv2).
Proof.
  apply (Convolution_forward_channel_mismatch Cases.conv2 Cases.image 1 2 1 2 2 1 2 2);
    try reflexivity; cbn; lia.
Defined.

Lemma Convolution_gradient_shapes_witness :
  let st1 := (Convolution.forward Cases.image Cases.conv).2 in
  exists dcol st2,
    Convolution.backward Cases.col2im_id (qt [1; 1; 3; 3] [1; 1; 1; 1; 1; 1; 1; 1; 1]%Z) st1 =
      (Cases.col2im_id dcol [1; 1; 2; 2] 2 2 1 1, st2) /\
    shape dcol = [9; 4] /\
    shape <$> Convolution.dW st2 = Some (shape (Convolution.W st2)) /\
    shape <$> Convolution.db st2 = Some (shape (Convolution.b st2)).
Proof.
  apply (Convolution_gradient_shapes Cases.col2im_id Cases.conv Cases.image
           (qt [1; 1; 3; 3] [1; 1; 1; 1; 1; 1; 1; 1; 1]%Z) 1 1 2 2 1 2 2);
    try reflexivity; cbn; lia.
Defined.

Lemma Pooling_forward_arg_max_in_range_witness :
  let fwd := Pooling.forward Cases.image24 Cases.pool in
  Pooling.x fwd.2 = Some Cases.image24 /\
  exists am, Pooling.arg_max fwd.2 = Some am /\
    Forall (fun i => (Z.of_nat i < 2 * 2)%Z) (data am).
Proof.
  intros fwd.
  assert (Hrun : exists out, fwd = (Ok out, fwd.2))
    by (vm_compute; eexists; reflexivity).
  destruct Hrun as [out Hrun].
  exact (Pooling_forward_arg_max_in_range Cases.pool Cases.image24 out fwd.2 Hrun).
Defined.

Lemma Pooling_forward_rejects_witness :
  Pooling.forward Ex.rows Cases.pool = (Raise ValueError, Cases.pool) /\
  Pooling.forward Cases.image (Pooling.init 2 2 0 0) =
    (Raise ZeroDivisionError, Pooling.init 2 2 0 0).
Proof.
  split.
  - apply (proj1 (Pooling_forward_rejects Cases.pool Ex.rows)). cbn. lia.
  - apply (proj2 (Pooling_forward_rejects (Pooling.init 2 2 0 0) Cases.image));
      reflexivity.
Defined.

Lemma Pooling_forward_shape_unpadded_witness :
  exists out st',
    Pooling.forward Cases.image24 Cases.pool = (Ok out, st') /\
    shape out = [1; 2; 1; 2].
Proof.
  apply (Pooling_forward_shape_unpadded Cases.pool Cases.image24 1 2 2 4);
    try reflexivity; cbn; lia.
Defined.

Lemma Sigmoid_forward_backward_witness :
  let sigma (a : Q) : Q := sdiv s1 (sadd s1 (Qexp (sopp a))) in
  exists o st1 dx,
    Sigmoid.forward Qexp (qt [2] [0; 1]%Z) Sigmoid.init = (Ok o, st1) /\
    Sigmoid.out st1 = Some o /\
    o = tmap sigma (qt [2] [0; 1]%Z) /\
    Sigmoid.backward (qt [2] [5; 7]%Z) st1 = (Ok dx, st1) /\
    shape dx = [2] /\
    forall i a d,
      data (qt [2] [0; 1]%Z) !! i = Some a -> data (qt [2] [5; 7]%Z) !! i = Some d ->
      data dx !! i = Some (smul (smul d (ssub s1 (sigma a))) (sigma a)).
Proof.
  exact (Sigmoid_forward_backward Qexp Sigmoid.init (qt [2] [0; 1]%Z) (qt [2] [5; 7]%Z)
           eq_refl eq_refl eq_refl).
Defined.

Lemma backward_restores_input_shape_witness :
  let st1 := (Affine.forward (qt [1; 2; 1] [1; 2]%Z) Cases.affine).2 in
  let bwd := Affine.backward (qt [1; 2] [1; 1]%Z) st1 in
  exists dx, bwd.1 = Ok dx /\ shape dx = [1; 2; 1].
Proof.
  intros st1 bwd.
  assert (Hrun : exists dx, bwd = (Ok dx, bwd.2)) by (vm_compute; eexists; reflexivity).
  destruct Hrun as [dx Hrun]. exists dx. split; [by rewrite Hrun|].
  exact (proj1 (backward_restores_input_shape (qt [1; 2] [1; 1]%Z) dx [1; 2; 1])
           st1 bwd.2 eq_refl Hrun).
Defined.

Lemma MulLayer_forward_backward_witness :
  let x := qt [2] [2; 3]%Z in
  let y := qt [2] [5; 7]%Z in
  let dout := qt [2] [10; 100]%Z in
  exists out st1 dx dy,
    MulLayer.forward x y MulLayer.init = (Ok out, st1) /\
    MulLayer.backward dout st1 = (Ok (dx, dy), st1) /\
    data out !! 1 = Some (3 * 7)%Q /\
    data dx !! 1 = Some (100 * 7)%Q /\
    data dy !! 1 = Some (100 * 3)%Q.
Proof.
  intros x y dout.
  destruct (MulLayer_forward_backward MulLayer.init x y dout
              eq_refl eq_refl eq_refl eq_refl eq_refl)
    as (out & st1 & dx & dy & Hf & Hb & _ & _ & _ & He).
  destruct (He 1 3%Q 7%Q 100%Q eq_refl eq_refl eq_refl) as (Ho & Hx & Hy).
  exists out, st1, dx, dy. repeat split; assumption.
Defined.

Lemma BatchNorm_training_updates_running_stats_witness :
  (exists rm' rv',
     BatchNorm.running_mean (BatchNorm.forward Qsqrt Ex.rows true Ex.bn_resumed).2 = Some rm' /\
     BatchNorm.running_var (BatchNorm.forward Qsqrt Ex.rows true Ex.bn_resumed).2 = Some rv' /\
     data rm' !! 0 = Some (Stat.ema (9 # 10) 10 (Stat.mean [1; 3]))%Q /\
     data rv' !! 0 = Some (Stat.ema (9 # 10) 2 (Stat.variance [1; 3]))%Q) /\
  (exists rm' rv',
     BatchNorm.running_mean (BatchNorm.forward Qsqrt Ex.rows true Cases.bn_var_only).2 = Some rm' /\
     BatchNorm.running_var (BatchNorm.forward Qsqrt Ex.rows true Cases.bn_var_only).2 = Some rv' /\
     data rm' !! 0 = Some (Stat.ema (9 # 10) 0 (Stat.mean [1; 3]))%Q /\
     data rv' !! 0 = Some (Stat.ema (9 # 10) 0 (Stat.variance [1; 3]))%Q).
Proof.
  split.
  - destruct (BatchNorm_training_updates_running_stats Qsqrt Ex.bn_resumed Ex.rows Ex.rows 2 1
                eq_refl eq_refl eq_refl) as [Hsome _].
    destruct (Hsome (qt [1] [10]%Z) (qt [1] [2]%Z) eq_refl eq_refl eq_refl eq_refl eq_refl eq_refl)
      as (rm' & rv' & Hm & Hv & _ & _ & _ & _ & He).
    destruct (He 0 10%Q 2%Q eq_refl eq_refl) as [H1 H2].
    exists rm', rv'. repeat split; assumption.
  - destruct (BatchNorm_training_updates_running_stats Qsqrt Cases.bn_var_only Ex.rows Ex.rows 2 1
                eq_refl eq_refl eq_refl) as [_ Hnone].
    destruct (Hnone eq_refl) as (rm' & rv' & Hm & Hv & _ & _ & _ & _ & He).
    destruct (He 0 (le_n 1)) as [H1 H2].
    exists rm', rv'. repeat split; assumption.
Defined.

(** C5 fails: on an instance built with running variance [2] and no
    running mean, momentum 0.9, a training-mode forward on the batch
    [[1], [3]] (variance 1) returns and stores the running variance
    [0.1]; momentum * previous + (1 - momentum) * var is 1.9. *)
Lemma BatchNorm_training_discards_running_var :
  let st := Cases.bn_var_only in
  let fwd := BatchNorm.forward Qsqrt Ex.rows true st in
  BatchNorm.running_var st = Some (qt [1] [2]%Z) /\
  rmap shape fwd.1 = Ok [2; 1] /\
  (map Qred <$> (data <$> BatchNorm.running_var fwd.2)) = Some [(1 # 10)%Q] /\
  Qred (Stat.ema (9 # 10)%Q 2%Q (Stat.variance (Stat.feature Ex.rows 2 1 0))) = (19 # 10)%Q.
Proof. vm_compute. repeat split; reflexivity. Qed.

Lemma BatchNorm_first_inference_forward_witness :
  exists out st',
    BatchNorm.forward Qsqrt Ex.rows false Cases.bn_scaled = (Ok out, st') /\
    BatchNorm.running_mean st' = Some (zeros [1]) /\
    BatchNorm.running_var st' = Some (zeros [1]) /\
    shape out = [2; 1] /\
    data out !! 0 = Some (2 * (1 / Qsqrt (0 + 10 / 10000000)) + 1)%Q /\
    data out !! 1 = Some (2 * (3 / Qsqrt (0 + 10 / 10000000)) + 1)%Q /\
    (2 * (1 / Qsqrt (0 + 10 / 10000000)) + 1 == 2001)%Q /\
    (2 * (3 / Qsqrt (0 + 10 / 10000000)) + 1 == 6001)%Q.
Proof.
  destruct (BatchNorm_first_inference_forward Qsqrt Q_ssub_zero Cases.bn_scaled Ex.rows 2 1
              eq_refl eq_refl eq_refl eq_refl eq_refl eq_refl eq_refl)
    as (out & st' & Hf & Hm & Hv & Hs & _ & He).
  pose proof (He 0 0 1%Q 2%Q 1%Q (le_n 1) eq_refl eq_refl eq_refl) as H0.
  pose proof (He 1 0 3%Q 2%Q 1%Q (le_n 1) eq_refl eq_refl eq_refl) as H1.
  exists out, st'. repeat split; try assumption; vm_compute; reflexivity.
Defined.
